(** * pybind11_mkdoc: the Doxygen comment translator ([doxygen_trans.py])

    A shallow embedding of [pybind11_mkdoc/doxygen_trans.py] and the
    properties of its translation pipeline.

    The program is written against Python's [re] module.  Module [Re]
    embeds the fragment of [re] the program uses as a backtracking matcher
    with Python's priorities (leftmost match, alternatives in order, greedy
    and lazy repetition, capture groups, lookahead), together with
    [re.match], [re.fullmatch], [re.sub], [re.subn], [re.split] and
    [Match.expand].  The patterns of the program are written as syntax
    trees, each next to its source text.

    A text is a [string]: a sequence of characters with code points below
    256.  Character classes follow Python's [str] patterns on that range. *)

From Stdlib Require Import String Ascii List NArith ZArith Lia Bool Arith.
From Stdlib Require Import DecimalString.
Import ListNotations.
Open Scope string_scope.

(** ** Characters *)

Definition nl : string := String "010"%char "".

Definition ord (a : ascii) : N := N_of_ascii a.

Definition between (lo hi : N) (a : ascii) : bool :=
  ((lo <=? ord a) && (ord a <=? hi))%N.

(** [str.isspace] on code points below 256, which is what [\s] matches. *)
Definition is_space (a : ascii) : bool :=
  between 9 13 a || between 28 32 a || (ord a =? 133)%N || (ord a =? 160)%N.

(** [\w]: alphanumeric (in the sense of [str.isalnum]) or the underscore. *)
Definition is_word (a : ascii) : bool :=
  between 48 57 a || between 65 90 a || between 97 122 a || (ord a =? 95)%N
  || (ord a =? 170)%N || between 178 179 a || (ord a =? 181)%N
  || between 185 186 a || between 188 190 a || between 192 214 a
  || between 216 246 a || between 248 255 a.

Definition is_char (c a : ascii) : bool := Ascii.eqb a c.

Definition one_of (cs : string) (a : ascii) : bool :=
  existsb (Ascii.eqb a) (list_ascii_of_string cs).

(** [str.lower], [str.upper], [str.capitalize]; the program applies them to
    tag names only, which are ASCII.  On the letters above code point 127
    Python's functions differ from these (some results lie outside the
    range of a character here): the definitions stand for Python's on
    ASCII text, and the properties that speak of any tag assume tags of
    ASCII letters, digits and underscores ([plain_tag]). *)
Definition lower_char (a : ascii) : ascii :=
  if between 65 90 a then ascii_of_N (ord a + 32) else a.

Definition upper_char (a : ascii) : ascii :=
  if between 97 122 a then ascii_of_N (ord a - 32) else a.

Fixpoint str_map (f : ascii -> ascii) (s : string) : string :=
  match s with
  | EmptyString => EmptyString
  | String a s' => String (f a) (str_map f s')
  end.

Definition lower : string -> string := str_map lower_char.
Definition upper : string -> string := str_map upper_char.

Definition capitalize (s : string) : string :=
  match s with
  | EmptyString => EmptyString
  | String a s' => String (upper_char a) (lower s')
  end.

Fixpoint take (n : nat) (s : string) : string :=
  match n, s with
  | S n', String a s' => String a (take n' s')
  | _, _ => EmptyString
  end.

Fixpoint repeat_str (n : nat) (s : string) : string :=
  match n with
  | O => EmptyString
  | S n' => s ++ repeat_str n' s
  end.

(** [text.split(sep)] for a one-character separator. *)
Fixpoint str_split (sep : ascii) (s : string) : list string :=
  match s with
  | EmptyString => [EmptyString]
  | String a s' =>
      if Ascii.eqb a sep then EmptyString :: str_split sep s'
      else match str_split sep s' with
           | h :: t => String a h :: t
           | [] => [String a EmptyString]
           end
  end.

(** ** The fragment of Python's [re] used by the program *)

Module Re.

Inductive regex : Type :=
| Eps : regex                          (* the empty pattern *)
| Cls : (ascii -> bool) -> regex       (* one character of a class *)
| Cat : regex -> regex -> regex        (* r1r2 *)
| Alt : regex -> regex -> regex        (* r1|r2 *)
| Opt : regex -> regex                 (* r? *)
| Star : regex -> regex                (* r*, greedy *)
| LazyStar : regex -> regex            (* r*?, lazy *)
| Group : nat -> regex -> regex        (* (r), capture group number n *)
| Ahead : regex -> regex.              (* (?=r) *)

(** r+ *)
Definition Plus (r : regex) : regex := Cat r (Star r).

Fixpoint lit (s : string) : regex :=
  match s with
  | EmptyString => Eps
  | String a s' => Cat (Cls (is_char a)) (lit s')
  end.

(** "|".join of patterns (the list is never empty in the program). *)
Fixpoint alts (rs : list regex) : regex :=
  match rs with
  | [] => Eps
  | [r] => r
  | r :: rs' => Alt r (alts rs')
  end.

(** Capture groups: the most recent binding of a group comes first. *)
Definition caps : Type := list (nat * string).

Fixpoint group (c : caps) (g : nat) : option string :=
  match c with
  | [] => None
  | (i, s) :: c' => if Nat.eqb i g then Some s else group c' g
  end.

Definition answer : Type := option (nat * caps).
Definition cont : Type := string -> nat -> caps -> answer.

Definition orelse (a b : answer) : answer :=
  match a with
  | Some x => Some x
  | None => b
  end.

(** The loop of a repetition of [body] followed by [k], greedy ([star_iter])
    or lazy ([lazy_iter]).  An iteration that consumes nothing is given up
    (every repetition body of this program consumes a character), so the
    loop counter, which starts above the length of the text, is never
    exhausted. *)
Fixpoint star_iter (body : string -> nat -> caps -> cont -> answer) (k : cont)
  (fuel : nat) (s : string) (n : nat) (c : caps) : answer :=
  match fuel with
  | O => k s n c
  | S fuel' =>
      orelse
        (body s n c
           (fun s1 n1 c1 =>
              if Nat.ltb n n1 then star_iter body k fuel' s1 n1 c1 else None))
        (k s n c)
  end.

Fixpoint lazy_iter (body : string -> nat -> caps -> cont -> answer) (k : cont)
  (fuel : nat) (s : string) (n : nat) (c : caps) : answer :=
  match fuel with
  | O => k s n c
  | S fuel' =>
      orelse
        (k s n c)
        (body s n c
           (fun s1 n1 c1 =>
              if Nat.ltb n n1 then lazy_iter body k fuel' s1 n1 c1 else None))
  end.

(** [rmatch r s n c k]: match [r] at the front of [s], [n] characters
    having been consumed since the start of the match, and hand what is
    left to [k]; alternatives are tried in Python's order and the first
    success is returned. *)
Fixpoint rmatch (r : regex) (s : string) (n : nat) (c : caps) (k : cont)
  {struct r} : answer :=
  match r with
  | Eps => k s n c
  | Cls p =>
      match s with
      | String a s' => if p a then k s' (S n) c else None
      | EmptyString => None
      end
  | Cat r1 r2 => rmatch r1 s n c (fun s1 n1 c1 => rmatch r2 s1 n1 c1 k)
  | Alt r1 r2 => orelse (rmatch r1 s n c k) (rmatch r2 s n c k)
  | Opt r1 => orelse (rmatch r1 s n c k) (k s n c)
  | Star r1 => star_iter (rmatch r1) k (S (String.length s)) s n c
  | LazyStar r1 => lazy_iter (rmatch r1) k (S (String.length s)) s n c
  | Group g r1 =>
      rmatch r1 s n c (fun s1 n1 c1 => k s1 n1 ((g, take (n1 - n) s) :: c1))
  | Ahead r1 =>
      match rmatch r1 s n c (fun _ n1 c1 => Some (n1, c1)) with
      | Some (_, c1) => k s n c1
      | None => None
      end
  end.

(** One match attempt at the front of [s]; group 0 is the matched text.
    [must_advance] refuses an empty match, [match_all] one that stops
    before the end of the text (the flags of the same names in [_sre]). *)
Definition match_at (r : regex) (must_advance match_all : bool) (s : string)
  : answer :=
  rmatch r s 0 []
    (fun s1 n1 c1 =>
       if must_advance && Nat.eqb n1 0 then None
       else if match_all && negb (String.eqb s1 "") then None
       else Some (n1, (0, take n1 s) :: c1)).

(** [re.match] and [re.fullmatch]. *)
Definition re_match (r : regex) (s : string) : option caps :=
  option_map snd (match_at r false false s).

Definition fullmatch (r : regex) (s : string) : option caps :=
  option_map snd (match_at r false true s).

(** Replacement templates: literal text and group references. *)
Inductive titem : Type :=
| TLit : string -> titem
| TGrp : nat -> titem.

Definition template : Type := list titem.

(** [Match.expand]; a group that did not take part in the match expands to
    the empty text. *)
Fixpoint expand (t : template) (c : caps) : string :=
  match t with
  | [] => EmptyString
  | TLit s :: t' => s ++ expand t' c
  | TGrp g :: t' =>
      match group c g with
      | Some s => s ++ expand t' c
      | None => expand t' c
      end
  end.

(** The left-to-right scan shared by [re.sub], [re.subn] and [re.split]:
    each character outside a match is kept, each match is recorded with its
    groups.  [skip] counts the characters of the text still covered by the
    match found last.  After an empty match the scan tries once more at the
    same place for a match that advances (Python 3.7 and later). *)
Inductive token : Type :=
| Ch : ascii -> token
| Hit : caps -> token.

Fixpoint scan (r : regex) (skip : nat) (s : string) : list token :=
  match s with
  | EmptyString =>
      match skip with
      | O =>
          match match_at r false false EmptyString with
          | Some (_, c) => [Hit c]
          | None => []
          end
      | S _ => []
      end
  | String a s' =>
      match skip with
      | S j => scan r j s'
      | O =>
          match match_at r false false s with
          | Some (S j, c) => Hit c :: scan r j s'
          | Some (O, c) =>
              match match_at r true false s with
              | Some (S j, c') => Hit c :: Hit c' :: scan r j s'
              | _ => Hit c :: Ch a :: scan r 0 s'
              end
          | None => Ch a :: scan r 0 s'
          end
      end
  end.

Fixpoint replace (t : template) (l : list token) : string :=
  match l with
  | [] => EmptyString
  | Ch a :: l' => String a (replace t l')
  | Hit c :: l' => expand t c ++ replace t l'
  end.

Fixpoint hits (l : list token) : nat :=
  match l with
  | [] => 0
  | Ch _ :: l' => hits l'
  | Hit _ :: l' => S (hits l')
  end.

Definition subn (r : regex) (t : template) (s : string) : string * nat :=
  let l := scan r 0 s in (replace t l, hits l).

Definition sub (r : regex) (t : template) (s : string) : string :=
  fst (subn r t s).

(** [re.split] for a pattern without capture groups. *)
Fixpoint pieces (l : list token) : list string :=
  match l with
  | [] => [EmptyString]
  | Ch a :: l' =>
      match pieces l' with
      | h :: t => String a h :: t
      | [] => [String a EmptyString]
      end
  | Hit _ :: l' => EmptyString :: pieces l'
  end.

Definition split (r : regex) (s : string) : list string :=
  pieces (scan r 0 s).

End Re.

(** ** The command kinds ([DoxygenCommand] and its subclasses) *)

Module Doxygen.
Import Re.

(** Sequencing of patterns, and the character classes of the program. *)
Fixpoint seq (rs : list regex) : regex :=
  match rs with
  | [] => Eps
  | [r] => r
  | r :: rs' => Cat r (seq rs')
  end.

Definition newline : regex := Cls (is_char "010").          (* \n *)
Definition space : regex := Cls is_space.                   (* \s *)
Definition nonspace : regex := Cls (fun a => negb (is_space a)).   (* \S *)
Definition anychar : regex :=
  Cls (fun a => is_word a || negb (is_word a)).             (* [\w\W] *)
Definition marker : regex := Cls (one_of "\@").             (* [\\@] *)

(** The names of the groups [(?P<label>...)] and [(?P<body>...)], as the
    numbers the patterns below give them. *)
Definition g_label : nat := 1.
Definition g_body : nat := 2.

(** A warning is the message of one call of [warnings.warn]; the warnings
    of a translation are collected in the order of the calls.  What the
    warning filters of the interpreter then show of them is not modelled. *)
Definition warnings : Type := list string.

(** [DoxygenUnsupportedCommandMixin.warn_if_present] *)
Definition unsupported_message (tag : string) : string :=
  "Unsupported Doxygen command detected: \" ++ tag ++ " or @" ++ tag.

Definition warn_if_present (tag : string) (r : string * nat)
  : string * nat * warnings :=
  (r, if Nat.ltb 0 (snd r) then [unsupported_message tag] else []).

(** *** Sections *)

Inductive section_class : Type :=
| DoxygenSection
| DoxygenUntitledSection
| DoxygenLabeledSection
| ParamSection
| DoxygenUnsupportedSection
| DoxygenUnsupportedUntitledSection.

Record section_command : Type := {
  sec_class : section_class;
  sec_tag : string;
  sec_synonyms : list string;
  sec_title : string;
  sec_indent : string;
  sec_next_lines_extra_indent : bool;
  sec_hidden : bool }.

Definition indent4 : string := "    ".

(** [DoxygenSection.__init__]: [synonyms = [tag] + list(synonyms)] and
    [title if title else tag.capitalize()]. *)
Definition new_section (cls : section_class) (tag : string)
  (synonyms : list string) (title : option string) (indent : string)
  (next_lines_extra_indent hidden : bool) : section_command :=
  {| sec_class := cls;
     sec_tag := tag;
     sec_synonyms := tag :: synonyms;
     sec_title := match title with
                  | Some (String a t) => String a t
                  | _ => capitalize tag
                  end;
     sec_indent := indent;
     sec_next_lines_extra_indent := next_lines_extra_indent;
     sec_hidden := hidden |}.

(** [DoxygenUntitledSection.__init__] passes [indent=''];
    [ParamSection.__init__] is [("param", title="Args")]. *)
Definition new_untitled (cls : section_class) (tag : string)
  (synonyms : list string) (hidden : bool) : section_command :=
  new_section cls tag synonyms None "" true hidden.

Definition new_param : section_command :=
  new_section ParamSection "param" [] (Some "Args") indent4 true false.

(** [tag_regex]:   [\\@] (?: {tags} )   and for [ParamSection]
    [\\@] {tag} (?: \[ (?: in|out|, )* \] )?
    The program formats the tags into the pattern as they are.  A tag of
    letters, digits and underscores ([plain_tag]) is a pattern that matches
    itself, and that is how a tag is read here; a tag with pattern syntax
    in it is outside the embedding, and the properties that speak of any
    tag assume plain tags.  The tags of the translator are plain. *)
Definition command_tag_regex (synonyms : list string) : regex :=
  Cat marker (alts (map lit synonyms)).

Definition tag_regex (self : section_command) : regex :=
  match sec_class self with
  | ParamSection =>
      seq [marker; lit (sec_tag self);
           Opt (seq [lit "["; Star (alts [lit "in"; lit "out"; lit ","]);
                     lit "]"])]
  | _ => command_tag_regex (sec_synonyms self)
  end.

Definition is_labeled (self : section_command) : bool :=
  match sec_class self with
  | DoxygenLabeledSection | ParamSection => true
  | _ => false
  end.

Definition is_untitled (self : section_command) : bool :=
  match sec_class self with
  | DoxygenUntitledSection | DoxygenUnsupportedUntitledSection => true
  | _ => false
  end.

Definition is_unsupported (self : section_command) : bool :=
  match sec_class self with
  | DoxygenUnsupportedSection | DoxygenUnsupportedUntitledSection => true
  | _ => false
  end.

(** [before_regex], the tokens of each pattern set apart by blanks:
      {tag} ( :? \s+ (?P<body> [\w\W]* ) )?
    for a section (the group opened by "(:?" is a capture group, number 1,
    that starts with an optional colon), and
      {tag} (?: \s+ (?P<label> \S+ ) )? (?: \s+ (?P<body> [\w\W]* ) )?
    for a labeled section. *)
Definition before_regex (self : section_command) : regex :=
  if is_labeled self then
    seq [tag_regex self;
         Opt (seq [Plus space; Group g_label (Plus nonspace)]);
         Opt (seq [Plus space; Group g_body (Star anychar)])]
  else
    seq [tag_regex self;
         Opt (Group 1 (seq [Opt (lit ":"); Plus space;
                            Group g_body (Star anychar)]))].

(** [after_regex]:  "{indent}\g<body>"  and  "{indent}\g<label>: \g<body>".
    The indent is formatted into the replacement template as it is, and
    read here as literal text, which it is without a backslash
    ([literal_indent]); the indents of the translator are blanks. *)
Definition after_regex (self : section_command) : template :=
  if is_labeled self
  then [TLit (sec_indent self); TGrp g_label; TLit ": "; TGrp g_body]
  else [TLit (sec_indent self); TGrp g_body].

Definition title_line (self : section_command) : string :=
  if is_untitled self then "" else sec_title self ++ ":" ++ nl.

(** [DoxygenSection.translate_n] *)
Definition section_translate_n (self : section_command) (section : string)
  (include_title : bool) : string * nat :=
  match re_match (before_regex self) section with
  | Some m =>
      if sec_hidden self then ("", 1)
      else
        let translation := expand (after_regex self) m in
        let next_line_indent :=
          repeat_str (if sec_next_lines_extra_indent self then 2 else 1)
                     (sec_indent self) in
        let translation :=
          sub (Cat newline (Star space)) [TLit (nl ++ next_line_indent)]
              translation in
        let translation :=
          if include_title then nl ++ title_line self ++ translation
          else translation in
        (translation, 1)
  | None => (section, 0)
  end.

(** [translate_n] as the class of [self] resolves it: the unsupported
    classes pass the result through [warn_if_present]. *)
Definition translate_n (self : section_command) (section : string)
  (include_title : bool) : string * nat * warnings :=
  let r := section_translate_n self section include_title in
  if is_unsupported self then warn_if_present (sec_tag self) r else (r, []).

(** *** Visual enhancements and HTML commands *)

Inductive visual_class : Type :=
| DoxygenVisualEnhancement
| DoxygenHtmlCommand
| DoxygenUnsupportedVisualEnhancement
| DoxygenUnsupportedHtmlCommand.

Record visual : Type := {
  vis_class : visual_class;
  vis_tag : string;
  vis_synonyms : list string;
  vis_format : template }.

Definition new_visual (cls : visual_class) (tag : string)
  (synonyms : list string) (format_regex : template) : visual :=
  {| vis_class := cls; vis_tag := tag; vis_synonyms := tag :: synonyms;
     vis_format := format_regex |}.

(** [DoxygenVisualEnhancement.before_regex]:  {tag} \s+ (?P<word> \S+ ) *)
Definition visual_before_regex (self : visual) : regex :=
  seq [command_tag_regex (vis_synonyms self); Plus space;
       Group 1 (Plus nonspace)].

(** [DoxygenHtmlCommand.before_regex]:  <{tag}> ( [\w\W]*? ) </{tag}>
    The tag name is formatted into the pattern as it is, and read here as
    matching itself, which it does when it is plain ([plain_tag]). *)
Definition html_before_regex (tag_name : string) : regex :=
  seq [lit ("<" ++ tag_name ++ ">"); Group 1 (LazyStar anychar);
       lit ("</" ++ tag_name ++ ">")].

(** [DoxygenHtmlCommand.translate_n]: one [re.subn] for each name of
    [chain(map(str.lower, synonyms), map(str.upper, synonyms))]. *)
Fixpoint html_loop (fmt : template) (tag_names : list string)
  (text : string) (count : nat) : string * nat :=
  match tag_names with
  | [] => (text, count)
  | tag_name :: rest =>
      let (text', delta_count) := subn (html_before_regex tag_name) fmt text in
      html_loop fmt rest text' (count + delta_count)
  end.

Definition html_translate_n (self : visual) (text : string) : string * nat :=
  html_loop (vis_format self)
    (map lower (vis_synonyms self) ++ map upper (vis_synonyms self)) text 0.

Definition visual_translate_n (self : visual) (text : string)
  : string * nat * warnings :=
  match vis_class self with
  | DoxygenVisualEnhancement =>
      (subn (visual_before_regex self) (vis_format self) text, [])
  | DoxygenHtmlCommand => (html_translate_n self text, [])
  | DoxygenUnsupportedVisualEnhancement =>
      warn_if_present (vis_tag self)
        (subn (visual_before_regex self) (vis_format self) text)
  | DoxygenUnsupportedHtmlCommand =>
      warn_if_present (vis_tag self) (html_translate_n self text)
  end.

(** [DoxygenCommand.translate]:  [self.translate_n(text)[0]] *)
Definition visual_translate (self : visual) (text : string)
  : string * warnings :=
  let '(r, w) := visual_translate_n self text in (fst r, w).

End Doxygen.

(** ** The translator ([DoxygenTranslator]) *)

Module Translator.
Import Re Doxygen.

Definition int_types : list string :=
  ["int8_t"; "uint8_t"; "int16_t"; "uint16_t"; "int32_t"; "uint32_t";
   "int64_t"; "uint64_t"; "ssize_t"; "size_t"].

(** [string_types]: in a pattern the final " *" of the first four names is
    a repetition of the blank before it, not a literal star. *)
Definition blanks : regex := Star (Cls (is_char " ")).

Definition string_types : list regex :=
  [Cat (lit "const char") blanks;
   Cat (lit "const char16_t") blanks;
   Cat (lit "const char32_t") blanks;
   Cat (lit "const wchar_t") blanks;
   lit "std::string"; lit "std::u16string"; lit "std::u32string";
   lit "std::wstring"].

Definition string_types_src : list string :=
  ["const char *"; "const char16_t *"; "const char32_t *"; "const wchar_t *";
   "std::string"; "std::u16string"; "std::u32string"; "std::wstring"].

Definition list_types : list string :=
  ["std::vector"; "std::deque"; "std::list"; "std::array"; "std::valarray"].
Definition set_types : list string := ["std::set"; "std::unordered_set"].
Definition dict_types : list string := ["std::map"; "std::unordered_map"].
Definition tuple_types : list string := ["std::pair"; "std::tuple"].
Definition optional_types : list string :=
  ["std::optional"; "std::experimental::optional"; "boost::optional"].
Definition pointer_types : list string :=
  ["std::unique_ptr"; "std::shared_ptr"].

Definition template_types : list string :=
  ["List"; "Set"; "Dict"; "Tuple"; "Optional"; "Pointer"].

(** A rule of [type_substitutions]: the key of the dictionary (the text of
    the pattern), the pattern, and the replacement. *)
Record rule : Type := {
  rule_key : string;
  rule_pattern : regex;
  rule_repl : template }.

(** The key and pattern of  '|'.join(names)  for names without pattern
    syntax. *)
Definition join_names (names : list string) : string :=
  String.concat "|" names.

Definition names_rule (names : list string) (new : string) : rule :=
  {| rule_key := join_names names;
     rule_pattern := alts (map lit names);
     rule_repl := [TLit new] |}.

(** The dictionary keeps its items in insertion order. *)
Definition dict : Type := list rule.

(** The class attribute [type_substitutions] as the class body builds it. *)
Definition type_substitutions : dict :=
  [ names_rule ["true"] "True";
    names_rule ["false"] "False";
    names_rule ["std::nullopt"; "boost::none"] "None";
    names_rule ["double"] "float";
    names_rule int_types "int";
    {| rule_key := join_names string_types_src;
       rule_pattern := alts string_types;
       rule_repl := [TLit "str"] |};
    names_rule list_types "List";
    names_rule set_types "Set";
    names_rule dict_types "Dict";
    names_rule tuple_types "Tuple";
    names_rule optional_types "Optional";
    names_rule pointer_types "Pointer";
    names_rule ["std::exception"] "RuntimeError";
    names_rule ["std::bad_alloc"] "MemoryError";
    names_rule ["std::domain_error"; "std::length_error";
                "std::invalid_argument"; "std::range_error";
                "pybind11::value_error"] "ValueError";
    names_rule ["std::out_of_range"; "pybind11::index_error"] "IndexError";
    names_rule ["std::overflow_error"] "OverflowError";
    names_rule ["pybind11::stop_iteration"] "StopIteration";
    names_rule ["pybind11::key_error"] "KeyError" ].

(** The rule of the scope operator,
      ( [\w<>\s]* [\w>] ) :: ( [\w<] [\w<>\s]* )   =>   \1.\2    *)
Definition scope_rule : rule :=
  {| rule_key := "([\w<>\s]*[\w>])::([\w<][\w<>\s]*)";
     rule_pattern :=
       seq [Group 1
              (Cat (Star (Cls (fun a => is_word a || one_of "<>" a
                                        || is_space a)))
                   (Cls (fun a => is_word a || one_of ">" a)));
            lit "::";
            Group 2
              (Cat (Cls (fun a => is_word a || one_of "<" a))
                   (Star (Cls (fun a => is_word a || one_of "<>" a
                                        || is_space a))))];
     rule_repl := [TGrp 1; TLit "."; TGrp 2] |}.

(** [d[key] = value]: an existing key keeps its place. *)
Fixpoint dict_set (d : dict) (r : rule) : dict :=
  match d with
  | [] => [r]
  | r0 :: d' =>
      if String.eqb (rule_key r0) (rule_key r) then r :: d'
      else r0 :: dict_set d' r
  end.

(** The state shared by all translators: the class attribute
    [DoxygenTranslator.type_substitutions], which [self.type_substitutions]
    denotes in every instance. *)
Record class_state : Type := { cls_type_substitutions : dict }.

Definition initial_class : class_state :=
  {| cls_type_substitutions := type_substitutions |}.

Record translator : Type := {
  section_types : list section_command;
  visual_commands : list visual }.

Record options : Type := {
  return_includes_type_tag : bool;
  translate_scope_operator : bool;
  hide_tparam : bool }.

Definition default_options : options :=
  {| return_includes_type_tag := false;
     translate_scope_operator := true;
     hide_tparam := true |}.

Definition make_section_types (o : options) : list section_command :=
  [ new_param;
    (if return_includes_type_tag o
     then new_section DoxygenLabeledSection "return" [] (Some "Returns")
            indent4 false false
     else new_section DoxygenSection "return" [] (Some "Returns")
            indent4 false false);
    new_untitled DoxygenUntitledSection "brief" ["short"] false;
    new_section DoxygenLabeledSection "tparam" []
      (Some "Type parameter (C++ only)") indent4 true (hide_tparam o);
    new_section DoxygenLabeledSection "retval" [] (Some "Returns")
      indent4 true false;
    new_section DoxygenLabeledSection "exception" ["throw"; "throws"]
      (Some "Raises") indent4 true false;
    new_untitled DoxygenUnsupportedUntitledSection "overload" [] false;
    new_section DoxygenSection "remark" ["note"] (Some "Notes")
      indent4 true false;
    new_section DoxygenSection "see" ["sa"] (Some "See also")
      indent4 true false;
    new_section DoxygenSection "author" ["authors"] None indent4 true false;
    new_section DoxygenSection "copyright" [] None indent4 true false;
    new_section DoxygenSection "date" [] None indent4 true false;
    new_section DoxygenSection "details" [] None indent4 true false;
    new_section DoxygenSection "extends" [] None indent4 true false;
    new_section DoxygenUnsupportedSection "ingroup" [] (Some "In Group")
      indent4 true false ].

Definition make_visual_commands : list visual :=
  [ new_visual DoxygenVisualEnhancement "a" ["e"; "em"]
      [TLit "*"; TGrp 1; TLit "*"];
    new_visual DoxygenVisualEnhancement "b" []
      [TLit "**"; TGrp 1; TLit "**"];
    new_visual DoxygenVisualEnhancement "c" []
      [TLit "``"; TGrp 1; TLit "``"];
    new_visual DoxygenHtmlCommand "b" [] [TLit "**"; TGrp 1; TLit "**"];
    new_visual DoxygenHtmlCommand "em" [] [TLit "*"; TGrp 1; TLit "*"];
    new_visual DoxygenHtmlCommand "tt" [] [TLit "``"; TGrp 1; TLit "``"];
    new_visual DoxygenUnsupportedVisualEnhancement "ref" []
      [TLit "\ref "; TGrp 1];
    new_visual DoxygenUnsupportedHtmlCommand "pre" []
      [TLit (nl ++ "```"); TGrp 1; TLit (nl ++ "```" ++ nl)];
    new_visual DoxygenUnsupportedHtmlCommand "li" []
      [TLit (nl ++ "- "); TGrp 1] ].

(** [DoxygenTranslator.__init__]: builds the instance and, when
    [translate_scope_operator] is set, stores the scope rule into
    [self.type_substitutions], that is, into the dictionary of the class. *)
Definition init (o : options) (cls : class_state) : translator * class_state :=
  ({| section_types := make_section_types o;
      visual_commands := make_visual_commands |},
   if translate_scope_operator o
   then {| cls_type_substitutions :=
             dict_set (cls_type_substitutions cls) scope_rule |}
   else cls).

(** *** [cpp2python] *)

Fixpoint substitute (d : dict) (text : string) : string :=
  match d with
  | [] => text
  | r :: d' => substitute d' (sub (rule_pattern r) (rule_repl r) text)
  end.

(** The pattern  ({T})<  with T the template names, replaced by  \1[  *)
Definition open_bracket : regex :=
  Cat (Group 1 (alts (map lit template_types))) (lit "<").

(** One round of the loop over [spans[:-1]]; the state is [depth] and
    [rebracketed_text]. *)
Definition rebracket_step (st : Z * string) (span : string) : Z * string :=
  let (depth, rebracketed_text) := st in
  let (span', delta_depth) := subn open_bracket [TGrp 1; TLit "["] span in
  let depth := (depth + Z.of_nat delta_depth)%Z in
  if (0 <? depth)%Z
  then ((depth - 1)%Z, rebracketed_text ++ span' ++ "]")
  else (depth, rebracketed_text ++ span' ++ ">").

Definition rebracket (text : string) : string :=
  let spans := str_split ">" text in
  let (_, rebracketed_text) :=
    fold_left rebracket_step (removelast spans) (0%Z, "") in
  rebracketed_text ++ last spans "".

Definition cpp2python (cls : class_state) (text : string) : string :=
  rebracket (substitute (cls_type_substitutions cls) text).

(** *** [translate] *)

(** The split pattern   \n+ (?: \n | (?= {sec_tag} ) )   *)
Definition split_regex (self : translator) : regex :=
  Cat (Plus newline)
      (Alt newline (Ahead (alts (map tag_regex (section_types self))))).

(** The loop over [self.section_types]; a section kind is identified by its
    place in the list ([!=] on the objects is identity).  The result is the
    section, the kind that matched if one did, and the warnings. *)
Fixpoint try_section_types (types : list section_command) (i : nat)
  (previous_section_type : option nat) (section : string)
  : string * option nat * warnings :=
  match types with
  | [] => (section, None, [])
  | section_type :: rest =>
      let include_title :=
        match previous_section_type with
        | Some j => negb (Nat.eqb i j)
        | None => true
        end in
      let '(section', section_type_matches, w) :=
        translate_n section_type section include_title in
      match section_type_matches with
      | O =>
          let '(r, w') :=
            try_section_types rest (S i) previous_section_type section' in
          (r, (w ++ w')%list)
      | S _ => (section', Some i, w)
      end
  end.

Fixpoint apply_visual_commands (cmds : list visual) (section : string)
  : string * warnings :=
  match cmds with
  | [] => (section, [])
  | visual_command :: rest =>
      let (section', w) := visual_translate visual_command section in
      let (r, w') := apply_visual_commands rest section' in
      (r, (w ++ w')%list)
  end.

(** The state of the loop over the sections. *)
Record loop_state : Type := {
  reformated : string;
  previous_section_type : option nat;
  emitted : warnings }.

(** The test  re.fullmatch(r'\s?', section)  *)
Definition blank_section (section : string) : bool :=
  match fullmatch (Opt space) section with
  | Some _ => true
  | None => false
  end.

(** The body of the loop up to the test for a blank section: the section
    after the section kinds and the visual commands have rewritten it, the
    kind that matched, and the warnings. *)
Definition rewrite_section (self : translator)
  (previous_section_type : option nat) (section : string)
  : string * option nat * warnings :=
  let '(section1, matched, w1) :=
    try_section_types (section_types self) 0 previous_section_type section in
  let section2 :=
    match matched with
    | Some _ => section1
    | None => nl ++ section1
    end in
  let (section3, w2) := apply_visual_commands (visual_commands self) section2 in
  (section3, matched, (w1 ++ w2)%list).

Definition translate_section (cls : class_state) (self : translator)
  (st : loop_state) (section : string) : loop_state :=
  let '(section3, matched, w) :=
    rewrite_section self (previous_section_type st) section in
  {| reformated :=
       if blank_section section3 then reformated st
       else reformated st ++ cpp2python cls section3 ++ nl;
     previous_section_type :=
       match matched with
       | Some i => Some i
       | None => previous_section_type st
       end;
     emitted := (emitted st ++ w)%list |}.

Definition translate_loop (cls : class_state) (self : translator)
  (sections : list string) : loop_state :=
  fold_left (translate_section cls self) sections
    {| reformated := ""; previous_section_type := None; emitted := [] |}.

(** [DoxygenTranslator.translate]: the translated text and the warnings
    raised on the way. *)
Definition translate (cls : class_state) (self : translator)
  (comment : string) : string * warnings :=
  let st := translate_loop cls self (split (split_regex self) comment) in
  (reformated st, emitted st).

End Translator.

(** ** Observations on texts, and the inputs the properties speak of *)

(** Whether [needle] occurs in [hay], and how often (at how many places). *)
Fixpoint occurs (needle hay : string) : bool :=
  String.prefix needle hay ||
  match hay with
  | EmptyString => false
  | String _ hay' => occurs needle hay'
  end.

Fixpoint occurrences (needle hay : string) : nat :=
  (if String.prefix needle hay then 1 else 0) +
  match hay with
  | EmptyString => 0
  | String _ hay' => occurrences needle hay'
  end.

Fixpoint all_chars (p : ascii -> bool) (s : string) : bool :=
  match s with
  | EmptyString => true
  | String a s' => p a && all_chars p s'
  end.

(** No character of [s] is in the class [p]. *)
Definition outside (p : ascii -> bool) (s : string) : bool :=
  all_chars (fun a => negb (p a)) s.

(** [s] is empty or starts with a character that is not in [p]. *)
Definition stops (p : ascii -> bool) (s : string) : bool :=
  match s with
  | EmptyString => true
  | String a _ => negb (p a)
  end.

(** A plain tag: ASCII letters, digits and underscores only.  Such a tag,
    formatted into a pattern, matches itself and nothing else, and
    [str.lower] and [str.upper] act on it as [lower] and [upper] do. *)
Definition is_tag_char (a : ascii) : bool :=
  between 48 57 a || between 65 90 a || between 97 122 a || (ord a =? 95)%N.

Definition plain_tag (t : string) : bool := all_chars is_tag_char t.

(** An indent that stands for itself in a replacement template and stays
    on its line: no backslash and no newline. *)
Definition literal_indent (indent : string) : bool :=
  outside (fun a => is_char "010" a || is_char "\" a) indent.

(** The lines of a text, and how many of them are the heading [title]. *)
Definition lines (s : string) : list string := str_split "010" s.

Definition heading_count (title text : string) : nat :=
  List.length (filter (String.eqb title) (lines text)).

Module Statements.
Import Re Doxygen Translator.

(** Calls of the constructor leave the class in one of two states: as the
    class body built it, or with the scope rule stored. *)
Definition scoped_class : class_state :=
  snd (init default_options initial_class).

(** A translator built with the default options. *)
Definition default_translator : translator :=
  fst (init default_options initial_class).

Definition brief_params_return : string :=
  "@brief Does a thing." ++ nl ++ "@param x the input" ++ nl ++
  "@param y the output" ++ nl ++ "@return the result".

Definition two_params : string :=
  "@param x the input" ++ nl ++ "@param y the output".

Definition start_state : loop_state :=
  {| reformated := ""; previous_section_type := None; emitted := [] |}.

(** The state of the bracket scan of [cpp2python] after [k] spans. *)
Definition rebracket_state (text : string) (k : nat) : Z * string :=
  fold_left rebracket_step (firstn k (removelast (str_split ">" text)))
            (0%Z, "").

Definition ingroup_warning : string :=
  "Unsupported Doxygen command detected: \ingroup or @ingroup".

(** How often the warning [w] was raised. *)
Definition count_warning (w : string) (ws : warnings) : nat :=
  List.length (filter (String.eqb w) ws).

(** Whether the text [s] begins with [t]; whether a section begins with the
    tag ingroup after one of the two markers. *)
Fixpoint begins_with (t s : string) : bool :=
  match t with
  | EmptyString => true
  | String a t' =>
      match s with
      | String b s' => Ascii.eqb b a && begins_with t' s'
      | EmptyString => false
      end
  end.

Definition begins_ingroup (section : string) : bool :=
  begins_with "@ingroup" section || begins_with "\ingroup" section.

(** A label is a word: not empty, without whitespace.  A body, as the
    sections of the properties have it, is on one line and does not start
    with whitespace (the pattern hands leading whitespace to the
    separator). *)
Definition is_label (l : string) : bool :=
  match l with
  | EmptyString => false
  | String _ _ => outside is_space l
  end.

Definition is_body (b : string) : bool :=
  stops is_space b && outside (is_char "010") b.

(** The rendering of a "@param" section, with or without the title. *)
Definition param_rendering (include_title : bool) (l b : string) : string :=
  (if include_title then nl ++ "Args:" ++ nl else "") ++
  "    " ++ l ++ ": " ++ b.

(** What [translate] does to a rewritten section that is not blank, before
    it appends it: the visual commands, then [cpp2python]. *)
Definition inline (cls : class_state) (self : translator) (s : string)
  : string :=
  cpp2python cls (fst (apply_visual_commands (visual_commands self) s)).

Definition is_html (cmd : visual) : bool :=
  match vis_class cmd with
  | DoxygenHtmlCommand | DoxygenUnsupportedHtmlCommand => true
  | _ => false
  end.

(** A format of an HTML command that writes no "<" of its own and refers
    to the interior (group 1) only. *)
Definition plain_format (fmt : template) : bool :=
  forallb (fun item =>
             match item with
             | TLit s => outside (is_char "<") s
             | TGrp g => Nat.eqb g 1
             end) fmt.

(** The rendering of a section that is a bare tag. *)
Definition bare_rendering (self : section_command) (include_title : bool)
  : string :=
  if sec_hidden self then ""
  else (if include_title then nl ++ title_line self else "") ++
       sec_indent self ++ (if is_labeled self then ": " else "").

(** The section kind for ingroup, as the constructor builds it. *)
Definition ingroup_kind : section_command :=
  new_section DoxygenUnsupportedSection "ingroup" [] (Some "In Group")
              indent4 true false.

(** Nested generics: the names, each followed by the bracket; and whether a
    name is one of [template_types]. *)
Fixpoint openings (bracket : string) (names : list string) : string :=
  match names with
  | [] => ""
  | t :: names' => t ++ bracket ++ openings bracket names'
  end.

Definition is_template (t : string) : bool :=
  existsb (String.eqb t) template_types.

End Statements.

(** ** Notions used in the proofs *)

Module Paths.
Import Re Doxygen.

(** A pattern that can only start at a character of the class [p]. *)
Definition starts_in (r : regex) (p : ascii -> bool) : Prop :=
  (forall a s n c k, p a = false -> rmatch r (String a s) n c k = None) /\
  (forall n c k, rmatch r "" n c k = None).

(** [run r x P f]: on a text [x ++ s] with [P s], the first path through
    [r] consumes [x] and updates the groups by [f]; when the continuation
    accepts there, that is the answer of the match. *)
Definition run (r : regex) (x : string) (P : string -> Prop)
  (f : caps -> caps) : Prop :=
  forall s n c k v,
    P s -> k s (String.length x + n) (f c) = Some v ->
    rmatch r (x ++ s) n c k = Some v.

(** [rmatch (Cls p)], named, so that the loop of a repetition of a class
    can be folded back. *)
Definition cls_step (p : ascii -> bool) (s : string) (n : nat) (c : caps)
  (k : cont) : answer :=
  match s with
  | String a s' => if p a then k s' (S n) c else None
  | EmptyString => None
  end.

Definition labeled_groups (label body : string) (c : caps) : caps :=
  (g_body, body) :: (g_label, label) :: c.

Definition is_suffix (s1 s : string) : Prop := exists p, s = p ++ s1.

End Paths.

(** ** Paragraphs and lines *)

Module Paragraphs.
Import Re Doxygen Translator.


(** A text without a marker and without an angle bracket that opens an HTML
    element: no command of the translator can start in it. *)
Definition plain (s : string) : bool := outside (one_of "\@<") s.

End Paragraphs.

(** ** The direction annotation of a parameter *)

Module Directions.

(** The items that the pattern of [ParamSection.tag_regex] repeats between
    the square brackets, and an annotation made of such items. *)
Definition is_direction_item (i : string) : bool :=
  existsb (String.eqb i) ["in"; "out"; ","].

Fixpoint join (items : list string) : string :=
  match items with
  | [] => ""
  | i :: items' => i ++ join items'
  end.

Definition direction (items : list string) : string :=
  "[" ++ join items ++ "]".

End Directions.

(** ** Texts with elements *)

Module Markup.

(** A text in which elements alternate with the text between them: each
    part is the text in front of an element and the interior of the
    element; [post] is the text behind the last element. *)
Fixpoint markup (element : string -> string) (parts : list (string * string))
  (post : string) : string :=
  match parts with
  | [] => post
  | (pre, x) :: parts' => pre ++ element x ++ markup element parts' post
  end.

Definition html_element (t x : string) : string :=
  "<" ++ t ++ ">" ++ x ++ "</" ++ t ++ ">".

Definition no_angle (parts : list (string * string)) (post : string) : bool :=
  forallb (fun part => outside (is_char "<") (fst part) &&
                       outside (is_char "<") (snd part)) parts &&
  outside (is_char "<") post.

End Markup.

(** ** Names *)

Module Names.
Import Re Translator.

(** A name: one or more word characters. *)
Definition is_name (a : string) : bool :=
  match a with
  | EmptyString => false
  | String _ _ => all_chars is_word a
  end.

(** [re.sub] with the rule of the scope operator, as [cpp2python] applies
    it when the rule is in the dictionary. *)
Definition sub_scope (text : string) : string :=
  sub (rule_pattern scope_rule) (rule_repl scope_rule) text.

End Names.

(** ** Constructions and warnings *)

Module Protocol.
Import Doxygen Translator Statements.

(** The state of the class after translators have been constructed with
    the given options, one after the other. *)
Definition construct_all (os : list options) (cls : class_state)
  : class_state :=
  fold_left (fun cls o => snd (init o cls)) os cls.

(** The messages that the translator can warn with: one for each tag of an
    unsupported command. *)
Definition unsupported_messages : list string :=
  map unsupported_message ["overload"; "ingroup"; "ref"; "pre"; "li"].

(** A text that [translate] can return: empty, or ended by a newline. *)
Definition newline_terminated (s : string) : Prop :=
  s = "" \/ exists p, s = p ++ nl.

End Protocol.

(** ** The format of a warning ([warning_on_one_line]) *)

Module Formatting.

(** [str] of a line number. *)
Definition decimal (n : nat) : string :=
  NilEmpty.string_of_uint (Nat.to_uint n).

(** [warning_on_one_line]: the message and the file name as texts, the
    category by its name; the arguments [file] and [line] are not used. *)
Definition warning_on_one_line (message category filename : string)
  (lineno : nat) : string :=
  " " ++ filename ++ ":" ++ decimal lineno ++ ": " ++ category ++ ":" ++
  message ++ nl.

End Formatting.

(** ** The visual enhancements of a word *)

Module Words.
Import Re Doxygen.

(** The command for emphasis, as the constructor builds it. *)
Definition emphasis : visual :=
  new_visual DoxygenVisualEnhancement "a" ["e"; "em"]
    [TLit "*"; TGrp 1; TLit "*"].

(** [s] is empty or starts with whitespace: a word ends in front of it. *)
Definition ends_word (s : string) : bool :=
  stops (fun a => negb (is_space a)) s.

(** A format that refers to no group but the whole match and the word,
    the groups that the pattern of a visual enhancement has. *)
Definition word_format (fmt : template) : bool :=
  forallb (fun item =>
             match item with
             | TLit _ => true
             | TGrp g => Nat.leb g 1
             end) fmt.

End Words.

(** * Properties *)

Import Re Doxygen Translator Statements Paths.

(** ** Texts *)

Lemma append_assoc (a b c : string) : (a ++ b) ++ c = a ++ (b ++ c).
Proof. induction a as [|x a IH]; simpl; [reflexivity | now rewrite IH]. Qed.

Lemma append_nil_r (a : string) : a ++ "" = a.
Proof. induction a as [|x a IH]; simpl; [reflexivity | now rewrite IH]. Qed.

Lemma length_append (a b : string) :
  String.length (a ++ b) = String.length a + String.length b.
Proof. induction a as [|x a IH]; simpl; [reflexivity | now rewrite IH]. Qed.

Lemma take_append (a b : string) : take (String.length a) (a ++ b) = a.
Proof.
  induction a as [|x a IH]; simpl; [destruct b; reflexivity | now rewrite IH].
Qed.

Lemma take_all x : take (String.length x) x = x.
Proof. rewrite <- (append_nil_r x) at 2. apply take_append. Qed.

Lemma outside_append p x y : outside p (x ++ y) = outside p x && outside p y.
Proof.
  unfold outside. induction x as [|a x IH]; simpl; [reflexivity|].
  rewrite IH. apply andb_assoc.
Qed.

Lemma outside_weaken (p q : ascii -> bool) x :
  (forall a, q a = true -> p a = true) ->
  outside p x = true -> outside q x = true.
Proof.
  intros Hqp. unfold outside. induction x as [|a x IH]; simpl; [reflexivity|].
  intros H. apply andb_prop in H. destruct H as [Ha Hx].
  rewrite IH by assumption. rewrite andb_true_r.
  apply negb_true_iff in Ha. apply negb_true_iff.
  destruct (q a) eqn:E; [|reflexivity]. rewrite (Hqp a E) in Ha. discriminate.
Qed.

Lemma newline_is_space a : is_char "010" a = true -> is_space a = true.
Proof.
  unfold is_char. intros H. apply Ascii.eqb_eq in H. subst a. reflexivity.
Qed.

Lemma outside_space_newline x :
  outside is_space x = true -> outside (is_char "010") x = true.
Proof. apply outside_weaken. exact newline_is_space. Qed.

Lemma all_chars_any s :
  all_chars (fun a => is_word a || negb (is_word a)) s = true.
Proof.
  induction s as [|a s IH]; simpl; [reflexivity|].
  rewrite IH. destruct (is_word a); reflexivity.
Qed.

Lemma str_split_line sep x s :
  outside (is_char sep) x = true ->
  str_split sep (x ++ String sep s) = x :: str_split sep s.
Proof.
  unfold outside, is_char. induction x as [|a x IH]; intros Hx; simpl.
  - now rewrite Ascii.eqb_refl.
  - simpl in Hx. apply andb_prop in Hx. destruct Hx as [Ha Hx].
    apply negb_true_iff in Ha. rewrite Ha, (IH Hx). reflexivity.
Qed.

(** ** The matcher *)

(** A literal pattern consumes exactly its text. *)
Lemma rmatch_lit t : forall s n c k,
  rmatch (lit t) (t ++ s) n c k = k s (String.length t + n) c.
Proof.
  induction t as [|a t IH]; intros s n c k; simpl.
  - reflexivity.
  - unfold is_char. rewrite Ascii.eqb_refl. rewrite IH.
    f_equal. lia.
Qed.

Lemma starts_in_cls p : starts_in (Cls p) p.
Proof. split; intros; simpl; [rewrite H|]; reflexivity. Qed.

Lemma starts_in_cat r1 r2 p : starts_in r1 p -> starts_in (Cat r1 r2) p.
Proof.
  intros [H1 H2]. split; intros; simpl; [apply H1; assumption | apply H2].
Qed.

Lemma starts_in_weaken r (p q : ascii -> bool) :
  (forall a, q a = false -> p a = false) -> starts_in r p -> starts_in r q.
Proof.
  intros Hpq [H1 H2]. split; intros; [apply H1, Hpq; assumption | apply H2].
Qed.

Lemma starts_in_lit a t : starts_in (lit (String a t)) (is_char a).
Proof. simpl. apply starts_in_cat, starts_in_cls. Qed.

Lemma starts_in_fails r p s n c k :
  starts_in r p -> stops p s = true -> rmatch r s n c k = None.
Proof.
  intros [H1 H2] Hs. destruct s as [|a s]; [apply H2|].
  apply H1. simpl in Hs. now apply negb_true_iff in Hs.
Qed.

(** The greedy repetition of a class runs to the end of the characters of
    the class when the continuation accepts there. *)
Lemma star_cls_run p k x : forall rest fuel n c v,
  all_chars p x = true -> stops p rest = true ->
  String.length x < fuel ->
  k rest (String.length x + n) c = Some v ->
  star_iter (cls_step p) k fuel (x ++ rest) n c = Some v.
Proof.
  induction x as [|a x IH]; intros rest fuel n c v Hx Hrest Hfuel Hk.
  - simpl in *. destruct fuel as [|fuel]; [lia|]. simpl.
    destruct rest as [|b rest]; simpl.
    + exact Hk.
    + simpl in Hrest. apply negb_true_iff in Hrest. rewrite Hrest. exact Hk.
  - destruct fuel as [|fuel]; [simpl in Hfuel; lia|].
    simpl in Hx. apply andb_prop in Hx. destruct Hx as [Ha Hx].
    simpl. rewrite Ha.
    assert (E : Nat.ltb n (S n) = true) by (apply Nat.ltb_lt; lia).
    rewrite E. rewrite (IH rest fuel (S n) c v); auto.
    + simpl in Hfuel. lia.
    + rewrite <- Hk. f_equal. simpl. lia.
Qed.

Lemma rmatch_star_cls p k x rest n c v :
  all_chars p x = true -> stops p rest = true ->
  k rest (String.length x + n) c = Some v ->
  rmatch (Star (Cls p)) (x ++ rest) n c k = Some v.
Proof.
  intros.
  change (star_iter (cls_step p) k (S (String.length (x ++ rest)))
                    (x ++ rest) n c = Some v).
  apply star_cls_run; auto. rewrite length_append. lia.
Qed.

(** The lazy repetition of any character, in front of a continuation that
    refuses every text starting outside [p], runs over a text outside [p]. *)
Lemma lazy_any_run (p : ascii -> bool) k x : forall rest fuel n c v,
  (forall a s n c, p a = false -> k (String a s) n c = None) ->
  outside p x = true ->
  String.length x <= fuel ->
  k rest (String.length x + n) c = Some v ->
  lazy_iter (cls_step (fun a => is_word a || negb (is_word a))) k fuel
            (x ++ rest) n c = Some v.
Proof.
  induction x as [|a x IH]; intros rest fuel n c v Hk Hx Hfuel Hv.
  - simpl in *. destruct fuel; simpl; [exact Hv | now rewrite Hv].
  - destruct fuel as [|fuel]; [simpl in Hfuel; lia|].
    cbn [outside all_chars] in Hx. apply andb_prop in Hx.
    destruct Hx as [Ha Hx]. apply negb_true_iff in Ha.
    cbn [lazy_iter append]. rewrite (Hk a _ n c Ha). cbn [orelse cls_step].
    replace (is_word a || negb (is_word a)) with true
      by (destruct (is_word a); reflexivity).
    assert (E : Nat.ltb n (S n) = true) by (apply Nat.ltb_lt; lia).
    rewrite E. apply IH; auto.
    + simpl in Hfuel. lia.
    + rewrite <- Hv. f_equal. simpl. lia.
Qed.

(** *** Suffixes *)

Lemma is_suffix_refl s : is_suffix s s.
Proof. exists "". reflexivity. Qed.

Lemma is_suffix_trans s1 s2 s3 : is_suffix s1 s2 -> is_suffix s2 s3 -> is_suffix s1 s3.
Proof. intros [p ->] [q ->]. exists (q ++ p). now rewrite append_assoc. Qed.

Lemma is_suffix_tail a s : is_suffix s (String a s).
Proof. exists (String a ""). reflexivity. Qed.

Lemma star_iter_suffix_fail body k :
  (forall s n c k', (forall s1 n1 c1, is_suffix s1 s -> k' s1 n1 c1 = None) -> body s n c k' = None) ->
  forall fuel s n c,
    (forall s1 n1 c1, is_suffix s1 s -> k s1 n1 c1 = None) ->
    star_iter body k fuel s n c = None.
Proof.
  intros Hbody. induction fuel as [|fuel IH]; intros s n c Hk; cbn [star_iter].
  - apply Hk, is_suffix_refl.
  - rewrite Hbody.
    + cbn [orelse]. apply Hk, is_suffix_refl.
    + intros s1 n1 c1 Hs. destruct (Nat.ltb n n1); [|reflexivity].
      apply IH. intros s2 n2 c2 Hs2. apply Hk. eapply is_suffix_trans; eassumption.
Qed.

Lemma lazy_iter_suffix_fail body k :
  (forall s n c k', (forall s1 n1 c1, is_suffix s1 s -> k' s1 n1 c1 = None) -> body s n c k' = None) ->
  forall fuel s n c,
    (forall s1 n1 c1, is_suffix s1 s -> k s1 n1 c1 = None) ->
    lazy_iter body k fuel s n c = None.
Proof.
  intros Hbody. induction fuel as [|fuel IH]; intros s n c Hk; cbn [lazy_iter].
  - apply Hk, is_suffix_refl.
  - rewrite (Hk s n c (is_suffix_refl s)). cbn [orelse]. apply Hbody.
    intros s1 n1 c1 Hs. destruct (Nat.ltb n n1); [|reflexivity].
    apply IH. intros s2 n2 c2 Hs2. apply Hk. eapply is_suffix_trans; eassumption.
Qed.

(** A match hands on only suffixes of its text: when the continuation
    refuses them all, the match fails. *)
Lemma rmatch_suffix_fail r : forall s n c k,
  (forall s1 n1 c1, is_suffix s1 s -> k s1 n1 c1 = None) ->
  rmatch r s n c k = None.
Proof.
  induction r as [|p|r1 IH1 r2 IH2|r1 IH1 r2 IH2|r1 IH1|r1 IH1|r1 IH1|g r1 IH1|r1 IH1];
    intros s n c k Hk; cbn [rmatch].
  - apply Hk, is_suffix_refl.
  - destruct s as [|a s]; [reflexivity|]. destruct (p a); [|reflexivity].
    apply Hk, is_suffix_tail.
  - apply IH1. intros s1 n1 c1 Hs. apply IH2. intros s2 n2 c2 Hs2.
    apply Hk. eapply is_suffix_trans; eassumption.
  - rewrite IH1, IH2 by assumption. reflexivity.
  - rewrite IH1 by assumption. cbn [orelse]. apply Hk, is_suffix_refl.
  - apply star_iter_suffix_fail; [exact IH1 | exact Hk].
  - apply lazy_iter_suffix_fail; [exact IH1 | exact Hk].
  - apply IH1. intros s1 n1 c1 Hs. apply Hk. exact Hs.
  - destruct (rmatch r1 s n c _) as [[n1 c1]|]; [|reflexivity].
    apply Hk, is_suffix_refl.
Qed.

Lemma outside_suffix p s1 s : is_suffix s1 s -> outside p s = true -> outside p s1 = true.
Proof.
  intros [q ->]. rewrite outside_append. intros H. apply andb_prop in H. apply H.
Qed.

(** *** First paths *)

Lemma run_weaken r x (P Q : string -> Prop) f :
  (forall s, Q s -> P s) -> run r x P f -> run r x Q f.
Proof. intros HPQ H s n c k v Hs. apply H. apply HPQ. exact Hs. Qed.

Lemma run_cls p a : p a = true ->
  run (Cls p) (String a "") (fun _ => True) (fun c => c).
Proof. intros Ha s n c k v _ Hk. simpl. rewrite Ha. exact Hk. Qed.

Lemma run_lit t : run (lit t) t (fun _ => True) (fun c => c).
Proof. intros s n c k v _ Hk. rewrite rmatch_lit. exact Hk. Qed.

Lemma run_cat r1 r2 x1 x2 (P1 P2 : string -> Prop) f1 f2 :
  run r1 x1 P1 f1 -> run r2 x2 P2 f2 ->
  run (Cat r1 r2) (x1 ++ x2) (fun s => P1 (x2 ++ s) /\ P2 s)
      (fun c => f2 (f1 c)).
Proof.
  intros H1 H2 s n c k v [Hs1 Hs2] Hk. simpl. rewrite append_assoc.
  apply H1; [exact Hs1|]. apply H2; [exact Hs2|].
  rewrite <- Hk. f_equal. rewrite length_append. lia.
Qed.

Lemma run_star_cls p x : all_chars p x = true ->
  run (Star (Cls p)) x (fun s => stops p s = true) (fun c => c).
Proof. intros Hx s n c k v Hs Hk. apply rmatch_star_cls; assumption. Qed.

Lemma run_plus_cls p a x : p a = true -> all_chars p x = true ->
  run (Plus (Cls p)) (String a x) (fun s => stops p s = true) (fun c => c).
Proof.
  intros Ha Hx.
  apply (run_weaken _ _ (fun s => True /\ stops p s = true)); [auto|].
  exact (run_cat _ _ _ _ _ _ _ _ (run_cls p a Ha) (run_star_cls p x Hx)).
Qed.

Lemma run_opt r x P f : run r x P f -> run (Opt r) x P f.
Proof.
  intros H s n c k v Hs Hk. simpl. rewrite (H s n c k v Hs Hk). reflexivity.
Qed.

Lemma run_opt_skip r p : starts_in r p ->
  run (Opt r) "" (fun s => stops p s = true) (fun c => c).
Proof.
  intros H s n c k v Hs Hk. simpl.
  rewrite (starts_in_fails r p s n c k H Hs). exact Hk.
Qed.

Lemma run_alt_l r1 r2 x P f : run r1 x P f -> run (Alt r1 r2) x P f.
Proof.
  intros H s n c k v Hs Hk. simpl. rewrite (H s n c k v Hs Hk). reflexivity.
Qed.

Lemma run_alt_r r1 r2 p x P f :
  starts_in r1 p -> run r2 x P f ->
  run (Alt r1 r2) x (fun s => stops p (x ++ s) = true /\ P s) f.
Proof.
  intros H1 H2 s n c k v [Hs1 Hs2] Hk. simpl.
  rewrite (starts_in_fails r1 p _ n c k H1 Hs1). simpl.
  apply H2; assumption.
Qed.

Lemma run_alts_head r rs x P f : run r x P f -> run (alts (r :: rs)) x P f.
Proof. intros H. destruct rs; [exact H|]. apply run_alt_l. exact H. Qed.

Lemma run_group g r x P f : run r x P f ->
  run (Group g r) x P (fun c => (g, x) :: f c).
Proof.
  intros H s n c k v Hs Hk. simpl. apply H; [exact Hs|].
  replace (String.length x + n - n) with (String.length x) by lia.
  rewrite take_append. exact Hk.
Qed.

Lemma run_ahead r y Q g :
  run r y Q g ->
  run (Ahead r) "" (fun s => exists s', s = y ++ s' /\ Q s') g.
Proof.
  intros H s n c k v [s' [-> Hs']] Hk. simpl.
  rewrite (H s' n c (fun _ n1 c1 => Some (n1, c1))
             (String.length y + n, g c) Hs' eq_refl).
  exact Hk.
Qed.

Lemma run_lazy_until g a close x :
  outside (is_char a) x = true ->
  run (Cat (Group g (LazyStar anychar)) (lit (String a close)))
      (x ++ String a close) (fun _ => True) (fun c => (g, x) :: c).
Proof.
  intros Hx s n c k v _ Hv.
  change (lazy_iter (cls_step (fun a => is_word a || negb (is_word a)))
            (fun s1 n1 c1 =>
               rmatch (lit (String a close)) s1 n1
                      ((g, take (n1 - n) ((x ++ String a close) ++ s)) :: c1) k)
            (S (String.length ((x ++ String a close) ++ s)))
            ((x ++ String a close) ++ s) n c = Some v).
  rewrite append_assoc.
  apply (lazy_any_run (is_char a)).
  - intros b s' n' c' Hb. apply (starts_in_lit a close); exact Hb.
  - exact Hx.
  - rewrite length_append. lia.
  - rewrite rmatch_lit.
    replace (String.length x + n - n) with (String.length x) by lia.
    rewrite take_append. rewrite <- Hv. f_equal. rewrite length_append. lia.
Qed.

Lemma run_match_at_rest r x P f s :
  run r x P f -> P s ->
  match_at r false false (x ++ s) = Some (String.length x, (0, x) :: f []).
Proof.
  intros H Hs. unfold match_at. apply H; [exact Hs|].
  rewrite Nat.add_0_r, take_append. reflexivity.
Qed.

Lemma run_re_match r x f :
  run r x (fun s => s = "") f -> re_match r x = Some ((0, x) :: f []).
Proof.
  intros H. unfold re_match.
  pose proof (run_match_at_rest r x _ f "" H eq_refl) as E.
  rewrite append_nil_r in E. rewrite E. reflexivity.
Qed.

(** ** The scan of [re.sub], [re.subn] and [re.split] *)

Lemma scan_miss r a s :
  match_at r false false (String a s) = None ->
  scan r 0 (String a s) = Ch a :: scan r 0 s.
Proof. intros H. simpl. rewrite H. reflexivity. Qed.

Lemma scan_skip r x : forall s, scan r (String.length x) (x ++ s) = scan r 0 s.
Proof.
  induction x as [|a x IH]; intros s; simpl.
  - destruct s; reflexivity.
  - apply IH.
Qed.

Lemma scan_hit r a x s c :
  match_at r false false (String a x ++ s) = Some (S (String.length x), c) ->
  scan r 0 (String a x ++ s) = Hit c :: scan r 0 s.
Proof. intros H. simpl in *. rewrite H. now rewrite scan_skip. Qed.

Lemma scan_hit_text r x s c :
  x <> "" ->
  match_at r false false (x ++ s) = Some (String.length x, c) ->
  scan r 0 (x ++ s) = Hit c :: scan r 0 s.
Proof.
  destruct x as [|a x]; [congruence|]. intros _. apply scan_hit.
Qed.

Lemma scan_outside r p x : starts_in r p -> outside p x = true ->
  forall s,
    scan r 0 (x ++ s) = (map Ch (list_ascii_of_string x) ++ scan r 0 s)%list.
Proof.
  intros [H1 H2]. induction x as [|a x IH]; intros Hx s; simpl.
  - reflexivity.
  - simpl in Hx. apply andb_prop in Hx. destruct Hx as [Ha Hx].
    apply negb_true_iff in Ha.
    unfold match_at. rewrite H1 by assumption. rewrite IH by assumption.
    reflexivity.
Qed.

Lemma scan_empty r p : starts_in r p -> scan r 0 "" = [].
Proof. intros [H1 H2]. simpl. unfold match_at. rewrite H2. reflexivity. Qed.

Lemma scan_all_outside r p x :
  starts_in r p -> outside p x = true ->
  scan r 0 x = map Ch (list_ascii_of_string x).
Proof.
  intros Hr Hx. rewrite <- (append_nil_r x) at 1.
  rewrite (scan_outside r p x Hr Hx), (scan_empty r p Hr).
  apply app_nil_r.
Qed.

Lemma replace_chars t x l :
  replace t (map Ch (list_ascii_of_string x) ++ l) = x ++ replace t l.
Proof. induction x as [|a x IH]; simpl; [reflexivity | now rewrite IH]. Qed.

Lemma hits_chars x l : hits (map Ch (list_ascii_of_string x) ++ l) = hits l.
Proof. induction x as [|a x IH]; simpl; [reflexivity | exact IH]. Qed.

Lemma pieces_cons l : pieces l = hd "" (pieces l) :: tl (pieces l).
Proof.
  destruct l as [|[a|c] l]; simpl; try reflexivity.
  destruct (pieces l); reflexivity.
Qed.

Lemma pieces_chars x l :
  pieces (map Ch (list_ascii_of_string x) ++ l) =
  (x ++ hd "" (pieces l)) :: tl (pieces l).
Proof.
  induction x as [|a x IH]; simpl.
  - apply pieces_cons.
  - rewrite IH. reflexivity.
Qed.

Lemma pieces_all_chars x : pieces (map Ch (list_ascii_of_string x)) = [x].
Proof.
  rewrite <- (app_nil_r (map Ch (list_ascii_of_string x))).
  rewrite pieces_chars. simpl. now rewrite append_nil_r.
Qed.

(** A substitution leaves a text alone in which its pattern cannot start,
    and passes over a first character at which it cannot start. *)
Lemma sub_outside r p t x :
  starts_in r p -> outside p x = true -> subn r t x = (x, 0).
Proof.
  intros Hr Hx. unfold subn. rewrite (scan_all_outside r p x Hr Hx).
  rewrite <- (app_nil_r (map Ch _)).
  rewrite replace_chars, hits_chars. simpl. now rewrite append_nil_r.
Qed.

Lemma subn_head r p t a s :
  starts_in r p -> p a = false ->
  subn r t (String a s) = (String a (fst (subn r t s)), snd (subn r t s)).
Proof.
  intros [H1 H2] Ha. unfold subn. simpl. unfold match_at.
  rewrite H1 by assumption. reflexivity.
Qed.


(** ** The commands *)

(** Every pattern of a visual command starts at a marker or at "<". *)
Lemma starts_in_visual self :
  starts_in (visual_before_regex self) (one_of "\@<").
Proof.
  unfold visual_before_regex, command_tag_regex. cbn [seq].
  apply starts_in_cat, starts_in_cat.
  apply (starts_in_weaken _ (one_of "\@")); [|apply starts_in_cls].
  intros a. unfold one_of. simpl. rewrite !orb_false_r.
  intros H. apply orb_false_iff in H. destruct H as [H H'].
  apply orb_false_iff in H'. destruct H' as [H' _]. now rewrite H, H'.
Qed.

Lemma starts_in_html_open tag_name :
  starts_in (html_before_regex tag_name) (is_char "<").
Proof.
  unfold html_before_regex. cbn [seq]. apply starts_in_cat.
  apply starts_in_lit.
Qed.

Lemma starts_in_html tag_name :
  starts_in (html_before_regex tag_name) (one_of "\@<").
Proof.
  apply (starts_in_weaken _ (is_char "<")); [|apply starts_in_html_open].
  intros a. unfold one_of, is_char. simpl. rewrite !orb_false_r.
  intros H. apply orb_false_iff in H. destruct H as [_ H].
  apply orb_false_iff in H. destruct H as [_ H]. exact H.
Qed.

Lemma html_loop_head fmt a : one_of "\@<" a = false ->
  forall names s count,
    html_loop fmt names (String a s) count =
    (String a (fst (html_loop fmt names s count)),
     snd (html_loop fmt names s count)).
Proof.
  intros Ha. induction names as [|name names IH]; intros s count;
    cbn [html_loop].
  - reflexivity.
  - rewrite (subn_head _ _ fmt a s (starts_in_html name) Ha).
    destruct (subn (html_before_regex name) fmt s) as [s' d]. cbn [fst snd].
    apply IH.
Qed.

(** The visual commands pass over a first character that is neither a
    marker nor "<". *)
Lemma visual_translate_head cmd a s : one_of "\@<" a = false ->
  fst (visual_translate cmd (String a s)) =
  String a (fst (visual_translate cmd s)).
Proof.
  intros Ha.
  unfold visual_translate, visual_translate_n, html_translate_n,
    warn_if_present.
  destruct (vis_class cmd);
    rewrite ?(subn_head _ _ (vis_format cmd) a s (starts_in_visual cmd) Ha),
            ?(html_loop_head (vis_format cmd) a Ha);
    reflexivity.
Qed.

Lemma apply_visual_commands_head a : one_of "\@<" a = false ->
  forall cmds s,
    fst (apply_visual_commands cmds (String a s)) =
    String a (fst (apply_visual_commands cmds s)).
Proof.
  intros Ha. induction cmds as [|cmd cmds IH]; intros s; simpl.
  - reflexivity.
  - pose proof (visual_translate_head cmd a s Ha) as H.
    destruct (visual_translate cmd (String a s)) as [s1 w1].
    destruct (visual_translate cmd s) as [s2 w2]. simpl in H. subst s1.
    specialize (IH s2).
    destruct (apply_visual_commands cmds (String a s2)) as [r1 w1'].
    destruct (apply_visual_commands cmds s2) as [r2 w2']. simpl in *.
    exact IH.
Qed.

(** An element whose interior has no "<" is matched as a whole by the
    pattern of its tag. *)
Lemma html_run t x :
  outside (is_char "<") x = true ->
  run (html_before_regex t) ("<" ++ t ++ ">" ++ x ++ "</" ++ t ++ ">")
      (fun _ => True) (fun c => (1, x) :: c).
Proof.
  intros Hx.
  pose proof (run_cat _ _ _ _ _ _ _ _ (run_lit ("<" ++ t ++ ">"))
                (run_lazy_until 1 "<" ("/" ++ t ++ ">") x Hx)) as H.
  rewrite append_assoc in H. cbn [append] in H. rewrite append_assoc in H.
  revert H. apply run_weaken. auto.
Qed.

Lemma html_subn_one t fmt x :
  outside (is_char "<") x = true ->
  subn (html_before_regex t) fmt ("<" ++ t ++ ">" ++ x ++ "</" ++ t ++ ">") =
  (expand fmt [(0, "<" ++ t ++ ">" ++ x ++ "</" ++ t ++ ">"); (1, x)], 1).
Proof.
  intros Hx. unfold subn.
  pose proof (run_match_at_rest _ _ _ _ "" (html_run t x Hx) I) as E.
  cbn [append] in E. cbn [append].
  set (rest := t ++ ">" ++ x ++ "</" ++ t ++ ">") in *.
  cbn [String.length] in E.
  apply scan_hit in E. rewrite append_nil_r in E. rewrite E.
  rewrite (scan_empty _ _ (starts_in_html t)).
  cbn [replace hits]. now rewrite append_nil_r.
Qed.

(** A pass for the tag [t] over an element written with another tag [u]:
    when [t] matches neither at the opening nor at the closing tag, the
    text is left as it is. *)
Lemma html_subn_other t u fmt x :
  outside (is_char "<") x = true ->
  outside (is_char "<") (u ++ ">") = true ->
  match_at (html_before_regex t) false false
           ("<" ++ u ++ ">" ++ x ++ "</" ++ u ++ ">") = None ->
  match_at (html_before_regex t) false false ("</" ++ u ++ ">") = None ->
  subn (html_before_regex t) fmt ("<" ++ u ++ ">" ++ x ++ "</" ++ u ++ ">") =
  ("<" ++ u ++ ">" ++ x ++ "</" ++ u ++ ">", 0).
Proof.
  intros Hx Hu H0 H1. unfold subn.
  assert (E : scan (html_before_regex t) 0
                   ("<" ++ u ++ ">" ++ x ++ "</" ++ u ++ ">") =
              map Ch (list_ascii_of_string
                        ("<" ++ u ++ ">" ++ x ++ "</" ++ u ++ ">"))).
  { cbn [append] in *. rewrite (scan_miss _ _ _ H0).
    cbn [list_ascii_of_string map]. f_equal.
    replace (u ++ String ">" (x ++ String "<" (String "/" (u ++ ">"))))
      with (((u ++ ">") ++ x) ++ String "<" (String "/" (u ++ ">")))
      by (rewrite !append_assoc; reflexivity).
    rewrite (scan_outside _ _ _ (starts_in_html_open t))
      by (rewrite outside_append, Hu, Hx; reflexivity).
    rewrite (scan_miss _ _ _ H1).
    rewrite (scan_all_outside _ _ _ (starts_in_html_open t))
      by (change (outside (is_char "<") ("/" ++ (u ++ ">")) = true);
          rewrite outside_append, Hu; reflexivity).
    clear. induction ((u ++ ">") ++ x) as [|a y IH];
      cbn [append list_ascii_of_string map app].
    - reflexivity.
    - f_equal. exact IH. }
  rewrite E. rewrite <- (app_nil_r (map Ch _)).
  rewrite replace_chars, hits_chars. simpl. now rewrite append_nil_r.
Qed.

Lemma expand_plain_format fmt whole x :
  plain_format fmt = true ->
  expand fmt [(0, whole); (1, x)] = expand fmt [(1, x)].
Proof.
  induction fmt as [|[s|g] fmt IH]; intros H; cbn [expand].
  - reflexivity.
  - cbn [plain_format forallb] in H. apply andb_prop in H.
    rewrite (IH (proj2 H)). reflexivity.
  - cbn [plain_format forallb] in H. apply andb_prop in H. destruct H as [Hg H].
    apply Nat.eqb_eq in Hg. subst g. cbn [group Nat.eqb].
    rewrite (IH H). reflexivity.
Qed.

Lemma expand_outside fmt x :
  plain_format fmt = true -> outside (is_char "<") x = true ->
  outside (is_char "<") (expand fmt [(1, x)]) = true.
Proof.
  intros H Hx. induction fmt as [|[s|g] fmt IH]; cbn [expand].
  - reflexivity.
  - cbn [plain_format forallb] in H. apply andb_prop in H. destruct H as [Hs H].
    rewrite outside_append, Hs, (IH H). reflexivity.
  - cbn [plain_format forallb] in H. apply andb_prop in H. destruct H as [Hg H].
    apply Nat.eqb_eq in Hg. subst g. cbn [group Nat.eqb].
    rewrite outside_append, Hx, (IH H). reflexivity.
Qed.

(** Every HTML command rewrites an element written with its tag in lower
    case. *)
Lemma html_lower_variant cmd x :
  is_html cmd = true ->
  vis_synonyms cmd = [vis_tag cmd] ->
  plain_format (vis_format cmd) = true ->
  outside (is_char "<") x = true ->
  let v := lower (vis_tag cmd) in
  html_translate_n cmd ("<" ++ v ++ ">" ++ x ++ "</" ++ v ++ ">") =
  (expand (vis_format cmd) [(1, x)], 1).
Proof.
  intros _ Hsyn Hfmt Hx v. unfold html_translate_n. rewrite Hsyn.
  cbn [map app html_loop]. fold v.
  rewrite (html_subn_one v _ _ Hx).
  rewrite (expand_plain_format _ _ _ Hfmt).
  rewrite (sub_outside _ _ _ _ (starts_in_html_open (upper (vis_tag cmd)))
             (expand_outside _ _ Hfmt Hx)).
  reflexivity.
Qed.

(** ** Sections *)

Lemma starts_in_split self : starts_in (split_regex self) (is_char "010").
Proof.
  unfold split_regex, Plus. apply starts_in_cat, starts_in_cat, starts_in_cls.
Qed.

Lemma starts_in_next_line :
  starts_in (Cat newline (Star space)) (is_char "010").
Proof. apply starts_in_cat, starts_in_cls. Qed.

Lemma param_tag_run :
  run (tag_regex new_param) "@param"
      (fun s => stops (is_char "[") s = true) (fun c => c).
Proof.
  pose proof
    (run_cat _ _ _ _ _ _ _ _
       (run_cls (one_of "\@") "@" eq_refl)
       (run_cat _ _ _ _ _ _ _ _
          (run_lit "param")
          (run_opt_skip
             (seq [lit "["; Star (alts [lit "in"; lit "out"; lit ","]);
                   lit "]"])
             (is_char "[") (starts_in_cat _ _ _ (starts_in_lit "[" ""))))) as H.
  revert H. apply run_weaken. intros s Hs. cbn beta. auto.
Qed.

(** The label and the body of a labeled section. *)
Lemma labeled_tail_run a l b :
  is_space a = false -> outside is_space l = true ->
  stops is_space b = true ->
  run (Cat (Opt (Cat (Plus space) (Group g_label (Plus nonspace))))
           (Opt (Cat (Plus space) (Group g_body (Star anychar)))))
      (" " ++ String a l ++ " " ++ b) (fun s => s = "")
      (labeled_groups (String a l) b).
Proof.
  intros Ha Hl Hb.
  assert (Ha' : negb (is_space a) = true) by now rewrite Ha.
  pose proof
    (run_cat _ _ _ _ _ _ _ _
       (run_opt _ _ _ _
          (run_cat _ _ _ _ _ _ _ _
             (run_plus_cls is_space " " "" eq_refl eq_refl)
             (run_group g_label _ _ _ _
                (run_plus_cls (fun a => negb (is_space a)) a l Ha' Hl))))
       (run_opt _ _ _ _
          (run_cat _ _ _ _ _ _ _ _
             (run_plus_cls is_space " " "" eq_refl eq_refl)
             (run_group g_body _ _ _ _
                (run_star_cls _ b (all_chars_any b)))))) as H.
  revert H. apply run_weaken. intros s ->. cbn beta.
  rewrite !append_nil_r. simpl. rewrite Ha. repeat split; auto.
Qed.

Lemma param_match a l b :
  is_space a = false -> outside is_space l = true ->
  stops is_space b = true ->
  re_match (before_regex new_param) ("@param " ++ String a l ++ " " ++ b) =
  Some ((0, "@param " ++ String a l ++ " " ++ b)
        :: labeled_groups (String a l) b []).
Proof.
  intros Ha Hl Hb. apply run_re_match.
  pose proof (run_cat _ _ _ _ _ _ _ _ param_tag_run
                (labeled_tail_run a l b Ha Hl Hb)) as H.
  revert H. apply run_weaken. intros s ->. cbn beta. split; reflexivity.
Qed.

Lemma param_translate_n l b include_title :
  is_label l = true -> is_body b = true ->
  section_translate_n new_param ("@param " ++ l ++ " " ++ b) include_title =
  (param_rendering include_title l b, 1).
Proof.
  intros Hl Hb. destruct l as [|a l]; [discriminate|].
  unfold is_label in Hl. unfold is_body in Hb.
  apply andb_prop in Hb. destruct Hb as [Hb1 Hb2].
  pose proof (outside_space_newline _ Hl) as Hl'.
  cbn [outside all_chars] in Hl. apply andb_prop in Hl.
  destruct Hl as [Ha Hl]. apply negb_true_iff in Ha.
  unfold section_translate_n.
  rewrite (param_match a l b Ha Hl Hb1).
  cbn [new_param new_section sec_hidden sec_indent
       sec_next_lines_extra_indent].
  cbv [after_regex is_labeled new_param new_section sec_class sec_indent
       labeled_groups expand group g_label g_body Nat.eqb].
  unfold sub.
  rewrite (sub_outside _ _ _ _ starts_in_next_line).
  - cbn [fst]. rewrite append_nil_r.
    destruct include_title; reflexivity.
  - rewrite !outside_append, Hl', Hb2. reflexivity.
Qed.

Lemma try_param rest prev l b :
  is_label l = true -> is_body b = true ->
  try_section_types (new_param :: rest) 0 prev ("@param " ++ l ++ " " ++ b) =
  (param_rendering
     (match prev with Some j => negb (Nat.eqb 0 j) | None => true end) l b,
   Some 0, []).
Proof.
  intros Hl Hb. cbn [try_section_types]. unfold translate_n.
  rewrite (param_translate_n l b _ Hl Hb). reflexivity.
Qed.

(** The split pattern matches one newline in front of "@param". *)
Lemma split_run self rest :
  section_types self = new_param :: rest ->
  run (split_regex self) nl
      (fun s => exists s', s = "@param" ++ s' /\ stops (is_char "[") s' = true)
      (fun c => c).
Proof.
  intros Hself. unfold split_regex. rewrite Hself. cbn [map].
  pose proof
    (run_cat _ _ _ _ _ _ _ _
       (run_plus_cls (is_char "010") "010" "" eq_refl eq_refl)
       (run_alt_r newline _ _ _ _ _ (starts_in_cls _)
          (run_ahead _ _ _ _
             (run_alts_head _ (map tag_regex rest) _ _ _ param_tag_run))))
    as H.
  revert H. apply run_weaken. intros s [s' [-> Hs']]. cbn beta.
  repeat split; try reflexivity. exists s'. split; [reflexivity | exact Hs'].
Qed.

Lemma split_two_params self rest s1 s2 :
  section_types self = new_param :: rest ->
  outside (is_char "010") s1 = true ->
  outside (is_char "010") s2 = true ->
  split (split_regex self) (s1 ++ nl ++ "@param " ++ s2) =
  [s1; "@param " ++ s2].
Proof.
  intros Hself H1 H2. unfold split.
  assert (E : match_at (split_regex self) false false
                (String "010" "" ++ "@param " ++ s2)
              = Some (1, [(0, nl)])).
  { apply (run_match_at_rest _ nl _ _ _ (split_run self rest Hself)).
    exists (" " ++ s2). split; reflexivity. }
  apply scan_hit in E.
  rewrite (scan_all_outside _ _ ("@param " ++ s2) (starts_in_split self)) in E
    by (rewrite outside_append, H2; reflexivity).
  rewrite (scan_outside _ _ s1 (starts_in_split self) H1).
  rewrite pieces_chars.
  change (nl ++ "@param " ++ s2) with (String "010" "" ++ "@param " ++ s2).
  rewrite E. cbn [pieces hd tl]. rewrite pieces_all_chars.
  now rewrite append_nil_r.
Qed.

(** ** The loop of [translate] *)

(** The test for a blank section accepts the empty text and a text of one
    whitespace character, nothing else. *)
Lemma blank_section_spec (r : string) :
  blank_section r =
  match r with
  | EmptyString => true
  | String a EmptyString => is_space a
  | String _ (String _ _) => false
  end.
Proof.
  destruct r as [|a [|b r]]; unfold blank_section, fullmatch, match_at; simpl;
    try reflexivity; destruct (is_space a); reflexivity.
Qed.

Lemma translate_section_reformated cls self st section :
  reformated (translate_section cls self st section) =
  let r := fst (fst (rewrite_section self (previous_section_type st) section)) in
  if blank_section r then reformated st
  else reformated st ++ cpp2python cls r ++ nl.
Proof.
  unfold translate_section.
  destruct (rewrite_section self (previous_section_type st) section)
    as [[r m] w].
  reflexivity.
Qed.

Lemma param_rendering_not_blank cmds t l b :
  blank_section (fst (apply_visual_commands cmds (param_rendering t l b)))
  = false.
Proof.
  unfold param_rendering. destruct t.
  - change (blank_section
              (fst (apply_visual_commands cmds
                      (String "010"
                         (String "A"
                            ("rgs:" ++ nl ++ "    " ++ l ++ ": " ++ b)))))
            = false).
    rewrite !apply_visual_commands_head by reflexivity.
    apply blank_section_spec.
  - change (blank_section
              (fst (apply_visual_commands cmds
                      (String " " (String " " ("  " ++ l ++ ": " ++ b)))))
            = false).
    rewrite !apply_visual_commands_head by reflexivity.
    apply blank_section_spec.
Qed.

Lemma translate_param_section cls self rest st l b :
  section_types self = new_param :: rest ->
  is_label l = true -> is_body b = true ->
  let t := match previous_section_type st with
           | Some j => negb (Nat.eqb 0 j)
           | None => true
           end in
  reformated (translate_section cls self st ("@param " ++ l ++ " " ++ b)) =
    reformated st ++ inline cls self (param_rendering t l b) ++ nl /\
  previous_section_type
    (translate_section cls self st ("@param " ++ l ++ " " ++ b)) = Some 0.
Proof.
  intros Hself Hl Hb t. unfold translate_section, rewrite_section.
  rewrite Hself, (try_param rest _ l b Hl Hb). fold t.
  pose proof (param_rendering_not_blank (visual_commands self) t l b) as Hnb.
  destruct (apply_visual_commands (visual_commands self)
              (param_rendering t l b)) as [s3 w2] eqn:E.
  cbn [fst] in Hnb. cbn [reformated previous_section_type]. rewrite Hnb.
  unfold inline. rewrite E. split; reflexivity.
Qed.

Lemma is_body_newline b : is_body b = true -> outside (is_char "010") b = true.
Proof. unfold is_body. intros H. apply andb_prop in H. apply H. Qed.

Lemma is_label_newline l :
  is_label l = true -> outside (is_char "010") l = true.
Proof.
  destruct l; [discriminate|]. unfold is_label. apply outside_space_newline.
Qed.

(** Two consecutive "@param" sections: the first is rendered with the
    title, the second without. *)
Lemma two_params_translation cls self rest l1 b1 l2 b2 :
  section_types self = new_param :: rest ->
  is_label l1 = true -> is_body b1 = true ->
  is_label l2 = true -> is_body b2 = true ->
  fst (translate cls self
         ("@param " ++ l1 ++ " " ++ b1 ++ nl ++ "@param " ++ l2 ++ " " ++ b2)) =
  inline cls self (param_rendering true l1 b1) ++ nl ++
  inline cls self (param_rendering false l2 b2) ++ nl.
Proof.
  intros Hself Hl1 Hb1 Hl2 Hb2. unfold translate, translate_loop. cbn [fst].
  replace ("@param " ++ l1 ++ " " ++ b1 ++ nl ++ "@param " ++ l2 ++ " " ++ b2)
    with (("@param " ++ l1 ++ " " ++ b1) ++ nl ++
          "@param " ++ (l2 ++ " " ++ b2))
    by (simpl; rewrite !append_assoc; reflexivity).
  rewrite (split_two_params self rest _ _ Hself).
  - cbn [fold_left].
    pose proof (translate_param_section cls self rest
                  {| reformated := ""; previous_section_type := None;
                     emitted := [] |}
                  l1 b1 Hself Hl1 Hb1) as [R1 P1].
    cbn [previous_section_type reformated] in R1.
    set (st1 := translate_section cls self _ _) in *.
    pose proof (translate_param_section cls self rest st1 l2 b2
                  Hself Hl2 Hb2) as [R2 _].
    rewrite P1 in R2. cbn [Nat.eqb negb] in R2.
    rewrite R2, R1. simpl. now rewrite !append_assoc.
  - rewrite !outside_append, (is_label_newline _ Hl1),
      (is_body_newline _ Hb1). reflexivity.
  - rewrite !outside_append, (is_label_newline _ Hl2),
      (is_body_newline _ Hb2). reflexivity.
Qed.

Lemma param_line_newline l b :
  is_label l = true -> is_body b = true ->
  outside (is_char "010") ("    " ++ l ++ ": " ++ b) = true.
Proof.
  intros Hl Hb.
  rewrite !outside_append, (is_label_newline _ Hl), (is_body_newline _ Hb).
  reflexivity.
Qed.

Lemma two_params_lines l1 b1 l2 b2 :
  is_label l1 = true -> is_body b1 = true ->
  is_label l2 = true -> is_body b2 = true ->
  lines (param_rendering true l1 b1 ++ nl ++
         param_rendering false l2 b2 ++ nl)
  = [""; "Args:"; "    " ++ l1 ++ ": " ++ b1; "    " ++ l2 ++ ": " ++ b2; ""].
Proof.
  intros Hl1 Hb1 Hl2 Hb2. unfold lines, param_rendering.
  pose proof (param_line_newline l1 b1 Hl1 Hb1) as H1.
  pose proof (param_line_newline l2 b2 Hl2 Hb2) as H2.
  set (L1 := "    " ++ l1 ++ ": " ++ b1) in *.
  set (L2 := "    " ++ l2 ++ ": " ++ b2) in *.
  replace (((nl ++ "Args:" ++ nl) ++ L1) ++ nl ++ ("" ++ L2) ++ nl)
    with ("" ++ String "010"
            ("Args:" ++
             String "010" (L1 ++ String "010" (L2 ++ String "010" ""))))
    by (unfold nl; cbn [append]; rewrite ?append_assoc; reflexivity).
  rewrite (str_split_line "010" "" _ eq_refl).
  rewrite (str_split_line "010" "Args:" _ eq_refl).
  rewrite (str_split_line "010" L1 _ H1).
  rewrite (str_split_line "010" L2 _ H2).
  reflexivity.
Qed.

(** One round of the bracket scan keeps the depth from going below zero. *)
Lemma rebracket_step_depth st span :
  (0 <= fst st)%Z -> (0 <= fst (rebracket_step st span))%Z.
Proof.
  destruct st as [depth out]. unfold rebracket_step. cbn [fst].
  destruct (subn open_bracket [TGrp 1; TLit "["] span) as [span' delta].
  intros H. destruct (0 <? depth + Z.of_nat delta)%Z eqn:E; cbn [fst].
  - apply Z.ltb_lt in E. lia.
  - lia.
Qed.

Lemma rebracket_fold_depth spans : forall st,
  (0 <= fst st)%Z -> (0 <= fst (fold_left rebracket_step spans st))%Z.
Proof.
  induction spans as [|span spans IH]; intros st H; simpl.
  - exact H.
  - apply IH. apply rebracket_step_depth. exact H.
Qed.

(** ** The bracket scan *)

(** The opening pattern needs a "<". *)
Lemma open_bracket_needs_angle s m :
  outside (is_char "<") s = true -> match_at open_bracket m false s = None.
Proof.
  intros Hs. unfold match_at, open_bracket. cbn [rmatch].
  apply rmatch_suffix_fail. intros s1 n1 c1 Hs1.
  apply (starts_in_fails _ (is_char "<")).
  - apply (starts_in_lit "<" "").
  - pose proof (outside_suffix _ _ _ Hs1 Hs) as H. destruct s1 as [|a s1]; [reflexivity|].
    cbn [outside all_chars] in H. apply andb_prop in H. apply H.
Qed.

Lemma scan_open_bracket_plain x :
  outside (is_char "<") x = true ->
  scan open_bracket 0 x = map Ch (list_ascii_of_string x).
Proof.
  induction x as [|a x IH]; intros Hx.
  - cbn [scan]. rewrite (open_bracket_needs_angle "" false eq_refl). reflexivity.
  - rewrite scan_miss by (apply open_bracket_needs_angle; exact Hx).
    cbn [outside all_chars] in Hx. apply andb_prop in Hx. destruct Hx as [_ Hx].
    rewrite (IH Hx). reflexivity.
Qed.

Lemma open_bracket_at t s :
  is_template t = true ->
  match_at open_bracket false false ((t ++ "<") ++ s) =
  Some (String.length (t ++ "<"), [(0, t ++ "<"); (1, t)]).
Proof.
  unfold is_template, template_types. cbn [existsb]. intros H.
  repeat (apply orb_prop in H; destruct H as [H|H];
          [apply String.eqb_eq in H; subst t; reflexivity|]).
  discriminate.
Qed.

Lemma scan_openings names : forall s,
  forallb is_template names = true ->
  scan open_bracket 0 (openings "<" names ++ s) =
  (map (fun t => Hit [(0, (t ++ "<")%string); (1, t)]) names ++
   scan open_bracket 0 s)%list.
Proof.
  induction names as [|t names IH]; intros s H.
  - reflexivity.
  - cbn [forallb] in H. apply andb_prop in H. destruct H as [Ht H].
    cbn [openings map app].
    replace ((t ++ "<" ++ openings "<" names) ++ s)
      with ((t ++ "<") ++ (openings "<" names ++ s))
      by (rewrite !append_assoc; reflexivity).
    assert (Hne : t ++ "<" <> "") by (destruct t; cbn; discriminate).
    rewrite (scan_hit_text _ _ _ _ Hne
               (open_bracket_at t (openings "<" names ++ s) Ht)).
    rewrite (IH s H). reflexivity.
Qed.

Lemma replace_openings names l :
  replace [TGrp 1; TLit "["]
    (map (fun t => Hit [(0, (t ++ "<")%string); (1, t)]) names ++ l)%list =
  openings "[" names ++ replace [TGrp 1; TLit "["] l.
Proof.
  induction names as [|t names IH]; cbn [map app replace openings].
  - reflexivity.
  - rewrite IH. cbn [expand group Nat.eqb]. rewrite !append_assoc.
    reflexivity.
Qed.

Lemma hits_openings names l :
  hits (map (fun t => Hit [(0, (t ++ "<")%string); (1, t)]) names ++ l)%list =
  List.length names + hits l.
Proof.
  induction names as [|t names IH]; cbn [map app hits List.length].
  - reflexivity.
  - rewrite IH. reflexivity.
Qed.

Lemma subn_openings names x :
  forallb is_template names = true ->
  outside (is_char "<") x = true ->
  subn open_bracket [TGrp 1; TLit "["] (openings "<" names ++ x) =
  (openings "[" names ++ x, List.length names).
Proof.
  intros Hn Hx. unfold subn.
  rewrite (scan_openings names x Hn), (scan_open_bracket_plain x Hx).
  rewrite replace_openings, hits_openings.
  rewrite <- (app_nil_r (map Ch _)).
  rewrite replace_chars, hits_chars. cbn [replace hits].
  rewrite append_nil_r, Nat.add_0_r. reflexivity.
Qed.

Lemma str_split_closings y : forall n,
  outside (is_char ">") y = true ->
  str_split ">" (y ++ repeat_str n ">") = y :: repeat "" n.
Proof.
  intros n Hy. destruct n as [|n].
  - cbn [repeat_str repeat]. rewrite append_nil_r.
    clear - Hy. induction y as [|a y IH]; cbn [str_split].
    + reflexivity.
    + cbn [outside all_chars] in Hy. apply andb_prop in Hy.
      destruct Hy as [Ha Hy]. apply negb_true_iff in Ha.
      unfold is_char in Ha. rewrite Ha, (IH Hy). reflexivity.
  - cbn [repeat_str]. change (">" ++ repeat_str n ">")
      with (String ">" (repeat_str n ">")).
    rewrite (str_split_line ">" y _ Hy). f_equal.
    clear. induction n as [|n IH]; cbn [repeat_str repeat].
    + reflexivity.
    + change (">" ++ repeat_str n ">") with (String ">" (repeat_str n ">")).
      cbn [str_split Ascii.eqb]. rewrite IH.
      destruct n; reflexivity.
Qed.

Lemma subn_open_bracket_empty :
  subn open_bracket [TGrp 1; TLit "["] "" = ("", 0).
Proof. reflexivity. Qed.

Lemma rebracket_closings m : forall out,
  fold_left rebracket_step (repeat "" m) (Z.of_nat m, out) =
  (0%Z, out ++ repeat_str m "]").
Proof.
  induction m as [|m IH]; intros out.
  - cbn [repeat fold_left repeat_str]. now rewrite append_nil_r.
  - cbn [repeat fold_left]. unfold rebracket_step at 2.
    rewrite subn_open_bracket_empty.
    replace (0 <? Z.of_nat (S m) + Z.of_nat 0)%Z with true
      by (symmetry; apply Z.ltb_lt; lia).
    replace (Z.of_nat (S m) + Z.of_nat 0 - 1)%Z with (Z.of_nat m) by lia.
    rewrite IH. cbn [repeat_str append]. now rewrite !append_assoc.
Qed.

Lemma template_name_plain t :
  is_template t = true -> outside (one_of "<>") t = true.
Proof.
  unfold is_template, template_types. cbn [existsb]. intros H.
  repeat (apply orb_prop in H; destruct H as [H|H];
          [apply String.eqb_eq in H; subst t; reflexivity|]).
  discriminate.
Qed.

Lemma openings_plain names :
  forallb is_template names = true ->
  outside (is_char ">") (openings "<" names) = true.
Proof.
  induction names as [|t names IH]; intros H; [reflexivity|].
  cbn [forallb] in H. apply andb_prop in H. destruct H as [Ht H].
  cbn [openings]. rewrite !outside_append, (IH H).
  rewrite (outside_weaken (one_of "<>") (is_char ">") t).
  - reflexivity.
  - intros a Ha. unfold one_of, is_char in *. cbn [list_ascii_of_string existsb].
    rewrite Ha. now rewrite !orb_true_r.
  - apply template_name_plain. exact Ht.
Qed.

Lemma removelast_repeat {A} (a : A) m : removelast (repeat a (S m)) = repeat a m.
Proof.
  induction m as [|m IH]; [reflexivity|].
  change (repeat a (S (S m))) with (a :: repeat a (S m)).
  cbn [removelast]. change (repeat a (S m)) with (a :: repeat a m) at 1.
  rewrite IH. reflexivity.
Qed.

Lemma last_repeat {A} (a d : A) m : last (repeat a (S m)) d = a.
Proof.
  induction m as [|m IH]; [reflexivity|].
  change (repeat a (S (S m))) with (a :: repeat a (S m)).
  cbn [last]. change (repeat a (S m)) with (a :: repeat a m) at 1.
  exact IH.
Qed.

Lemma removelast_cons_repeat {A} (y a : A) m :
  removelast (y :: repeat a (S m)) = y :: repeat a m.
Proof.
  change (removelast (y :: repeat a (S m)))
    with (y :: removelast (repeat a (S m))).
  now rewrite removelast_repeat.
Qed.

Lemma last_cons_repeat {A} (y a d : A) m :
  last (y :: repeat a (S m)) d = a.
Proof.
  change (last (y :: repeat a (S m)) d) with (last (repeat a (S m)) d).
  apply last_repeat.
Qed.

Lemma rebracket_first_span names x :
  forallb is_template names = true ->
  outside (is_char "<") x = true ->
  rebracket_step (0%Z, "") (openings "<" names ++ x) =
  if (0 <? Z.of_nat (List.length names))%Z
  then ((Z.of_nat (List.length names) - 1)%Z, openings "[" names ++ x ++ "]")
  else (0%Z, openings "[" names ++ x ++ ">").
Proof.
  intros Hn Hx. unfold rebracket_step. rewrite (subn_openings names x Hn Hx).
  cbn [Z.add]. destruct (0 <? Z.of_nat (List.length names))%Z eqn:E.
  - cbn [append]. now rewrite append_assoc.
  - apply Z.ltb_ge in E. cbn [append]. rewrite append_assoc. f_equal. lia.
Qed.

(** The bracket scan on a nested generic: every opening after a template
    name and every closing bracket is rewritten. *)
Lemma rebracket_nested names x :
  forallb is_template names = true ->
  outside (one_of "<>") x = true ->
  rebracket (openings "<" names ++ x ++ repeat_str (List.length names) ">") =
  openings "[" names ++ x ++ repeat_str (List.length names) "]".
Proof.
  intros Hn Hx.
  assert (Hx1 : outside (is_char "<") x = true).
  { revert Hx. apply outside_weaken. intros a Ha. unfold one_of, is_char in *.
    cbn [list_ascii_of_string existsb]. now rewrite Ha. }
  assert (Hx2 : outside (is_char ">") x = true).
  { revert Hx. apply outside_weaken. intros a Ha. unfold one_of, is_char in *.
    cbn [list_ascii_of_string existsb]. rewrite Ha. now rewrite !orb_true_r. }
  unfold rebracket. rewrite <- append_assoc.
  rewrite str_split_closings
    by (rewrite outside_append, (openings_plain names Hn), Hx2; reflexivity).
  destruct (List.length names) as [|m] eqn:En.
  - destruct names; [|discriminate]. cbn. now rewrite !append_nil_r.
  - rewrite removelast_cons_repeat, last_cons_repeat. cbn [fold_left].
    rewrite (rebracket_first_span names x Hn Hx1), En.
    replace (0 <? Z.of_nat (S m))%Z with true
      by (symmetry; apply Z.ltb_lt; lia).
    replace (Z.of_nat (S m) - 1)%Z with (Z.of_nat m) by lia.
    rewrite rebracket_closings. rewrite append_nil_r.
    cbn [repeat_str]. now rewrite !append_assoc.
Qed.


(** ** Warnings *)

Lemma count_warning_app w ws1 ws2 :
  count_warning w (ws1 ++ ws2)%list = count_warning w ws1 + count_warning w ws2.
Proof. unfold count_warning. now rewrite filter_app, length_app. Qed.

Lemma warn_if_present_count tag r :
  String.eqb ingroup_warning (unsupported_message tag) = false ->
  count_warning ingroup_warning (snd (warn_if_present tag r)) = 0.
Proof.
  intros H. unfold warn_if_present, count_warning. cbn [snd].
  destruct (Nat.ltb 0 (snd r)); cbn [filter]; [rewrite H|]; reflexivity.
Qed.

(** No visual command raises the warning for ingroup. *)
Lemma visual_translate_no_ingroup cmd s :
  In cmd make_visual_commands ->
  count_warning ingroup_warning (snd (visual_translate cmd s)) = 0.
Proof.
  intros Hin. cbv [make_visual_commands In] in Hin.
  unfold visual_translate.
  destruct (visual_translate_n cmd s) as [r w] eqn:Ev. cbn [snd].
  unfold visual_translate_n in Ev.
  repeat (destruct Hin as [<-|Hin]; [|]); try contradiction;
    cbn [vis_class new_visual vis_tag] in Ev;
    try (injection Ev as _ <-; reflexivity);
    match type of Ev with
    | warn_if_present ?t ?x = _ =>
        pose proof (warn_if_present_count t x eq_refl) as H;
        rewrite Ev in H; exact H
    end.
Qed.

Lemma apply_visual_commands_no_ingroup : forall cmds s,
  (forall cmd, In cmd cmds -> In cmd make_visual_commands) ->
  count_warning ingroup_warning (snd (apply_visual_commands cmds s)) = 0.
Proof.
  induction cmds as [|cmd cmds IH]; intros s Hsub; cbn [apply_visual_commands].
  - reflexivity.
  - pose proof (visual_translate_no_ingroup cmd s (Hsub cmd (or_introl eq_refl))) as H.
    destruct (visual_translate cmd s) as [s' w]. cbn [snd] in H.
    specialize (IH s' (fun c Hc => Hsub c (or_intror Hc))).
    destruct (apply_visual_commands cmds s') as [r w']. cbn [snd] in *.
    rewrite count_warning_app, H, IH. reflexivity.
Qed.

Lemma translate_n_miss k s t :
  re_match (before_regex k) s = None -> translate_n k s t = (s, 0, []).
Proof.
  intros H. unfold translate_n, section_translate_n. rewrite H.
  destruct (is_unsupported k); reflexivity.
Qed.

Lemma translate_n_hit k s t c :
  re_match (before_regex k) s = Some c ->
  snd (fst (translate_n k s t)) = 1 /\
  snd (translate_n k s t) =
    if is_unsupported k then [unsupported_message (sec_tag k)] else [].
Proof.
  intros H. unfold translate_n, section_translate_n. rewrite H.
  destruct (is_unsupported k), (sec_hidden k); split; reflexivity.
Qed.

Lemma try_skip k rest i prev s :
  re_match (before_regex k) s = None ->
  try_section_types (k :: rest) i prev s =
  try_section_types rest (S i) prev s.
Proof.
  intros H. cbn [try_section_types]. rewrite (translate_n_miss k s _ H).
  destruct (try_section_types rest (S i) prev s) as [[r m] w]. reflexivity.
Qed.

Lemma try_hit k rest i prev s c :
  re_match (before_regex k) s = Some c ->
  snd (try_section_types (k :: rest) i prev s) =
    if is_unsupported k then [unsupported_message (sec_tag k)] else [].
Proof.
  intros H. cbn [try_section_types].
  destruct (translate_n_hit k s
              (match prev with Some j => negb (Nat.eqb i j) | None => true end)
              c H) as [H1 H2].
  destruct (translate_n k s _) as [[r n] w]. cbn [fst snd] in *. subst n w.
  reflexivity.
Qed.

Lemma begins_with_append t : forall s,
  begins_with t s = true -> exists tail, s = t ++ tail.
Proof.
  induction t as [|a t IH]; intros s H.
  - exists s. reflexivity.
  - destruct s as [|b s]; [discriminate|]. cbn [begins_with] in H.
    apply andb_prop in H. destruct H as [Hb Hs].
    apply Ascii.eqb_eq in Hb. subst b.
    destruct (IH s Hs) as [tail ->]. exists tail. reflexivity.
Qed.

Lemma rmatch_opt_some r s n c k v :
  k s n c = Some v -> exists v', rmatch (Opt r) s n c k = Some v'.
Proof.
  intros H. change (rmatch (Opt r) s n c k)
    with (orelse (rmatch r s n c k) (k s n c)).
  destruct (rmatch r s n c k); eexists; [reflexivity | exact H].
Qed.

(** The pattern of the kind for ingroup accepts any text after the tag. *)
Lemma ingroup_matches m tail :
  one_of "\@" m = true ->
  exists c,
    re_match
      (before_regex ingroup_kind)
      (String m ("ingroup" ++ tail)) = Some c.
Proof.
  intros Hm. unfold re_match, match_at.
  set (kf := fun (s1 : string) (n1 : nat) (c1 : caps) => _).
  set (R := Group 1 (seq [Opt (lit ":"); Plus space;
                          Group g_body (Star anychar)])).
  set (K := fun (s1 : string) (n1 : nat) (c1 : caps) =>
              rmatch (Opt R) s1 n1 c1 kf).
  set (x := String m "" ++ "ingroup").
  pose proof (run_cat _ _ _ _ _ _ _ _ (run_cls (one_of "\@") m Hm)
                (run_lit "ingroup")) as H.
  destruct (rmatch_opt_some R tail (String.length x + 0) [] kf
              (String.length x + 0,
               [(0, take (String.length x + 0)
                         (String m ("ingroup" ++ tail)))])
              eq_refl) as [v Hv].
  change (K tail (String.length x + 0) [] = Some v) in Hv.
  specialize (H tail 0 [] K v (conj I I) Hv).
  match type of H with
  | ?lhs = _ => change (exists c, option_map snd lhs = Some c)
  end.
  rewrite H. destruct v. eexists. reflexivity.
Qed.

Lemma rmatch_lit_fail t : forall s n c k,
  begins_with t s = false -> rmatch (lit t) s n c k = None.
Proof.
  induction t as [|a t IH]; intros s n c k H; [discriminate|].
  destruct s as [|b s]; [reflexivity|].
  cbn [begins_with] in H. cbn [lit rmatch]. unfold is_char.
  destruct (Ascii.eqb b a); [|reflexivity].
  apply IH. exact H.
Qed.

Lemma ingroup_misses s :
  begins_ingroup s = false -> re_match (before_regex ingroup_kind) s = None.
Proof.
  intros H. unfold re_match, match_at.
  set (kf := fun (s1 : string) (n1 : nat) (c1 : caps) => _).
  destruct s as [|a s]; [reflexivity|].
  set (R := Group 1 (seq [Opt (lit ":"); Plus space;
                          Group g_body (Star anychar)])).
  change (option_map snd
            (if one_of "\@" a
             then rmatch (lit "ingroup") s 1 []
                    (fun s1 n1 c1 => rmatch (Opt R) s1 n1 c1 kf)
             else None) = None).
  destruct (one_of "\@" a) eqn:Ha; [|reflexivity].
  rewrite rmatch_lit_fail; [reflexivity|].
  unfold begins_ingroup in H.
  change (begins_with "@ingroup" (String a s))
    with (Ascii.eqb a "@" && begins_with "ingroup" s) in H.
  change (begins_with "\ingroup" (String a s))
    with (Ascii.eqb a "\" && begins_with "ingroup" s) in H.
  unfold one_of in Ha. cbn [list_ascii_of_string existsb] in Ha.
  destruct (Ascii.eqb a "@"), (Ascii.eqb a "\");
    cbn [andb orb] in *; try discriminate; try assumption;
    apply orb_false_iff in H; apply H.
Qed.

Lemma try_no_ingroup kinds s :
  (forall k, In k kinds -> is_unsupported k = true ->
     String.eqb ingroup_warning (unsupported_message (sec_tag k)) = false \/
     re_match (before_regex k) s = None) ->
  forall i prev,
    count_warning ingroup_warning (snd (try_section_types kinds i prev s)) = 0.
Proof.
  induction kinds as [|k kinds IH]; intros Hk i prev.
  - reflexivity.
  - destruct (re_match (before_regex k) s) as [c|] eqn:E.
    + rewrite (try_hit k kinds i prev s c E).
      destruct (is_unsupported k) eqn:U; [|reflexivity].
      destruct (Hk k (or_introl eq_refl) U) as [H|H].
      * unfold count_warning. cbn [filter]. rewrite H. reflexivity.
      * rewrite H in E. discriminate.
    + rewrite (try_skip k kinds i prev s E).
      apply IH. intros k' Hin. apply Hk. right. exact Hin.
Qed.

(** The section kinds raise the warning for ingroup once for a section
    that begins with the tag, and not at all for any other section. *)
Lemma try_section_types_ingroup o prev s :
  count_warning ingroup_warning
    (snd (try_section_types (make_section_types o) 0 prev s)) =
  if begins_ingroup s then 1 else 0.
Proof.
  destruct (begins_ingroup s) eqn:B.
  - assert (E : snd (try_section_types (make_section_types o) 0 prev s)
                = [ingroup_warning]).
    { unfold begins_ingroup in B. apply orb_prop in B.
      destruct o as [r sc h]. unfold make_section_types.
      cbn [return_includes_type_tag hide_tparam].
      destruct B as [B|B]; apply begins_with_append in B;
        destruct B as [tail ->]; destruct r, h;
        do 14 (rewrite try_skip by exact eq_refl).
      1-4: destruct (ingroup_matches "@" tail eq_refl) as [c Hc].
      5-8: destruct (ingroup_matches "\" tail eq_refl) as [c Hc].
      all: rewrite (try_hit _ _ _ _ _ c Hc); reflexivity. }
    rewrite E. reflexivity.
  - apply try_no_ingroup. intros k Hin U.
    destruct o as [r sc h]. unfold make_section_types in Hin.
    cbn [return_includes_type_tag hide_tparam In] in Hin.
    repeat (destruct Hin as [<-|Hin];
            [first [ discriminate U
                   | destruct r; discriminate U
                   | destruct h; discriminate U
                   | left; reflexivity
                   | right; apply (ingroup_misses s B) ] |]).
    contradiction.
Qed.

Lemma rewrite_section_ingroup o cls0 prev s :
  count_warning ingroup_warning
    (snd (rewrite_section (fst (init o cls0)) prev s)) =
  if begins_ingroup s then 1 else 0.
Proof.
  unfold rewrite_section. cbn [init fst section_types visual_commands].
  pose proof (try_section_types_ingroup o prev s) as H.
  destruct (try_section_types (make_section_types o) 0 prev s)
    as [[s1 m] w1]. cbn [snd] in H.
  match goal with
  | |- context [ apply_visual_commands ?cmds ?x ] =>
      pose proof (apply_visual_commands_no_ingroup cmds x (fun c Hc => Hc)) as V;
      destruct (apply_visual_commands cmds x) as [s3 w2]
  end.
  cbn [snd] in *. rewrite count_warning_app, H, V. apply Nat.add_0_r.
Qed.

Lemma translate_loop_ingroup o cls0 cls sections : forall st,
  count_warning ingroup_warning
    (emitted (fold_left (translate_section cls (fst (init o cls0))) sections st))
  = count_warning ingroup_warning (emitted st) +
    List.length (filter begins_ingroup sections).
Proof.
  induction sections as [|s sections IH]; intros st; cbn [fold_left filter].
  - cbn. lia.
  - rewrite IH. unfold translate_section.
    pose proof (rewrite_section_ingroup o cls0 (previous_section_type st) s) as H.
    destruct (rewrite_section (fst (init o cls0)) (previous_section_type st) s)
      as [[s3 m] w]. cbn [snd emitted] in *.
    rewrite count_warning_app, H.
    destruct (begins_ingroup s); cbn [List.length]; lia.
Qed.


(** ** The claims *)

(** C1.  With the default configuration the comment
    "@brief Does a thing.\n@param x the input\n@param y the output\n@return the result"
    translates to the brief text without a heading, then one "Args:"
    heading with "x: the input" and "y: the output" indented once below it,
    then a "Returns:" heading with "the result" indented once; no warning
    is raised. *)
Theorem C1_brief_params_return :
  translate scoped_class default_translator brief_params_return =
  (nl ++ "Does a thing." ++ nl ++
   nl ++ "Args:" ++ nl ++
   "    x: the input" ++ nl ++
   "    y: the output" ++ nl ++
   nl ++ "Returns:" ++ nl ++
   "    the result" ++ nl,
   []).
Proof. vm_compute. reflexivity. Qed.

(** C2, as stated, fails: the comment of one blank is a section that is
    rewritten to a newline and a blank, which is whitespace only, and it is
    appended to the result all the same. *)
Lemma C2_two_blanks_are_kept :
  all_chars is_space
    (fst (fst (rewrite_section default_translator None " "))) = true /\
  reformated (translate_section scoped_class default_translator
                                start_state " ") = nl ++ " " ++ nl /\
  translate scoped_class default_translator " " = (nl ++ " " ++ nl, []).
Proof. vm_compute. repeat split; reflexivity. Qed.

(** C2, amended.  In the translate operation a section is dropped (nothing
    is appended for it) exactly when its text after section rewriting and
    visual-enhancement rewriting is empty or is one single whitespace
    character; every other section, a longer run of whitespace included,
    is appended after the type substitution, with a trailing newline. *)
Theorem C2_blank_sections_dropped :
  forall cls self st section,
    let r :=
      fst (fst (rewrite_section self (previous_section_type st) section)) in
    blank_section r =
      match r with
      | EmptyString => true
      | String a EmptyString => is_space a
      | String _ (String _ _) => false
      end /\
    reformated (translate_section cls self st section) =
      if blank_section r then reformated st
      else reformated st ++ cpp2python cls r ++ nl.
Proof.
  intros cls self st section r. split.
  - apply blank_section_spec.
  - apply translate_section_reformated.
Qed.

(** C3.  For every translator (whatever its options and the state of the
    class) and every input of two consecutive "@param" sections, each a
    label and a body on one line, the output is the first section under
    the title "Args:" followed by the second section without a title: the
    second section matches the kind that matched the section before it.
    When the visual commands and the type substitution leave the two
    renderings as they are, the lines of the output are the heading
    "Args:", once, and the two "label: body" lines, indented, in the order
    of the input. *)
Theorem C3_one_heading_for_two_params :
  forall (o : options) (cls0 cls : class_state) (l1 b1 l2 b2 : string),
    is_label l1 = true -> is_body b1 = true ->
    is_label l2 = true -> is_body b2 = true ->
    let self := fst (init o cls0) in
    let first := nl ++ "Args:" ++ nl ++ "    " ++ l1 ++ ": " ++ b1 in
    let second := "    " ++ l2 ++ ": " ++ b2 in
    let out :=
      fst (translate cls self
             ("@param " ++ l1 ++ " " ++ b1 ++ nl ++
              "@param " ++ l2 ++ " " ++ b2)) in
    out = inline cls self first ++ nl ++ inline cls self second ++ nl /\
    (inline cls self first = first -> inline cls self second = second ->
     lines out =
       [""; "Args:"; "    " ++ l1 ++ ": " ++ b1; "    " ++ l2 ++ ": " ++ b2; ""]
     /\ heading_count "Args:" out = 1).
Proof.
  intros o cls0 cls l1 b1 l2 b2 Hl1 Hb1 Hl2 Hb2 self first second out.
  assert (E : out = inline cls self first ++ nl ++ inline cls self second ++ nl).
  { apply (two_params_translation cls self (tl (make_section_types o)));
      auto. }
  split; [exact E|]. intros H1 H2.
  assert (L : lines out =
              [""; "Args:"; "    " ++ l1 ++ ": " ++ b1;
               "    " ++ l2 ++ ": " ++ b2; ""]).
  { rewrite E, H1, H2. apply (two_params_lines l1 b1 l2 b2); assumption. }
  split; [exact L|]. unfold heading_count. rewrite L. reflexivity.
Qed.

Lemma C3_x_and_y_witness :
  lines (fst (translate scoped_class default_translator two_params)) =
    [""; "Args:"; "    x: the input"; "    y: the output"; ""] /\
  heading_count "Args:"
    (fst (translate scoped_class default_translator two_params)) = 1.
Proof.
  refine (proj2 (C3_one_heading_for_two_params default_options initial_class
                   scoped_class "x" "the input" "y" "the output" _ _ _ _)
                _ _); vm_compute; reflexivity.
Defined.

(** C4.  [cpp2python] turns "List<Dict<str,int>>" into
    "List[Dict[str,int]]", whether or not the scope rule is stored in the
    class, and the result has as many "[" as "]".  So it is for every
    nested generic: template names, each followed by "<", an interior
    without angle brackets, and as many ">" as there are names, which the
    type substitutions leave as it is, come out with every "<" turned into
    "[" and every ">" into "]", as many of the one as of the other. *)
Theorem C4_nested_brackets :
  (forall (cls : class_state) (names : list string) (x : string),
      forallb is_template names = true ->
      outside (one_of "<>") x = true ->
      let text :=
        openings "<" names ++ x ++ repeat_str (List.length names) ">" in
      substitute (cls_type_substitutions cls) text = text ->
      cpp2python cls text =
      openings "[" names ++ x ++ repeat_str (List.length names) "]") /\
  cpp2python initial_class "List<Dict<str,int>>" = "List[Dict[str,int]]" /\
  cpp2python scoped_class "List<Dict<str,int>>" = "List[Dict[str,int]]" /\
  occurrences "[" (cpp2python scoped_class "List<Dict<str,int>>") =
  occurrences "]" (cpp2python scoped_class "List<Dict<str,int>>").
Proof.
  split.
  - intros cls names x Hn Hx text Hs. unfold cpp2python. rewrite Hs.
    apply rebracket_nested; assumption.
  - vm_compute. repeat split; reflexivity.
Qed.

Lemma C4_list_of_dict_witness :
  cpp2python scoped_class "List<Dict<str,int>>" = "List[Dict[str,int]]".
Proof.
  refine (proj1 C4_nested_brackets scoped_class ["List"; "Dict"] "str,int"
                _ _ _); vm_compute; reflexivity.
Defined.

(** C5.  In the bracket scan of [cpp2python], for every text and after any
    number of spans, the depth is not negative; and the round for the next
    span, whatever the span, either finds the depth positive once the
    openings of the span are counted, writes "]" for the ">" and takes one
    off the depth, or finds it zero, writes the ">" as it is and leaves the
    depth at zero.  The scan is a total function: no text makes it fail. *)
Theorem C5_depth_never_negative :
  forall (text : string) (k : nat),
    let st := rebracket_state text k in
    (0 <= fst st)%Z /\
    forall span : string,
      let (span', delta_depth) := subn open_bracket [TGrp 1; TLit "["] span in
      rebracket_step st span =
      if (0 <? fst st + Z.of_nat delta_depth)%Z
      then ((fst st + Z.of_nat delta_depth - 1)%Z, snd st ++ span' ++ "]")
      else (0%Z, snd st ++ span' ++ ">").
Proof.
  intros text k st.
  assert (H : (0 <= fst st)%Z).
  { apply rebracket_fold_depth. cbn [fst]. lia. }
  split; [exact H|].
  intros span. unfold rebracket_step.
  destruct st as [depth out]. cbn [fst snd] in *.
  destruct (subn open_bracket [TGrp 1; TLit "["] span) as [span' delta].
  destruct (0 <? depth + Z.of_nat delta)%Z eqn:E.
  - reflexivity.
  - apply Z.ltb_ge in E. f_equal. lia.
Qed.

(** C6, as stated, fails: a text may contain "@ingroup foo" inside a
    paragraph, where no section kind is tried at it; then no warning is
    raised and the tag stays in the output. *)
Lemma C6_tag_inside_a_paragraph :
  occurs "@ingroup foo" "see @ingroup foo" = true /\
  translate scoped_class default_translator "see @ingroup foo" =
  (nl ++ "see @ingroup foo" ++ nl, []) /\
  occurs "@ingroup"
    (fst (translate scoped_class default_translator "see @ingroup foo")) = true.
Proof. vm_compute. repeat split; reflexivity. Qed.

(** C6, amended.  Translating a text raises the warning that names the tag
    ingroup once for every section of the text that begins with the tag
    after a marker ("@ingroup" or "\ingroup"), the sections being the
    pieces the text is split into, and not for an occurrence of the tag
    anywhere else.  The text "@ingroup foo" is one such section: it raises
    exactly one warning, which names ingroup; the warning is not part of
    the returned text, and the returned text is the section under its
    "In Group" title, without the token "@ingroup". *)
Theorem C6_ingroup_section_warns_once :
  (forall (o : options) (cls0 cls : class_state) (comment : string),
      let self := fst (init o cls0) in
      count_warning ingroup_warning (snd (translate cls self comment)) =
      List.length
        (filter begins_ingroup (split (split_regex self) comment))) /\
  split (split_regex default_translator) "@ingroup foo" = ["@ingroup foo"] /\
  translate scoped_class default_translator "@ingroup foo" =
  (nl ++ "In Group:" ++ nl ++ "    foo" ++ nl, [ingroup_warning]) /\
  occurs "ingroup" ingroup_warning = true /\
  occurs "@ingroup"
    (fst (translate scoped_class default_translator "@ingroup foo")) = false.
Proof.
  split.
  - intros o cls0 cls comment self. unfold translate, translate_loop.
    cbn [snd]. unfold self. rewrite translate_loop_ingroup. reflexivity.
  - vm_compute. repeat split; reflexivity.
Qed.

(** Plain tags and the passes of an HTML command. *)

Lemma tag_char_variants a :
  is_tag_char a = true ->
  is_tag_char (lower_char a) = true /\ is_tag_char (upper_char a) = true.
Proof.
  destruct a as [[] [] [] [] [] [] [] []]; vm_compute; intros H;
    (discriminate H || (split; reflexivity)).
Qed.

Lemma tag_char_no_syntax a :
  is_tag_char a = true -> one_of "<>/" a = false.
Proof.
  destruct a as [[] [] [] [] [] [] [] []]; vm_compute; intros H;
    (discriminate H || reflexivity).
Qed.

Lemma plain_tag_variants t :
  plain_tag t = true ->
  plain_tag (lower t) = true /\ plain_tag (upper t) = true.
Proof.
  unfold plain_tag, lower, upper.
  induction t as [|a t IH]; intros H; [split; reflexivity|].
  cbn [all_chars] in H. apply andb_prop in H. destruct H as [Ha Ht].
  destruct (tag_char_variants a Ha) as [Hl Hu].
  destruct (IH Ht) as [IHl IHu].
  cbn [str_map all_chars]. rewrite Hl, Hu, IHl, IHu. split; reflexivity.
Qed.

Lemma plain_tag_no_syntax t :
  plain_tag t = true -> outside (one_of "<>/") t = true.
Proof.
  unfold plain_tag, outside.
  induction t as [|a t IH]; intros H; [reflexivity|].
  cbn [all_chars] in *. apply andb_prop in H. destruct H as [Ha Ht].
  now rewrite (tag_char_no_syntax a Ha), (IH Ht).
Qed.

Lemma no_syntax_split t :
  outside (one_of "<>/") t = true ->
  outside (is_char "<") t = true /\ outside (is_char ">") t = true /\
  outside (is_char "/") t = true.
Proof.
  intros H.
  repeat split; revert H; apply outside_weaken; intros a Ha;
    unfold is_char in Ha; apply Ascii.eqb_eq in Ha; subst a; reflexivity.
Qed.

(** A text that begins with a name and ">" begins with no other name. *)
Lemma begins_with_name t : forall v rest,
  outside (is_char ">") t = true -> outside (is_char ">") v = true ->
  begins_with (t ++ ">") (v ++ ">" ++ rest) = true -> t = v.
Proof.
  induction t as [|a t IH]; intros [|b v] rest Ht Hv H.
  - reflexivity.
  - cbn [outside all_chars] in Hv. apply andb_prop in Hv.
    destruct Hv as [Hb _]. apply negb_true_iff in Hb. unfold is_char in Hb.
    cbn [append begins_with] in H. rewrite Hb in H. discriminate H.
  - cbn [outside all_chars] in Ht. apply andb_prop in Ht.
    destruct Ht as [Ha _]. apply negb_true_iff in Ha. unfold is_char in Ha.
    cbn [append begins_with] in H. rewrite (Ascii.eqb_sym ">" a), Ha in H.
    discriminate H.
  - cbn [outside all_chars] in Ht, Hv.
    apply andb_prop in Ht. destruct Ht as [_ Ht].
    apply andb_prop in Hv. destruct Hv as [_ Hv].
    cbn [append begins_with] in H. apply andb_prop in H.
    destruct H as [E H]. apply Ascii.eqb_eq in E. subst b.
    f_equal. exact (IH v rest Ht Hv H).
Qed.

Lemma html_open_fails t s :
  begins_with ("<" ++ t ++ ">") s = false ->
  match_at (html_before_regex t) false false s = None.
Proof.
  intros H. unfold match_at, html_before_regex. cbn [seq].
  set (kf := fun (s1 : string) (n1 : nat) (c1 : caps) => _).
  change (rmatch (lit ("<" ++ t ++ ">")) s 0 []
            (fun s1 n1 c1 =>
               rmatch (Cat (Group 1 (LazyStar anychar))
                           (lit ("</" ++ t ++ ">"))) s1 n1 c1 kf) = None).
  now apply rmatch_lit_fail.
Qed.

(** The pass for one name over an element written with another name. *)
Lemma html_subn_other_name t v fmt x :
  outside (one_of "<>/") t = true -> outside (one_of "<>/") v = true ->
  outside (is_char "<") x = true ->
  String.eqb t v = false ->
  subn (html_before_regex t) fmt ("<" ++ v ++ ">" ++ x ++ "</" ++ v ++ ">") =
  ("<" ++ v ++ ">" ++ x ++ "</" ++ v ++ ">", 0).
Proof.
  intros Ht Hv Hx Hne.
  destruct (no_syntax_split t Ht) as [_ [Ht2 Ht3]].
  destruct (no_syntax_split v Hv) as [Hv1 [Hv2 _]].
  apply html_subn_other.
  - exact Hx.
  - now rewrite outside_append, Hv1.
  - apply html_open_fails.
    destruct (begins_with ("<" ++ t ++ ">") _) eqn:E; [|reflexivity].
    cbn [append begins_with] in E. apply andb_prop in E. destruct E as [_ E].
    apply (begins_with_name t v _ Ht2 Hv2) in E.
    apply String.eqb_neq in Hne. contradiction.
  - apply html_open_fails. cbn [append begins_with].
    destruct t as [|a t]; [reflexivity|].
    cbn [outside all_chars] in Ht3. apply andb_prop in Ht3.
    destruct Ht3 as [Ha _]. apply negb_true_iff in Ha. unfold is_char in Ha.
    cbn [append begins_with]. rewrite (Ascii.eqb_sym "/" a), Ha.
    reflexivity.
Qed.

Lemma html_loop_no_angle fmt names : forall s count,
  outside (is_char "<") s = true -> html_loop fmt names s count = (s, count).
Proof.
  induction names as [|t names IH]; intros s count Hs; [reflexivity|].
  cbn [html_loop].
  rewrite (sub_outside _ _ fmt s (starts_in_html_open t) Hs).
  rewrite IH by exact Hs. now rewrite Nat.add_0_r.
Qed.

(** The loop over the names rewrites an element written with one of them:
    the passes for other names leave it, the first pass for its name
    rewrites it, and the passes after that find no "<". *)
Lemma html_loop_variant fmt x v :
  plain_format fmt = true ->
  outside (is_char "<") x = true ->
  outside (one_of "<>/") v = true ->
  forall names count,
    forallb (fun t => outside (one_of "<>/") t) names = true ->
    In v names ->
    html_loop fmt names ("<" ++ v ++ ">" ++ x ++ "</" ++ v ++ ">") count =
    (expand fmt [(1, x)], count + 1).
Proof.
  intros Hfmt Hx Hv. induction names as [|t names IH]; intros count Hn Hin.
  - contradiction.
  - cbn [forallb] in Hn. apply andb_prop in Hn. destruct Hn as [Ht Hn].
    cbn [html_loop]. destruct (String.eqb t v) eqn:E.
    + apply String.eqb_eq in E. subst t.
      rewrite (html_subn_one v _ _ Hx), (expand_plain_format _ _ _ Hfmt).
      apply html_loop_no_angle. exact (expand_outside _ _ Hfmt Hx).
    + rewrite (html_subn_other_name t v fmt x Ht Hv Hx E).
      rewrite Nat.add_0_r. apply IH; [exact Hn|].
      destruct Hin as [Hin|Hin]; [|exact Hin].
      subst t. rewrite String.eqb_refl in E. discriminate E.
Qed.

Lemma variants_no_syntax syns :
  forallb plain_tag syns = true ->
  forallb (fun t => outside (one_of "<>/") t)
          (map lower syns ++ map upper syns) = true.
Proof.
  intros H. rewrite forallb_app.
  assert (Hl : forallb (fun t => outside (one_of "<>/") t) (map lower syns)
               = true /\
               forallb (fun t => outside (one_of "<>/") t) (map upper syns)
               = true).
  { induction syns as [|s syns IH]; [split; reflexivity|].
    cbn [forallb] in H. apply andb_prop in H. destruct H as [Hs H].
    destruct (plain_tag_variants s Hs) as [Hlo Hup].
    destruct (IH H) as [IHl IHu]. cbn [map forallb].
    rewrite (plain_tag_no_syntax _ Hlo), (plain_tag_no_syntax _ Hup), IHl, IHu.
    split; reflexivity. }
  destruct Hl as [-> ->]. reflexivity.
Qed.

Lemma html_variant cmd s v x :
  forallb plain_tag (vis_synonyms cmd) = true ->
  In s (vis_synonyms cmd) -> In v [lower s; upper s] ->
  plain_format (vis_format cmd) = true ->
  outside (is_char "<") x = true ->
  html_translate_n cmd ("<" ++ v ++ ">" ++ x ++ "</" ++ v ++ ">") =
  (expand (vis_format cmd) [(1, x)], 1).
Proof.
  intros Hsyn Hs Hv Hfmt Hx. unfold html_translate_n.
  pose proof (variants_no_syntax _ Hsyn) as Hn.
  assert (Hin : In v (map lower (vis_synonyms cmd) ++
                      map upper (vis_synonyms cmd))).
  { apply in_or_app. destruct Hv as [<-|[<-|[]]]; [left | right];
      now apply in_map. }
  apply (html_loop_variant _ x v Hfmt Hx); [|exact Hn | exact Hin].
  rewrite forallb_forall in Hn. exact (Hn v Hin).
Qed.

(** C7, as stated, fails: an HTML command whose tag name is "Em" looks for
    "<em>" and "<EM>" only, so the tag written as configured is not
    rewritten. *)
Lemma C7_tag_as_configured_is_not_tried :
  html_translate_n
    (new_visual DoxygenHtmlCommand "Em" [] [TLit "*"; TGrp 1; TLit "*"])
    "<Em>x</Em> <em>y</em> <EM>z</EM>" =
  ("<Em>x</Em> *y* *z*", 2).
Proof. vm_compute. reflexivity. Qed.

Ltac html_case t u Hx :=
  unfold html_translate_n;
  cbn [vis_synonyms vis_format vis_tag new_visual];
  change (map lower [t] ++ map upper [t])%list with [t; u];
  change (upper t) with u;
  cbn [html_loop];
  repeat split;
  [ rewrite (html_subn_one t _ _ Hx);
    rewrite (sub_outside _ _ _ _ (starts_in_html_open u))
      by (cbn [expand group Nat.eqb]; rewrite ?outside_append, Hx;
          reflexivity);
    reflexivity
  | rewrite (html_subn_other t u _ _ Hx eq_refl eq_refl eq_refl);
    rewrite (html_subn_one u _ _ Hx);
    reflexivity ].

(** C7, amended.  An HTML command tries each of its tag names lowercased,
    then each of them uppercased, and no other variant.  For every HTML
    command whose tag names are plain (ASCII letters, digits and
    underscores, so that each name stands for itself in the pattern), with
    a format that writes no "<": an element written with any of the tag
    names of the command, the tag and the synonyms alike, lowercased or
    uppercased, around an interior without "<", is rewritten to the format,
    and that is the one replacement counted.  For each HTML command of the
    translator the tag name as configured is the lowercased one, so an
    element written with the tag as configured, or with the tag in upper
    case, is rewritten in that way. *)
Theorem C7_html_case_variants :
  (forall (cmd : visual) (s v x : string),
      is_html cmd = true ->
      forallb plain_tag (vis_synonyms cmd) = true ->
      In s (vis_synonyms cmd) -> In v [lower s; upper s] ->
      plain_format (vis_format cmd) = true ->
      outside (is_char "<") x = true ->
      html_translate_n cmd ("<" ++ v ++ ">" ++ x ++ "</" ++ v ++ ">") =
      (expand (vis_format cmd) [(1, x)], 1)) /\
  (forall (cmd : visual) (x : string),
      In cmd make_visual_commands -> is_html cmd = true ->
      outside (is_char "<") x = true ->
      let t := vis_tag cmd in
      html_translate_n cmd ("<" ++ t ++ ">" ++ x ++ "</" ++ t ++ ">") =
        (expand (vis_format cmd) [(1, x)], 1) /\
      html_translate_n cmd
        ("<" ++ upper t ++ ">" ++ x ++ "</" ++ upper t ++ ">") =
        (expand (vis_format cmd) [(1, x)], 1) /\
      lower t = t).
Proof.
  split.
  { intros cmd s v x _ Hsyn Hs Hv Hfmt Hx.
    exact (html_variant cmd s v x Hsyn Hs Hv Hfmt Hx). }
  intros cmd x Hin Hhtml Hx t. subst t.
  cbv [make_visual_commands In] in Hin.
  repeat (destruct Hin as [<-|Hin]; [try discriminate Hhtml|]);
    try contradiction.
  - html_case "b" "B" Hx.
  - html_case "em" "EM" Hx.
  - html_case "tt" "TT" Hx.
  - html_case "pre" "PRE" Hx.
  - html_case "li" "LI" Hx.
Qed.

Lemma C7_bold_witness :
  let bold :=
    new_visual DoxygenHtmlCommand "b" [] [TLit "**"; TGrp 1; TLit "**"] in
  html_translate_n bold "<b>first</b>" = ("**first**", 1) /\
  html_translate_n bold "<B>first</B>" = ("**first**", 1).
Proof.
  intros bold. split.
  - refine (proj1 C7_html_case_variants bold "b" "b" "first" _ _ _ _ _ _).
    + reflexivity.
    + reflexivity.
    + left. reflexivity.
    + left. reflexivity.
    + reflexivity.
    + reflexivity.
  - refine (proj1 (proj2 (proj2 C7_html_case_variants bold "first" _ _ _))).
    + cbv [make_visual_commands In]. right. right. right. left. reflexivity.
    + reflexivity.
    + reflexivity.
Defined.

(** C8: the code breaks the property.  A translator built without the scope
    rule translates "a::b" to itself; once another translator is built
    with the default options, the same translator turns the same comment
    into "a.b". *)
Theorem C8_construction_changes_other_translators :
  let o := {| return_includes_type_tag := false;
              translate_scope_operator := false;
              hide_tparam := true |} in
  let (t1, cls1) := init o initial_class in
  let first_run := translate cls1 t1 "a::b" in
  let (t2, cls2) := init default_options cls1 in
  let second_run := translate cls2 t1 "a::b" in
  first_run = (nl ++ "a::b" ++ nl, []) /\
  second_run = (nl ++ "a.b" ++ nl, []).
Proof. vm_compute. split; reflexivity. Qed.



(** C10, as stated, fails for a hidden kind: with the default options the
    bare tag "@tparam" is recognised (count 1) but rendered as the empty
    text, not as its title line and an empty "label: body". *)
Lemma C10_hidden_kind_renders_nothing :
  let self :=
    new_section DoxygenLabeledSection "tparam" []
      (Some "Type parameter (C++ only)") indent4 true true in
  nth_error (section_types default_translator) 3 = Some self /\
  translate_n self "@tparam" true = ("", 1, []) /\
  nl ++ title_line self ++ sec_indent self ++ ": " =
  nl ++ "Type parameter (C++ only):" ++ nl ++ "    : ".
Proof. repeat split; vm_compute; reflexivity. Qed.

Ltac bare_tag_case Htag Hm :=
  cbv [sec_synonyms new_param new_section new_untitled In] in Htag;
  repeat (destruct Htag as [<-|Htag]; [|]); try contradiction;
  cbv [In] in Hm;
  repeat (destruct Hm as [<-|Hm]; [|]); try contradiction;
  split; exact eq_refl.

(** C10, amended.  For every section kind of a translator, whatever its
    options, a section that is no more than one of the tags of the kind,
    after either marker, is recognised by that kind (count 1) and by no
    kind before it, so it is not treated as a plain paragraph.  Unless the
    kind is hidden, the rendering is the indent with an empty body (for a
    labeled kind an empty label, a colon, a blank and an empty body), after
    the title line when the title is included; a hidden kind renders the
    empty text. *)
Theorem C10_bare_tag_is_recognised :
  forall (o : options) (i : nat) (self : section_command) (tag m : string)
         (include_title : bool),
    nth_error (make_section_types o) i = Some self ->
    In tag (sec_synonyms self) ->
    In m ["@"; "\"] ->
    fst (translate_n self (m ++ tag) include_title) =
      (bare_rendering self include_title, 1) /\
    snd (fst (try_section_types (make_section_types o) 0 None (m ++ tag)))
    = Some i.
Proof.
  intros o i self tag m include_title Hself Htag Hm.
  destruct o as [[] [] []]; destruct include_title;
    cbv [make_section_types return_includes_type_tag hide_tparam] in Hself;
    do 15 (destruct i as [|i];
           [cbn [nth_error] in Hself; injection Hself as <-;
            bare_tag_case Htag Hm|]);
    destruct i; discriminate Hself.
Qed.

Lemma C10_bare_return_witness :
  fst (translate_n
         (new_section DoxygenSection "return" [] (Some "Returns")
                      indent4 false false)
         "@return" true) = (nl ++ "Returns:" ++ nl ++ "    ", 1).
Proof.
  refine (proj1 (C10_bare_tag_is_recognised default_options 1
                   (new_section DoxygenSection "return" [] (Some "Returns")
                                indent4 false false)
                   "return" "@" true _ _ _)).
  - reflexivity.
  - cbv. left. reflexivity.
  - cbv. left. reflexivity.
Defined.

(** * Further properties of the code *)

Import Paragraphs Directions Markup Names Protocol Formatting Words.

(** ** The matcher, continued *)

Lemma star_iter_S body k fuel s n c :
  star_iter body k (S fuel) s n c =
  orelse (body s n c (fun s1 n1 c1 =>
            if Nat.ltb n n1 then star_iter body k fuel s1 n1 c1 else None))
         (k s n c).
Proof. reflexivity. Qed.

Lemma star_cls_stop p k fuel s n c :
  stops p s = true -> star_iter (cls_step p) k fuel s n c = k s n c.
Proof.
  intros Hs. destruct fuel as [|fuel]; [reflexivity|].
  rewrite star_iter_S. destruct s as [|a s]; [reflexivity|].
  cbn [stops] in Hs. apply negb_true_iff in Hs. cbn [cls_step]. rewrite Hs.
  reflexivity.
Qed.



(** ** Sections, continued *)





(** A greedy repetition of a class gives back its last character when the
    continuation refuses what follows the run and accepts one character
    earlier. *)
Lemma star_cls_backtrack p k z rest x : forall fuel n c v,
  all_chars p x = true -> p z = true -> stops p rest = true ->
  String.length x < fuel ->
  k rest (S (String.length x + n)) c = None ->
  k (String z rest) (String.length x + n) c = Some v ->
  star_iter (cls_step p) k fuel (x ++ String z rest) n c = Some v.
Proof.
  induction x as [|a x IH]; intros fuel n c v Hx Hz Hrest Hf Hnone Hk;
    (destruct fuel as [|fuel]; [cbn in Hf; lia|]); rewrite star_iter_S.
  - cbn [append cls_step String.length Nat.add] in *. rewrite Hz.
    assert (E : Nat.ltb n (S n) = true) by (apply Nat.ltb_lt; lia).
    rewrite E, (star_cls_stop _ _ _ _ _ _ Hrest), Hnone. exact Hk.
  - cbn [all_chars] in Hx. apply andb_prop in Hx. destruct Hx as [Ha Hx].
    cbn [append cls_step]. rewrite Ha.
    assert (E : Nat.ltb n (S n) = true) by (apply Nat.ltb_lt; lia).
    rewrite E. rewrite (IH fuel (S n) c v); auto.
    + cbn in Hf. lia.
    + rewrite <- Hnone. f_equal. cbn. lia.
    + rewrite <- Hk. f_equal. cbn. lia.
Qed.





(** ** The split into sections *)








(** ** Plain sections *)


Lemma html_loop_plain fmt names : forall s count,
  plain s = true -> html_loop fmt names s count = (s, count).
Proof.
  induction names as [|t names IH]; intros s count Hs; [reflexivity|].
  cbn [html_loop].
  rewrite (sub_outside _ _ fmt s (starts_in_html t) Hs).
  rewrite IH by exact Hs. now rewrite Nat.add_0_r.
Qed.

Lemma visual_translate_plain cmd s :
  plain s = true -> visual_translate cmd s = (s, []).
Proof.
  intros Hs. unfold visual_translate, visual_translate_n, html_translate_n.
  destruct (vis_class cmd).
  - now rewrite (sub_outside _ _ _ s (starts_in_visual cmd) Hs).
  - now rewrite html_loop_plain.
  - now rewrite (sub_outside _ _ _ s (starts_in_visual cmd) Hs).
  - now rewrite html_loop_plain.
Qed.

Lemma apply_visual_commands_plain cmds : forall s,
  plain s = true -> apply_visual_commands cmds s = (s, []).
Proof.
  induction cmds as [|cmd cmds IH]; intros s Hs; [reflexivity|].
  cbn [apply_visual_commands]. rewrite visual_translate_plain by exact Hs.
  now rewrite IH.
Qed.









(** ** Text that follows a tag *)

Lemma starts_in_group g r p : starts_in r p -> starts_in (Group g r) p.
Proof.
  intros [H1 H2]. split; intros; cbn [rmatch]; [now apply H1 | apply H2].
Qed.

Lemma starts_in_plus_space r : starts_in (Cat (Plus space) r) is_space.
Proof. apply starts_in_cat, starts_in_cat, starts_in_cls. Qed.

Lemma starts_in_section_tail :
  starts_in (Group 1 (seq [Opt (lit ":"); Plus space;
                           Group g_body (Star anychar)]))
            (fun a => is_space a || is_char ":" a).
Proof.
  apply starts_in_group. cbn [seq].
  set (R := Cat (Plus space) (Group g_body (Star anychar))).
  assert (HR : starts_in R is_space) by apply starts_in_plus_space.
  split.
  - intros a s n c k Ha. apply orb_false_iff in Ha. destruct Ha as [Hs Hc].
    change (orelse (rmatch (lit ":") (String a s) n c
                      (fun s1 n1 c1 => rmatch R s1 n1 c1 k))
                   (rmatch R (String a s) n c k) = None).
    rewrite (proj1 (starts_in_lit ":" "") a s n c _ Hc).
    now rewrite (proj1 HR a s n c k Hs).
  - intros n c k.
    change (orelse (rmatch (lit ":") "" n c
                      (fun s1 n1 c1 => rmatch R s1 n1 c1 k))
                   (rmatch R "" n c k) = None).
    rewrite (proj2 (starts_in_lit ":" "")).
    now rewrite (proj2 HR).
Qed.

Lemma stops_weaken (p q : ascii -> bool) s :
  (forall a, q a = true -> p a = true) -> stops p s = true -> stops q s = true.
Proof.
  intros H. destruct s as [|a s]; [reflexivity|]. cbn [stops].
  intros Hp. apply negb_true_iff in Hp. apply negb_true_iff.
  destruct (q a) eqn:E; [|reflexivity]. now rewrite (H a E) in Hp.
Qed.

(** The first path through the tag pattern of a kind that is not the
    parameter kind: the marker and the first of the tags. *)
Lemma head_tag_run self tag others m :
  sec_class self <> ParamSection ->
  sec_synonyms self = tag :: others ->
  one_of "\@" m = true ->
  run (tag_regex self) (String m tag) (fun _ => True) (fun c => c).
Proof.
  intros Hc Hs Hm.
  assert (E : tag_regex self = command_tag_regex (sec_synonyms self))
    by (unfold tag_regex; destruct (sec_class self); congruence).
  rewrite E, Hs. unfold command_tag_regex.
  change (map lit (tag :: others)) with (lit tag :: map lit others).
  pose proof (run_cat _ _ _ _ _ _ _ _ (run_cls (one_of "\@") m Hm)
                (run_alts_head _ (map lit others) _ _ _ (run_lit tag))) as H.
  revert H. apply run_weaken. intros s _. split; exact I.
Qed.

(** With the text after the tag starting neither with whitespace nor with a
    colon, the optional parts of the section pattern are passed over. *)
Lemma glued_run self tag others m :
  sec_class self <> ParamSection ->
  sec_synonyms self = tag :: others ->
  one_of "\@" m = true ->
  run (before_regex self) (String m tag)
      (fun s => stops (fun a => is_space a || is_char ":" a) s = true)
      (fun c => c).
Proof.
  intros Hc Hs Hm. pose proof (head_tag_run self tag others m Hc Hs Hm) as Ht.
  assert (Hsp : forall s,
             stops (fun a => is_space a || is_char ":" a) s = true ->
             stops is_space s = true).
  { intros s. apply stops_weaken. intros a Ha. now rewrite Ha. }
  unfold before_regex. destruct (is_labeled self); cbn [seq].
  - pose proof (run_cat _ _ _ _ _ _ _ _ Ht
                  (run_cat _ _ _ _ _ _ _ _
                     (run_opt_skip _ _
                        (starts_in_plus_space (Group g_label (Plus nonspace))))
                     (run_opt_skip _ _
                        (starts_in_plus_space (Group g_body (Star anychar))))))
      as H.
    cbn [append] in H. rewrite append_nil_r in H.
    revert H. apply run_weaken. intros s Hst. cbn beta.
    repeat split; now apply Hsp.
  - pose proof (run_cat _ _ _ _ _ _ _ _ Ht
                  (run_opt_skip _ _ starts_in_section_tail)) as H.
    rewrite append_nil_r in H.
    revert H. apply run_weaken. intros s Hst. cbn beta. now split.
Qed.

Lemma marker_cases (m : string) :
  In m ["@"; "\"] ->
  exists a, m = String a "" /\ one_of "\@" a = true.
Proof.
  intros [<-|[<-|[]]]; eexists; split; reflexivity.
Qed.

Lemma literal_indent_newline indent :
  literal_indent indent = true -> outside (is_char "010") indent = true.
Proof.
  unfold literal_indent. apply outside_weaken. intros a Ha. now rewrite Ha.
Qed.

(** X4: for a section kind (any kind but the parameter kind) whose tags
    are plain and whose indent has no backslash: when the text that
    follows the first tag begins with a character that is neither
    whitespace nor a colon, the kind still matches (count 1) and the whole
    text after the tag is dropped: the rendering is that of the bare tag. *)
Theorem text_glued_to_tag_is_dropped self tag others m tail include_title :
  sec_class self <> ParamSection ->
  sec_synonyms self = tag :: others ->
  forallb plain_tag (sec_synonyms self) = true ->
  In m ["@"; "\"] ->
  stops (fun a => is_space a || is_char ":" a) tail = true ->
  literal_indent (sec_indent self) = true ->
  fst (translate_n self (m ++ tag ++ tail) include_title) =
  (bare_rendering self include_title, 1).
Proof.
  intros Hc Hs _ Hm Ht Hi0.
  pose proof (literal_indent_newline _ Hi0) as Hi.
  destruct (marker_cases m Hm) as [a [-> Ha]].
  pose proof (run_match_at_rest _ _ _ _ tail
                (glued_run self tag others a Hc Hs Ha) Ht) as E.
  assert (Et : fst (translate_n self (String a "" ++ tag ++ tail) include_title)
               = section_translate_n self (String a tag ++ tail) include_title).
  { unfold translate_n. destruct (is_unsupported self); reflexivity. }
  rewrite Et. unfold section_translate_n, re_match. rewrite E.
  cbn [option_map snd]. unfold bare_rendering.
  destruct (sec_hidden self); [reflexivity|].
  assert (Ex : expand (after_regex self) [(0, String a tag)] =
               sec_indent self ++ (if is_labeled self then ": " else "")).
  { unfold after_regex. destruct (is_labeled self); reflexivity. }
  rewrite Ex. unfold sub.
  rewrite (sub_outside _ _ _ _ starts_in_next_line).
  - cbn [fst]. destruct include_title; reflexivity.
  - rewrite outside_append, Hi. destruct (is_labeled self); reflexivity.
Qed.

Lemma text_glued_to_tag_is_dropped_witness :
  fst (translate_n
         (new_section DoxygenSection "return" [] (Some "Returns")
                      indent4 false false)
         ("@" ++ "return" ++ "s the sum") true) =
  (nl ++ "Returns:" ++ nl ++ "    ", 1).
Proof.
  apply (text_glued_to_tag_is_dropped
           (new_section DoxygenSection "return" [] (Some "Returns")
                        indent4 false false)
           "return" [] "@" "s the sum" true).
  - discriminate.
  - reflexivity.
  - reflexivity.
  - left. reflexivity.
  - reflexivity.
  - reflexivity.
Defined.

Lemma opt_total r k :
  (forall s n c, exists v, k s n c = Some v) ->
  forall s n c, exists v, rmatch (Opt r) s n c k = Some v.
Proof.
  intros Hk s n c. destruct (Hk s n c) as [v Hv].
  exact (rmatch_opt_some r s n c k v Hv).
Qed.

(** A section that begins with the first tag of a kind is matched by the
    kind, whatever follows the tag. *)
Lemma head_tag_matches self tag others m tail :
  sec_class self <> ParamSection ->
  sec_synonyms self = tag :: others ->
  one_of "\@" m = true ->
  exists c, re_match (before_regex self) (String m tag ++ tail) = Some c.
Proof.
  intros Hc Hs Hm. pose proof (head_tag_run self tag others m Hc Hs Hm) as Ht.
  unfold re_match, match_at.
  set (kf := fun (s1 : string) (n1 : nat) (c1 : caps) => _).
  assert (Hkf : forall s n c, exists v, kf s n c = Some v)
    by (intros; eexists; reflexivity).
  unfold before_regex. destruct (is_labeled self); cbn [seq].
  - set (r1 := Cat (Plus space) (Group g_label (Plus nonspace))).
    set (r2 := Cat (Plus space) (Group g_body (Star anychar))).
    set (R1 := Opt r1). set (R2 := Opt r2).
    destruct (opt_total r1 (fun s2 n2 c2 => rmatch R2 s2 n2 c2 kf)
                (opt_total r2 kf Hkf) tail
                (String.length (String m tag) + 0) [])
      as [v Hv].
    change (exists c,
              option_map snd
                (rmatch (tag_regex self) (String m tag ++ tail) 0 []
                   (fun s1 n1 c1 =>
                      rmatch R1 s1 n1 c1
                        (fun s2 n2 c2 => rmatch R2 s2 n2 c2 kf))) = Some c).
    rewrite (Ht tail 0 [] _ v I Hv). destruct v. eexists. reflexivity.
  - set (r := Group 1 _). set (R := Opt r).
    destruct (opt_total r kf Hkf tail (String.length (String m tag) + 0) [])
      as [v Hv].
    change (exists c,
              option_map snd
                (rmatch (tag_regex self) (String m tag ++ tail) 0 []
                   (fun s1 n1 c1 => rmatch R s1 n1 c1 kf)) = Some c).
    rewrite (Ht tail 0 [] _ v I Hv). destruct v. eexists. reflexivity.
Qed.

Lemma hidden_translate_n self s c t :
  sec_hidden self = true -> is_unsupported self = false ->
  re_match (before_regex self) s = Some c ->
  translate_n self s t = ("", 1, []).
Proof.
  intros Hh Hu Hm. unfold translate_n, section_translate_n.
  now rewrite Hu, Hm, Hh.
Qed.

(** X5: with [hide_tparam] set, a comment of one line that begins with the
    tag tparam is translated to the empty text, without a warning,
    whatever follows the tag. *)
Theorem hidden_tparam_gives_no_output o cls0 cls m tail :
  hide_tparam o = true ->
  In m ["@"; "\"] ->
  outside (is_char "010") tail = true ->
  translate cls (fst (init o cls0)) (m ++ "tparam" ++ tail) = ("", []).
Proof.
  intros Ho Hm Ht. destruct (marker_cases m Hm) as [a [-> Ha]].
  unfold translate, translate_loop, split.
  rewrite (scan_all_outside _ _ _ (starts_in_split _)).
  2:{ change (String a "" ++ "tparam" ++ tail)
        with (String a "tparam" ++ tail).
      rewrite outside_append, Ht, andb_true_r.
      destruct Hm as [E|[E|[]]]; injection E as <-; reflexivity. }
  rewrite pieces_all_chars. cbn [fold_left].
  set (tparam := new_section DoxygenLabeledSection "tparam" []
                   (Some "Type parameter (C++ only)") indent4 true true).
  destruct (head_tag_matches tparam "tparam" [] a tail ltac:(discriminate)
              eq_refl Ha) as [c Hc].
  assert (E : try_section_types (make_section_types o) 0 None
                (String a "" ++ "tparam" ++ tail) = ("", Some 3, [])).
  { unfold make_section_types. rewrite Ho. fold tparam.
    destruct Hm as [E|[E|[]]]; injection E as <-;
      (rewrite try_skip by reflexivity);
      (rewrite try_skip by (destruct (return_includes_type_tag o); reflexivity));
      (rewrite try_skip by reflexivity);
      cbn [try_section_types];
      rewrite (hidden_translate_n tparam _ c _ eq_refl eq_refl Hc);
      reflexivity. }
  unfold translate_section, rewrite_section.
  cbn [init fst section_types visual_commands previous_section_type].
  rewrite E. rewrite apply_visual_commands_plain by reflexivity.
  reflexivity.
Qed.

Lemma hidden_tparam_gives_no_output_witness :
  translate scoped_class (fst (init default_options initial_class))
            ("@" ++ "tparam" ++ " T the type of the elements") = ("", []).
Proof.
  apply (hidden_tparam_gives_no_output default_options initial_class
           scoped_class "@" " T the type of the elements").
  - reflexivity.
  - left. reflexivity.
  - reflexivity.
Defined.

(** X6: the tags throws and authors are never reached: the patterns try
    throw and author first, and these match the front of the longer tag.
    Whatever follows "throws" or "authors", the section is rendered as the
    bare tag, under "Raises:" and "Author:", and its text is dropped. *)
Theorem longer_synonym_loses_its_text o prev m tail :
  In m ["@"; "\"] ->
  try_section_types (make_section_types o) 0 prev (m ++ "throws" ++ tail) =
    ((if match prev with Some j => negb (Nat.eqb 5 j) | None => true end
      then nl ++ "Raises:" ++ nl else "") ++ "    : ", Some 5, []) /\
  try_section_types (make_section_types o) 0 prev (m ++ "authors" ++ tail) =
    ((if match prev with Some j => negb (Nat.eqb 9 j) | None => true end
      then nl ++ "Author:" ++ nl else "") ++ "    ", Some 9, []).
Proof.
  intros [<-|[<-|[]]]; destruct o as [[] s h];
    destruct prev as [[|[|[|[|[|[|[|[|[|[|j]]]]]]]]]]|];
    split; reflexivity.
Qed.

Lemma longer_synonym_loses_its_text_witness :
  try_section_types (make_section_types default_options) 0 None
    ("@" ++ "throws" ++ " std::range_error when out of range") =
    (nl ++ "Raises:" ++ nl ++ "    : ", Some 5, []) /\
  try_section_types (make_section_types default_options) 0 None
    ("@" ++ "authors" ++ " std::range_error when out of range") =
    (nl ++ "Author:" ++ nl ++ "    ", Some 9, []).
Proof.
  apply (longer_synonym_loses_its_text default_options None "@"
           " std::range_error when out of range").
  left. reflexivity.
Defined.

(** ** The direction annotation of "@param" *)

Lemma direction_item_run i :
  is_direction_item i = true ->
  run (alts [lit "in"; lit "out"; lit ","]) i (fun _ => True) (fun c => c) /\
  0 < String.length i.
Proof.
  unfold is_direction_item. cbn [existsb]. intros H.
  repeat (apply orb_prop in H; destruct H as [H|H]); try discriminate;
    apply String.eqb_eq in H; subst i; (split; [|cbn; lia]).
  - apply run_alts_head, run_lit.
  - pose proof (run_alt_r (lit "in") _ _ _ _ _ (starts_in_lit "i" "n")
                  (run_alts_head _ [lit ","] _ _ _ (run_lit "out"))) as H.
    revert H. apply run_weaken. intros s _. split; [reflexivity | exact I].
  - pose proof (run_alt_r (lit "in") _ _ _ _ _ (starts_in_lit "i" "n")
                  (run_alt_r (lit "out") _ _ _ _ _ (starts_in_lit "o" "ut")
                     (run_lit ","))) as H.
    revert H. apply run_weaken. intros s _. repeat split.
Qed.

(** The repetition runs over the items and stops at the closing bracket. *)
Lemma direction_items_run k s : forall items fuel n c v,
  forallb is_direction_item items = true ->
  List.length items <= fuel ->
  k (String "]" s) (String.length (join items) + n) c = Some v ->
  star_iter (rmatch (alts [lit "in"; lit "out"; lit ","])) k fuel
            (join items ++ String "]" s) n c = Some v.
Proof.
  induction items as [|i items IH]; intros fuel n c v Hi Hf Hk.
  - cbn [join append String.length Nat.add] in *.
    destruct fuel as [|fuel]; [exact Hk|].
    rewrite star_iter_S.
    change (rmatch (alts [lit "in"; lit "out"; lit ","]) (String "]" s) n c _)
      with (@None (nat * caps)).
    exact Hk.
  - cbn [forallb] in Hi. apply andb_prop in Hi. destruct Hi as [Hi Hitems].
    destruct (direction_item_run i Hi) as [Hrun Hlen].
    destruct fuel as [|fuel]; [cbn in Hf; lia|].
    rewrite star_iter_S. cbn [join]. rewrite append_assoc.
    rewrite (Hrun (join items ++ String "]" s) n c _ v I); [reflexivity|].
    assert (E : Nat.ltb n (String.length i + n) = true)
      by (apply Nat.ltb_lt; lia).
    rewrite E. apply IH; auto.
    + cbn in Hf. lia.
    + rewrite <- Hk. f_equal. cbn [join]. rewrite length_append. lia.
Qed.

Lemma join_length items :
  forallb is_direction_item items = true ->
  List.length items <= String.length (join items).
Proof.
  induction items as [|i items IH]; intros H; [cbn; lia|].
  cbn [forallb] in H. apply andb_prop in H. destruct H as [Hi H].
  destruct (direction_item_run i Hi) as [_ Hlen].
  cbn [join List.length]. rewrite length_append. specialize (IH H). lia.
Qed.

Lemma direction_star_run items :
  forallb is_direction_item items = true ->
  run (Star (alts [lit "in"; lit "out"; lit ","])) (join items)
      (fun s => exists s', s = String "]" s') (fun c => c).
Proof.
  intros Hi s n c k v [s' ->] Hk.
  change (star_iter (rmatch (alts [lit "in"; lit "out"; lit ","])) k
            (S (String.length (join items ++ String "]" s')))
            (join items ++ String "]" s') n c = Some v).
  apply direction_items_run; auto.
  rewrite length_append. pose proof (join_length items Hi). lia.
Qed.

Lemma direction_run items :
  forallb is_direction_item items = true ->
  run (tag_regex new_param) ("@param" ++ direction items)
      (fun _ => True) (fun c => c).
Proof.
  intros Hi.
  pose proof
    (run_cat _ _ _ _ _ _ _ _
       (run_cls (one_of "\@") "@" eq_refl)
       (run_cat _ _ _ _ _ _ _ _
          (run_lit "param")
          (run_opt _ _ _ _
             (run_cat _ _ _ _ _ _ _ _
                (run_lit "[")
                (run_cat _ _ _ _ _ _ _ _
                   (direction_star_run items Hi)
                   (run_lit "]")))))) as H.
  revert H. apply run_weaken. intros s _. cbn beta.
  repeat split. exists s. reflexivity.
Qed.

Lemma direction_match items a l b :
  forallb is_direction_item items = true ->
  is_space a = false -> outside is_space l = true ->
  stops is_space b = true ->
  re_match (before_regex new_param)
           (("@param" ++ direction items) ++ " " ++ String a l ++ " " ++ b) =
  Some ((0, ("@param" ++ direction items) ++ " " ++ String a l ++ " " ++ b)
        :: labeled_groups (String a l) b []).
Proof.
  intros Hi Ha Hl Hb. apply run_re_match.
  pose proof (run_cat _ _ _ _ _ _ _ _ (direction_run items Hi)
                (labeled_tail_run a l b Ha Hl Hb)) as H.
  revert H. apply run_weaken. intros s ->. cbn beta. split; reflexivity.
Qed.

(** X7: a direction annotation after "@param" (square brackets around any
    number of the items in, out and the comma) is matched with the tag and
    discarded: the section is rendered as without the annotation. *)
Theorem param_direction_is_discarded items l b include_title :
  forallb is_direction_item items = true ->
  is_label l = true -> is_body b = true ->
  translate_n new_param ("@param" ++ direction items ++ " " ++ l ++ " " ++ b)
              include_title =
  (param_rendering include_title l b, 1, []).
Proof.
  intros Hi Hl Hb. destruct l as [|a l]; [discriminate|].
  unfold is_label in Hl. unfold is_body in Hb.
  apply andb_prop in Hb. destruct Hb as [Hb1 Hb2].
  pose proof (outside_space_newline _ Hl) as Hl'.
  cbn [outside all_chars] in Hl. apply andb_prop in Hl.
  destruct Hl as [Ha Hl]. apply negb_true_iff in Ha.
  unfold translate_n, section_translate_n.
  replace ("@param" ++ direction items ++ " " ++ String a l ++ " " ++ b)
    with (("@param" ++ direction items) ++ " " ++ String a l ++ " " ++ b)
    by (rewrite append_assoc; reflexivity).
  rewrite (direction_match items a l b Hi Ha Hl Hb1).
  cbn [new_param new_section sec_hidden sec_indent
       sec_next_lines_extra_indent is_unsupported sec_class].
  cbv [after_regex is_labeled new_param new_section sec_class sec_indent
       labeled_groups expand group g_label g_body Nat.eqb].
  unfold sub.
  rewrite (sub_outside _ _ _ _ starts_in_next_line).
  - cbn [fst]. rewrite append_nil_r.
    destruct include_title; reflexivity.
  - rewrite !outside_append, Hl', Hb2. reflexivity.
Qed.

Lemma param_direction_is_discarded_witness :
  translate_n new_param
    ("@param" ++ direction ["in"; ","; "out"] ++ " " ++ "buf" ++ " " ++
     "the buffer") true =
  (param_rendering true "buf" "the buffer", 1, []).
Proof.
  apply (param_direction_is_discarded ["in"; ","; "out"] "buf" "the buffer"
           true); reflexivity.
Defined.

(** ** Continuation lines *)

(** The substitution that indents the lines after the first: a newline and
    the whitespace after it are replaced by a newline and the indent. *)
Lemma sub_next_line indent x ws y :
  outside (is_char "010") x = true ->
  all_chars is_space ws = true ->
  stops is_space y = true ->
  outside (is_char "010") y = true ->
  sub (Cat newline (Star space)) [TLit indent] (x ++ nl ++ ws ++ y) =
  x ++ indent ++ y.
Proof.
  intros Hx Hws Hy1 Hy2. unfold sub, subn. cbn [fst].
  rewrite (scan_outside _ _ x starts_in_next_line Hx).
  pose proof (run_cat _ _ _ _ _ _ _ _
                (run_cls (is_char "010") "010" eq_refl)
                (run_star_cls is_space ws Hws)) as H.
  pose proof (run_match_at_rest (Cat newline (Star space)) _ _ _ y H
                (conj I Hy1)) as E.
  change (nl ++ ws ++ y) with ((String "010" "" ++ ws) ++ y).
  assert (Hne : String "010" "" ++ ws <> "") by discriminate.
  rewrite (scan_hit_text (Cat newline (Star space)) _ _ _ Hne E).
  rewrite (scan_all_outside _ _ y starts_in_next_line Hy2).
  rewrite replace_chars. cbn [replace expand].
  rewrite <- (app_nil_r (map Ch (list_ascii_of_string y))).
  rewrite replace_chars. cbn [replace].
  now rewrite !append_nil_r.
Qed.

(** X8: in a "@param" section whose body goes on after a newline, the
    newline and all whitespace after it are replaced by a newline and
    eight blanks (twice the indent): the second line of the body is
    indented below the first. *)
Theorem param_continuation_line_is_indented l c b1 ws b2 include_title :
  is_label l = true -> is_body (String c b1) = true ->
  all_chars is_space ws = true -> is_body b2 = true ->
  section_translate_n new_param
    ("@param " ++ l ++ " " ++ String c b1 ++ nl ++ ws ++ b2) include_title =
  (param_rendering include_title l (String c b1) ++ nl ++ "        " ++ b2, 1).
Proof.
  intros Hl Hb1 Hws Hb2. destruct l as [|a l]; [discriminate|].
  unfold is_label in Hl. unfold is_body in Hb1, Hb2.
  apply andb_prop in Hb1. destruct Hb1 as [Hc Hb1].
  apply andb_prop in Hb2. destruct Hb2 as [Hb2s Hb2n].
  pose proof (outside_space_newline _ Hl) as Hl'.
  cbn [outside all_chars] in Hl. apply andb_prop in Hl.
  destruct Hl as [Ha Hl]. apply negb_true_iff in Ha.
  unfold section_translate_n.
  change ("@param " ++ String a l ++ " " ++ String c b1 ++ nl ++ ws ++ b2)
    with ("@param " ++ String a l ++ " " ++ String c (b1 ++ nl ++ ws ++ b2)).
  rewrite (param_match a l (String c (b1 ++ nl ++ ws ++ b2)) Ha Hl Hc).
  cbn [new_param new_section sec_hidden sec_indent
       sec_next_lines_extra_indent].
  cbv [after_regex is_labeled new_param new_section sec_class sec_indent
       labeled_groups expand group g_label g_body Nat.eqb].
  rewrite append_nil_r.
  replace (indent4 ++ String a l ++ ": " ++ String c (b1 ++ nl ++ ws ++ b2))
    with ((indent4 ++ String a l ++ ": " ++ String c b1) ++ nl ++ ws ++ b2)
    by (cbn [append indent4]; rewrite !append_assoc; reflexivity).
  rewrite sub_next_line; auto.
  - unfold param_rendering.
    destruct include_title; cbn [append indent4 nl repeat_str];
      rewrite ?append_assoc; reflexivity.
  - rewrite !outside_append, Hl', Hb1. reflexivity.
Qed.

Lemma param_continuation_line_is_indented_witness :
  section_translate_n new_param
    ("@param " ++ "x" ++ " " ++ String "t" "he input," ++ nl ++ "  " ++
     "in metres") false =
  (param_rendering false "x" (String "t" "he input,") ++ nl ++ "        " ++
   "in metres", 1).
Proof.
  apply (param_continuation_line_is_indented "x" "t" "he input," "  "
           "in metres" false); reflexivity.
Defined.

(** ** Several HTML elements in one text *)

Lemma scan_html_element t x rest :
  outside (is_char "<") x = true ->
  scan (html_before_regex t) 0 (html_element t x ++ rest) =
  Hit [(0, html_element t x); (1, x)] :: scan (html_before_regex t) 0 rest.
Proof.
  intros Hx.
  pose proof (run_match_at_rest _ _ _ _ rest (html_run t x Hx) I) as E.
  apply scan_hit_text; [discriminate | exact E].
Qed.

Lemma subn_markup t fmt parts post :
  plain_format fmt = true ->
  no_angle parts post = true ->
  subn (html_before_regex t) fmt (markup (html_element t) parts post) =
  (markup (fun x => expand fmt [(1, x)]) parts post, List.length parts).
Proof.
  intros Hfmt. unfold no_angle, subn. intros H.
  apply andb_prop in H. destruct H as [Hparts Hpost].
  induction parts as [|[pre x] parts IH]; cbn [markup List.length].
  - rewrite (scan_all_outside _ _ post (starts_in_html_open t) Hpost).
    rewrite <- (app_nil_r (map Ch _)).
    rewrite replace_chars, hits_chars. cbn [replace hits].
    now rewrite append_nil_r.
  - cbn [forallb fst snd] in Hparts. apply andb_prop in Hparts.
    destruct Hparts as [Hpx Hparts]. apply andb_prop in Hpx.
    destruct Hpx as [Hpre Hx]. specialize (IH Hparts).
    injection IH as IH1 IH2.
    rewrite (scan_outside _ _ pre (starts_in_html_open t) Hpre).
    rewrite (scan_html_element t x _ Hx).
    rewrite replace_chars, hits_chars. cbn [replace hits].
    rewrite IH1, IH2, (expand_plain_format _ _ _ Hfmt). reflexivity.
Qed.

Lemma markup_outside fmt parts post :
  plain_format fmt = true ->
  no_angle parts post = true ->
  outside (is_char "<") (markup (fun x => expand fmt [(1, x)]) parts post)
  = true.
Proof.
  intros Hfmt. unfold no_angle. intros H.
  apply andb_prop in H. destruct H as [Hparts Hpost].
  induction parts as [|[pre x] parts IH]; cbn [markup]; [exact Hpost|].
  cbn [forallb fst snd] in Hparts. apply andb_prop in Hparts.
  destruct Hparts as [Hpx Hparts]. apply andb_prop in Hpx.
  destruct Hpx as [Hpre Hx].
  rewrite !outside_append, Hpre, (expand_outside _ _ Hfmt Hx), (IH Hparts).
  reflexivity.
Qed.

Lemma html_translate_n_markup cmd parts post :
  vis_synonyms cmd = [vis_tag cmd] ->
  plain_format (vis_format cmd) = true ->
  no_angle parts post = true ->
  html_translate_n cmd
    (markup (html_element (lower (vis_tag cmd))) parts post) =
  (markup (fun x => expand (vis_format cmd) [(1, x)]) parts post,
   List.length parts).
Proof.
  intros Hsyn Hfmt Hp. unfold html_translate_n. rewrite Hsyn.
  cbn [map app html_loop].
  rewrite (subn_markup _ _ _ _ Hfmt Hp).
  rewrite (sub_outside _ _ _ _ (starts_in_html_open (upper (vis_tag cmd)))
             (markup_outside _ _ _ Hfmt Hp)).
  cbn [Nat.add]. now rewrite Nat.add_0_r.
Qed.

(** X9: the lazy repetition in the pattern of an HTML command ends each
    match at the first closing tag.  For an HTML command of one tag name,
    which is plain: in a text with any number of elements of the command,
    written in lower case, whose interiors and surroundings have no "<",
    every element is rewritten on its own, the text between the elements
    is kept, and the count is the number of elements.  An unsupported
    command warns once when there is an element, however many there are. *)
Theorem html_elements_are_rewritten_one_by_one cmd parts post :
  is_html cmd = true ->
  vis_synonyms cmd = [vis_tag cmd] ->
  plain_tag (vis_tag cmd) = true ->
  plain_format (vis_format cmd) = true ->
  no_angle parts post = true ->
  visual_translate_n cmd
    (markup (html_element (lower (vis_tag cmd))) parts post) =
  (markup (fun x => expand (vis_format cmd) [(1, x)]) parts post,
   List.length parts,
   match vis_class cmd with
   | DoxygenUnsupportedHtmlCommand =>
       if Nat.ltb 0 (List.length parts)
       then [unsupported_message (vis_tag cmd)] else []
   | _ => []
   end).
Proof.
  intros Hh Hsyn _ Hfmt Hp. unfold visual_translate_n, is_html in *.
  destruct (vis_class cmd); try discriminate Hh;
    rewrite (html_translate_n_markup cmd parts post Hsyn Hfmt Hp);
    reflexivity.
Qed.

Lemma html_elements_are_rewritten_one_by_one_witness :
  visual_translate_n
    (new_visual DoxygenUnsupportedHtmlCommand "li" [] [TLit (nl ++ "- "); TGrp 1])
    (markup (html_element "li") [("", "first"); (" and ", "second")] ".") =
  (nl ++ "- first and " ++ nl ++ "- second.", 2,
   [unsupported_message "li"]).
Proof.
  apply (html_elements_are_rewritten_one_by_one
           (new_visual DoxygenUnsupportedHtmlCommand "li" []
                       [TLit (nl ++ "- "); TGrp 1])
           [("", "first"); (" and ", "second")] "."); reflexivity.
Defined.

(** ** The bracket scan, continued *)

Lemma str_split_outside sep x :
  outside (is_char sep) x = true -> str_split sep x = [x].
Proof.
  induction x as [|a x IH]; intros H; [reflexivity|].
  cbn [outside all_chars] in H. apply andb_prop in H. destruct H as [Ha H].
  apply negb_true_iff in Ha. unfold is_char in Ha.
  cbn [str_split]. rewrite Ha, (IH H). reflexivity.
Qed.

Lemma str_split_not_nil sep s : str_split sep s <> [].
Proof.
  destruct s as [|a s]; cbn [str_split]; [discriminate|].
  destruct (Ascii.eqb a sep); [discriminate|].
  destruct (str_split sep s); discriminate.
Qed.

Lemma removelast_cons {A} (x : A) l :
  l <> [] -> removelast (x :: l) = x :: removelast l.
Proof. destruct l; [congruence | reflexivity]. Qed.

Lemma last_cons {A} (x d : A) l : l <> [] -> last (x :: l) d = last l d.
Proof. destruct l; [congruence | reflexivity]. Qed.

Lemma rebracket_step_plain out x :
  outside (is_char "<") x = true ->
  rebracket_step (0%Z, out) x = (0%Z, out ++ x ++ ">").
Proof.
  intros Hx. unfold rebracket_step, subn.
  rewrite (scan_open_bracket_plain x Hx).
  rewrite <- (app_nil_r (map Ch _)).
  rewrite replace_chars, hits_chars. cbn [replace hits].
  now rewrite append_nil_r.
Qed.

(** Without a "<" every span goes out as it came in, with its ">". *)
Lemma rebracket_spans_plain text : forall x out,
  outside (is_char ">") x = true ->
  outside (is_char "<") x = true ->
  outside (is_char "<") text = true ->
  let spans := str_split ">" (x ++ text) in
  snd (fold_left rebracket_step (removelast spans) (0%Z, out)) ++
  last spans "" = out ++ x ++ text.
Proof.
  induction text as [|a s IH]; intros x out Hx1 Hx2 Ht; cbn zeta.
  - rewrite append_nil_r, (str_split_outside _ _ Hx1). reflexivity.
  - cbn [outside all_chars] in Ht. apply andb_prop in Ht.
    destruct Ht as [Ha Ht]. fold (outside (is_char "<") s) in Ht.
    destruct (Ascii.eqb a ">") eqn:E.
    + apply Ascii.eqb_eq in E. subst a.
      rewrite (str_split_line _ _ _ Hx1).
      rewrite removelast_cons, last_cons by apply str_split_not_nil.
      cbn [fold_left]. rewrite (rebracket_step_plain _ _ Hx2).
      specialize (IH "" (out ++ x ++ ">") eq_refl eq_refl Ht).
      cbn zeta in IH. cbn [append] in IH. rewrite IH.
      now rewrite !append_assoc.
    + replace (x ++ String a s) with ((x ++ String a "") ++ s)
        by (rewrite append_assoc; reflexivity).
      rewrite (IH (x ++ String a "") out).
      * now rewrite !append_assoc.
      * rewrite outside_append, Hx1. unfold outside. cbn [all_chars andb].
        unfold is_char. now rewrite E.
      * rewrite outside_append, Hx2. unfold outside. cbn [all_chars andb].
        now rewrite Ha.
      * exact Ht.
Qed.

(** X10: the bracket scan of [cpp2python] changes a text only when it has
    both a "<" and a ">": without a "<" every ">" is kept as a
    greater-than sign, and without a ">" nothing is rewritten, not even a
    template name followed by "<", because the last span is appended as it
    is. *)
Theorem rebracket_needs_both_brackets text :
  outside (is_char "<") text = true \/ outside (is_char ">") text = true ->
  rebracket text = text.
Proof.
  intros [H|H]; unfold rebracket.
  - pose proof (rebracket_spans_plain text "" "" eq_refl eq_refl H) as E.
    cbn zeta in E. cbn [append] in E.
    destruct (fold_left rebracket_step _ _) as [d out]. exact E.
  - rewrite (str_split_outside _ _ H). reflexivity.
Qed.

Lemma rebracket_needs_both_brackets_witness :
  rebracket "a > b and c > d" = "a > b and c > d" /\
  rebracket "see List<int" = "see List<int".
Proof.
  split.
  - apply (rebracket_needs_both_brackets "a > b and c > d").
    left. reflexivity.
  - apply (rebracket_needs_both_brackets "see List<int").
    right. reflexivity.
Defined.

(** ** The rule of the scope operator *)

Lemma run_star_then_cls (p q : ascii -> bool) x z :
  all_chars p x = true -> p z = true -> q z = true ->
  run (Cat (Star (Cls p)) (Cls q)) (x ++ String z "")
      (fun s => stops p s = true /\ stops q s = true) (fun c => c).
Proof.
  intros Hx Hpz Hqz s n c k v [Hs1 Hs2] Hk.
  rewrite append_assoc. cbn [append].
  change (star_iter (cls_step p) (fun s1 n1 c1 => cls_step q s1 n1 c1 k)
            (S (String.length (x ++ String z s))) (x ++ String z s) n c
          = Some v).
  apply star_cls_backtrack; auto.
  - rewrite length_append. cbn. lia.
  - destruct s as [|b s]; [reflexivity|]. cbn [stops] in Hs2.
    apply negb_true_iff in Hs2. cbn [cls_step]. now rewrite Hs2.
  - cbn [cls_step]. rewrite Hqz. rewrite <- Hk. f_equal.
    rewrite length_append. cbn. lia.
Qed.

Lemma last_char_split (p : ascii -> bool) a :
  a <> "" -> all_chars p a = true ->
  exists x z, a = x ++ String z "" /\ all_chars p x = true /\ p z = true.
Proof.
  induction a as [|b a IH]; intros Hne Ha; [congruence|].
  cbn [all_chars] in Ha. apply andb_prop in Ha. destruct Ha as [Hb Ha].
  destruct a as [|b' a'].
  - exists "", b. repeat split; auto.
  - destruct (IH ltac:(discriminate) Ha) as [x [z [E [Hx Hz]]]].
    exists (String b x), z. rewrite E. repeat split; auto.
    cbn [all_chars]. now rewrite Hb, Hx.
Qed.

Lemma all_chars_weaken (p q : ascii -> bool) x :
  (forall a, p a = true -> q a = true) ->
  all_chars p x = true -> all_chars q x = true.
Proof.
  intros H. induction x as [|a x IH]; [reflexivity|]. cbn [all_chars].
  intros Hx. apply andb_prop in Hx. destruct Hx as [Ha Hx].
  now rewrite (H a Ha), (IH Hx).
Qed.

(** The rule matches a name, the operator and a name, up to a character
    that cannot continue the second name. *)
Lemma scope_run a b :
  is_name a = true -> is_name b = true ->
  run (rule_pattern scope_rule) (a ++ "::" ++ b)
      (fun s => stops (fun a => is_word a || one_of "<>" a || is_space a) s
                = true)
      (fun c => (2, b) :: (1, a) :: c).
Proof.
  intros Ha Hb.
  set (W := fun a => is_word a || one_of "<>" a || is_space a).
  assert (HW : forall c, is_word c = true -> W c = true)
    by (intros c Hc; unfold W; now rewrite Hc).
  destruct a as [|a0 a]; [discriminate|]. destruct b as [|b0 b]; [discriminate|].
  unfold is_name in Ha, Hb.
  destruct (last_char_split is_word (String a0 a) ltac:(discriminate) Ha)
    as [x [z [Ea [Hx Hz]]]].
  cbn [all_chars] in Hb. apply andb_prop in Hb. destruct Hb as [Hb0 Hb].
  assert (HXz : (fun a => is_word a || one_of ">" a) z = true)
    by (cbn beta; now rewrite Hz).
  assert (HYb : (fun a => is_word a || one_of "<" a) b0 = true)
    by (cbn beta; now rewrite Hb0).
  pose proof
    (run_cat _ _ _ _ _ _ _ _
       (run_group 1 _ _ _ _
          (run_star_then_cls W (fun a => is_word a || one_of ">" a) x z
             (all_chars_weaken _ _ _ HW Hx) (HW _ Hz) HXz))
       (run_cat _ _ _ _ _ _ _ _
          (run_lit "::")
          (run_group 2 _ _ _ _
             (run_cat _ _ _ _ _ _ _ _
                (run_cls (fun a => is_word a || one_of "<" a) b0 HYb)
                (run_star_cls W b (all_chars_weaken _ _ _ HW Hb)))))) as H.
  rewrite <- Ea in H. revert H. apply run_weaken. intros s Hs. cbn beta.
  repeat split; auto.
Qed.

Lemma starts_in_scope :
  starts_in (rule_pattern scope_rule)
            (fun a => is_word a || one_of "<>" a || is_space a).
Proof.
  set (W := fun a => is_word a || one_of "<>" a || is_space a).
  set (X := fun a => is_word a || one_of ">" a).
  assert (HX : forall a, W a = false -> X a = false).
  { intros a Ha. unfold W in Ha. unfold X.
    apply orb_false_iff in Ha. destruct Ha as [Ha _].
    apply orb_false_iff in Ha. destruct Ha as [Hw Ho]. rewrite Hw.
    unfold one_of in *. cbn [list_ascii_of_string existsb] in *.
    apply orb_false_iff in Ho. destruct Ho as [_ Ho]. exact Ho. }
  apply starts_in_cat, starts_in_group. split.
  - intros a s n c k Ha.
    change (star_iter (cls_step W) (fun s1 n1 c1 => cls_step X s1 n1 c1 k)
              (S (String.length (String a s))) (String a s) n c = None).
    rewrite star_cls_stop by (cbn [stops]; now rewrite Ha).
    cbn [cls_step]. now rewrite (HX a Ha).
  - intros n c k. reflexivity.
Qed.

Lemma scan_no_match r s :
  (forall s1, is_suffix s1 s -> match_at r false false s1 = None) ->
  scan r 0 s = map Ch (list_ascii_of_string s).
Proof.
  induction s as [|a s IH]; intros H.
  - cbn [scan]. now rewrite (H "" (is_suffix_refl "")).
  - rewrite (scan_miss _ _ _ (H _ (is_suffix_refl _))).
    cbn [list_ascii_of_string map]. f_equal. apply IH. intros s1 Hs1.
    apply H. exact (is_suffix_trans _ _ _ Hs1 (is_suffix_tail a s)).
Qed.

(** Without a colon in the text the rule matches nowhere. *)
Lemma scope_needs_colon s :
  outside (is_char ":") s = true ->
  match_at (rule_pattern scope_rule) false false s = None.
Proof.
  intros Hs. unfold match_at.
  set (kf := fun (s1 : string) (n1 : nat) (c1 : caps) => _).
  change (rule_pattern scope_rule)
    with (Cat (Group 1
                 (Cat (Star (Cls (fun a => is_word a || one_of "<>" a
                                           || is_space a)))
                      (Cls (fun a => is_word a || one_of ">" a))))
              (Cat (lit "::")
                   (Group 2
                      (Cat (Cls (fun a => is_word a || one_of "<" a))
                           (Star (Cls (fun a => is_word a || one_of "<>" a
                                                || is_space a))))))).
  set (G1 := Group 1 _). set (T := Cat (lit "::") _).
  change (rmatch G1 s 0 [] (fun s1 n1 c1 => rmatch T s1 n1 c1 kf) = None).
  apply rmatch_suffix_fail. intros s1 n1 c1 Hs1.
  apply (starts_in_fails T (is_char ":")).
  - apply starts_in_cat. apply (starts_in_lit ":" ":").
  - pose proof (outside_suffix _ _ _ Hs1 Hs) as Ho.
    destruct s1 as [|b s1]; [reflexivity|].
    cbn [outside all_chars] in Ho. apply andb_prop in Ho. apply Ho.
Qed.

Lemma sub_scope_no_colon s :
  outside (is_char ":") s = true -> sub_scope s = s.
Proof.
  intros Hs. unfold sub_scope, sub, subn. cbn [fst].
  rewrite scan_no_match.
  - rewrite <- (app_nil_r (map Ch _)). rewrite replace_chars.
    cbn [replace]. apply append_nil_r.
  - intros s1 Hs1. apply scope_needs_colon.
    exact (outside_suffix _ _ _ Hs1 Hs).
Qed.

Lemma sub_scope_cons a b rest :
  is_name a = true -> is_name b = true ->
  stops (fun a => is_word a || one_of "<>" a || is_space a) rest = true ->
  sub_scope (a ++ "::" ++ b ++ rest) = a ++ "." ++ b ++ sub_scope rest.
Proof.
  intros Ha Hb Hrest. unfold sub_scope, sub, subn. cbn [fst].
  pose proof (run_match_at_rest _ _ _ _ rest (scope_run a b Ha Hb) Hrest) as E.
  replace (a ++ "::" ++ b ++ rest) with ((a ++ "::" ++ b) ++ rest)
    by (rewrite !append_assoc; reflexivity).
  assert (Hne : a ++ "::" ++ b <> "")
    by (destruct a; [discriminate Ha | discriminate]).
  rewrite (scan_hit_text _ _ _ _ Hne E).
  cbn [replace scope_rule rule_repl expand group Nat.eqb].
  now rewrite append_nil_r, !append_assoc.
Qed.

Lemma name_no_colon a : is_name a = true -> outside (is_char ":") a = true.
Proof.
  intros Ha. destruct a as [|a0 a]; [discriminate|]. unfold is_name in Ha.
  revert Ha. generalize (String a0 a). intros s. unfold outside.
  apply all_chars_weaken. intros c Hc.
  destruct (is_char ":" c) eqn:E; [|reflexivity].
  apply Ascii.eqb_eq in E. subst c. discriminate Hc.
Qed.

(** X11: with the rule of the scope operator, a name, the operator and a
    name become the two names with a dot between them; text behind the
    second name that cannot continue it and has no colon is kept. *)
Theorem scope_operator_becomes_a_dot a b rest :
  is_name a = true -> is_name b = true ->
  stops (fun a => is_word a || one_of "<>" a || is_space a) rest = true ->
  outside (is_char ":") rest = true ->
  sub_scope (a ++ "::" ++ b ++ rest) = a ++ "." ++ b ++ rest.
Proof.
  intros Ha Hb Hr1 Hr2.
  now rewrite (sub_scope_cons a b rest Ha Hb Hr1), (sub_scope_no_colon _ Hr2).
Qed.

Lemma scope_operator_becomes_a_dot_witness :
  sub_scope ("ns" ++ "::" ++ "f" ++ "(x)") = "ns" ++ "." ++ "f" ++ "(x)".
Proof.
  apply (scope_operator_becomes_a_dot "ns" "f" "(x)"); reflexivity.
Defined.

(** X12: in a chain of three names only the first operator is rewritten:
    the match of the first two names has consumed the second name, and a
    match cannot start at the second operator. *)
Theorem second_scope_operator_is_kept a b c :
  is_name a = true -> is_name b = true -> is_name c = true ->
  sub_scope (a ++ "::" ++ b ++ "::" ++ c) = a ++ "." ++ b ++ "::" ++ c.
Proof.
  intros Ha Hb Hc.
  rewrite (sub_scope_cons a b ("::" ++ c) Ha Hb eq_refl).
  do 2 f_equal. f_equal.
  unfold sub_scope, sub, subn. cbn [fst append].
  pose proof starts_in_scope as [Hs _].
  rewrite !scan_miss by (unfold match_at; now apply Hs).
  cbn [replace]. do 2 f_equal.
  exact (sub_scope_no_colon c (name_no_colon c Hc)).
Qed.

Lemma second_scope_operator_is_kept_witness :
  sub_scope ("a" ++ "::" ++ "b" ++ "::" ++ "c") =
  "a" ++ "." ++ "b" ++ "::" ++ "c".
Proof.
  apply (second_scope_operator_is_kept "a" "b" "c"); reflexivity.
Defined.

(** ** The class dictionary *)

Lemma dict_set_same d r : dict_set (dict_set d r) r = dict_set d r.
Proof.
  induction d as [|r0 d IH]; cbn [dict_set].
  - now rewrite String.eqb_refl.
  - destruct (String.eqb (rule_key r0) (rule_key r)) eqn:E; cbn [dict_set].
    + now rewrite String.eqb_refl.
    + now rewrite E, IH.
Qed.

Lemma init_scoped o : snd (init o scoped_class) = scoped_class.
Proof.
  unfold init. cbn [snd]. destruct (translate_scope_operator o); [|reflexivity].
  unfold scoped_class, init. cbn [snd default_options translate_scope_operator
                                      cls_type_substitutions].
  now rewrite dict_set_same.
Qed.

Lemma construct_all_scoped os : construct_all os scoped_class = scoped_class.
Proof.
  induction os as [|o os IH]; [reflexivity|].
  unfold construct_all in *. cbn [fold_left]. now rewrite init_scoped.
Qed.

(** X13: however many translators are constructed, and with whatever
    options, the dictionary of the class is in one of two states: as the
    class body built it while no translator asked for the scope operator,
    and with the scope rule stored once, as the last rule, from the first
    translator that asked for it. *)
Theorem class_dictionary_after_constructions os :
  construct_all os initial_class =
    (if existsb translate_scope_operator os
     then scoped_class else initial_class) /\
  cls_type_substitutions scoped_class =
    (type_substitutions ++ [scope_rule])%list.
Proof.
  split; [|reflexivity].
  induction os as [|o os IH]; [reflexivity|].
  unfold construct_all in *. cbn [fold_left existsb].
  destruct (translate_scope_operator o) eqn:E.
  - replace (snd (init o initial_class)) with scoped_class
      by (unfold init, scoped_class; cbn [snd]; now rewrite E).
    apply construct_all_scoped.
  - replace (snd (init o initial_class)) with initial_class
      by (unfold init; cbn [snd]; now rewrite E).
    exact IH.
Qed.

(** ** The result of [translate] *)

Lemma translate_section_terminated cls self st section :
  newline_terminated (reformated st) ->
  newline_terminated (reformated (translate_section cls self st section)).
Proof.
  intros H. rewrite translate_section_reformated. cbn zeta.
  destruct (blank_section _); [exact H|].
  right. eexists. rewrite <- append_assoc. reflexivity.
Qed.

Lemma translate_loop_terminated cls self sections : forall st,
  newline_terminated (reformated st) ->
  newline_terminated
    (reformated (fold_left (translate_section cls self) sections st)).
Proof.
  induction sections as [|s sections IH]; intros st H; [exact H|].
  cbn [fold_left]. apply IH. now apply translate_section_terminated.
Qed.

(** X14: whatever the comment, the translator and the class dictionary,
    the text that [translate] returns is empty or ends with a newline. *)
Theorem translation_is_newline_terminated cls self comment :
  newline_terminated (fst (translate cls self comment)).
Proof.
  unfold translate, translate_loop. cbn [fst].
  apply translate_loop_terminated. now left.
Qed.

(** ** The warnings of a translation *)

Lemma translate_n_warnings k s t :
  snd (translate_n k s t) = [] \/
  (is_unsupported k = true /\
   snd (translate_n k s t) = [unsupported_message (sec_tag k)]).
Proof.
  destruct (re_match (before_regex k) s) as [c|] eqn:E.
  - destruct (translate_n_hit k s t c E) as [_ H]. rewrite H.
    destruct (is_unsupported k); [right | left]; auto.
  - rewrite (translate_n_miss k s t E). now left.
Qed.

Lemma try_section_types_warnings kinds : forall i prev s,
  (forall k, In k kinds -> is_unsupported k = true ->
             In (unsupported_message (sec_tag k)) unsupported_messages) ->
  Forall (fun w => In w unsupported_messages)
         (snd (try_section_types kinds i prev s)).
Proof.
  induction kinds as [|k kinds IH]; intros i prev s Hk; [constructor|].
  cbn [try_section_types].
  pose proof (translate_n_warnings k s
                match prev with Some j => negb (Nat.eqb i j) | None => true end)
    as Hw.
  destruct (translate_n k s _) as [[s' n] w]. cbn [snd] in Hw.
  assert (Fw : Forall (fun w => In w unsupported_messages) w).
  { destruct Hw as [->|[U ->]]; [constructor|].
    constructor; [|constructor]. apply Hk; [now left | exact U]. }
  destruct n as [|n].
  - specialize (IH (S i) prev s' (fun k' Hin => Hk k' (or_intror Hin))).
    destruct (try_section_types kinds (S i) prev s') as [r w']. cbn [snd] in *.
    apply Forall_app. now split.
  - exact Fw.
Qed.

Lemma visual_translate_warnings cmd s :
  In cmd make_visual_commands ->
  Forall (fun w => In w unsupported_messages) (snd (visual_translate cmd s)).
Proof.
  intros Hin. cbv [make_visual_commands In] in Hin.
  unfold visual_translate.
  destruct (visual_translate_n cmd s) as [r w] eqn:Ev. cbn [snd].
  unfold visual_translate_n in Ev.
  repeat (destruct Hin as [<-|Hin]; [|]); try contradiction;
    cbn [vis_class new_visual vis_tag] in Ev;
    try (injection Ev as _ <-; constructor);
    unfold warn_if_present in Ev; injection Ev as _ <-;
    (destruct (Nat.ltb 0 _); [|constructor]);
    (constructor; [|constructor]); cbv; tauto.
Qed.

Lemma apply_visual_commands_warnings : forall cmds s,
  (forall cmd, In cmd cmds -> In cmd make_visual_commands) ->
  Forall (fun w => In w unsupported_messages)
         (snd (apply_visual_commands cmds s)).
Proof.
  induction cmds as [|cmd cmds IH]; intros s Hsub; [constructor|].
  cbn [apply_visual_commands].
  pose proof (visual_translate_warnings cmd s (Hsub cmd (or_introl eq_refl)))
    as H.
  destruct (visual_translate cmd s) as [s' w]. cbn [snd] in H.
  specialize (IH s' (fun c Hc => Hsub c (or_intror Hc))).
  destruct (apply_visual_commands cmds s') as [r w']. cbn [snd] in *.
  apply Forall_app. now split.
Qed.

Lemma section_kinds_warnings o k :
  In k (make_section_types o) -> is_unsupported k = true ->
  In (unsupported_message (sec_tag k)) unsupported_messages.
Proof.
  intros Hin U. destruct o as [r sc h]. unfold make_section_types in Hin.
  cbn [return_includes_type_tag hide_tparam In] in Hin.
  repeat (destruct Hin as [<-|Hin];
          [first [ discriminate U
                 | destruct r; discriminate U
                 | destruct h; discriminate U
                 | cbv; tauto ] |]).
  contradiction.
Qed.

Lemma translate_loop_warnings o cls0 cls sections : forall st,
  Forall (fun w => In w unsupported_messages) (emitted st) ->
  Forall (fun w => In w unsupported_messages)
    (emitted (fold_left (translate_section cls (fst (init o cls0)))
                        sections st)).
Proof.
  induction sections as [|s sections IH]; intros st H; [exact H|].
  cbn [fold_left]. apply IH.
  unfold translate_section, rewrite_section.
  cbn [init fst section_types visual_commands].
  pose proof (try_section_types_warnings (make_section_types o) 0
                (previous_section_type st) s (section_kinds_warnings o)) as H1.
  destruct (try_section_types _ 0 _ s) as [[s1 m] w1]. cbn [snd] in H1.
  pose proof (apply_visual_commands_warnings make_visual_commands
                match m with Some _ => s1 | None => nl ++ s1 end
                (fun c Hc => Hc)) as H2.
  destruct (apply_visual_commands make_visual_commands _) as [s3 w2].
  cbn [snd emitted] in *.
  apply Forall_app. split; [exact H|]. apply Forall_app. now split.
Qed.

(** X15: every warning that a translation raises is the message of one of
    the five unsupported tags: overload, ingroup, ref, pre and li. *)
Theorem warnings_name_unsupported_tags o cls0 cls comment :
  Forall (fun w => In w unsupported_messages)
         (snd (translate cls (fst (init o cls0)) comment)).
Proof.
  unfold translate, translate_loop. cbn [snd].
  apply translate_loop_warnings. constructor.
Qed.

(** ** The rendering of a section *)

Lemma section_translate_n_of_match self s c include_title :
  re_match (before_regex self) s = Some c ->
  outside (is_char "010") (expand (after_regex self) c) = true ->
  section_translate_n self s include_title =
  (if sec_hidden self then ""
   else (if include_title then nl ++ title_line self else "") ++
        expand (after_regex self) c, 1).
Proof.
  intros Hm Ho. unfold section_translate_n. rewrite Hm.
  destruct (sec_hidden self); [reflexivity|].
  unfold sub. rewrite (sub_outside _ _ _ _ starts_in_next_line Ho).
  cbn [fst]. destruct include_title; reflexivity.
Qed.

Lemma fst_translate_n self s include_title :
  fst (translate_n self s include_title) =
  section_translate_n self s include_title.
Proof. unfold translate_n. destruct (is_unsupported self); reflexivity. Qed.

Lemma not_labeled_not_param self :
  is_labeled self = false -> sec_class self <> ParamSection.
Proof. unfold is_labeled. destruct (sec_class self); congruence. Qed.

(** The body of a section that is not labeled, with or without a colon
    after the tag. *)
Lemma plain_tail_run colon b :
  In colon [""; ":"] -> stops is_space b = true ->
  run (Opt (Group 1 (seq [Opt (lit ":"); Plus space;
                          Group g_body (Star anychar)])))
      (colon ++ " " ++ b) (fun s => s = "")
      (fun c => (1, colon ++ " " ++ b) :: (g_body, b) :: c).
Proof.
  intros Hc Hb. cbn [seq].
  pose proof (run_cat _ _ _ _ _ _ _ _
                (run_plus_cls is_space " " "" eq_refl eq_refl)
                (run_group g_body _ _ _ _
                   (run_star_cls _ b (all_chars_any b)))) as Hrest.
  destruct Hc as [<-|[<-|[]]].
  - pose proof (run_opt _ _ _ _
                  (run_group 1 _ _ _ _
                     (run_cat _ _ _ _ _ _ _ _
                        (run_opt_skip (lit ":") _ (starts_in_lit ":" ""))
                        Hrest))) as H.
    revert H. apply run_weaken. intros s ->. cbn beta.
    rewrite !append_nil_r. cbn [append stops]. repeat split; auto.
  - pose proof (run_opt _ _ _ _
                  (run_group 1 _ _ _ _
                     (run_cat _ _ _ _ _ _ _ _
                        (run_opt _ _ _ _ (run_lit ":"))
                        Hrest))) as H.
    revert H. apply run_weaken. intros s ->. cbn beta.
    rewrite !append_nil_r. cbn [append stops]. repeat split; auto.
Qed.

Lemma plain_section_translate_n self tag others m colon b include_title :
  is_labeled self = false ->
  sec_synonyms self = tag :: others ->
  one_of "\@" m = true ->
  In colon [""; ":"] ->
  is_body b = true ->
  outside (is_char "010") (sec_indent self) = true ->
  section_translate_n self (String m tag ++ colon ++ " " ++ b) include_title =
  (if sec_hidden self then ""
   else (if include_title then nl ++ title_line self else "") ++
        sec_indent self ++ b, 1).
Proof.
  intros Hl Hs Hm Hc Hb Hi. unfold is_body in Hb.
  apply andb_prop in Hb. destruct Hb as [Hb1 Hb2].
  pose proof (run_cat _ _ _ _ _ _ _ _
                (head_tag_run self tag others m
                   (not_labeled_not_param self Hl) Hs Hm)
                (plain_tail_run colon b Hc Hb1)) as H.
  assert (E : re_match (before_regex self)
                       (String m tag ++ colon ++ " " ++ b) =
              Some ((0, String m tag ++ colon ++ " " ++ b)
                    :: [(1, colon ++ " " ++ b); (g_body, b)])).
  { apply (run_re_match _ _
             (fun c => (1, colon ++ " " ++ b) :: (g_body, b) :: c)).
    unfold before_regex. rewrite Hl. cbn [seq].
    revert H. apply run_weaken. intros s ->. now split. }
  rewrite (section_translate_n_of_match _ _ _ _ E).
  - unfold after_regex. rewrite Hl.
    cbn [expand group g_body Nat.eqb]. now rewrite append_nil_r.
  - unfold after_regex. rewrite Hl.
    cbn [expand group g_body Nat.eqb].
    now rewrite append_nil_r, outside_append, Hi, Hb2.
Qed.

Lemma labeled_section_translate_n self tag others m l b include_title :
  sec_class self = DoxygenLabeledSection ->
  sec_synonyms self = tag :: others ->
  one_of "\@" m = true ->
  is_label l = true -> is_body b = true ->
  outside (is_char "010") (sec_indent self) = true ->
  section_translate_n self (String m tag ++ " " ++ l ++ " " ++ b)
                      include_title =
  (if sec_hidden self then ""
   else (if include_title then nl ++ title_line self else "") ++
        sec_indent self ++ l ++ ": " ++ b, 1).
Proof.
  intros Hc Hs Hm Hl Hb Hi. unfold is_body in Hb.
  apply andb_prop in Hb. destruct Hb as [Hb1 Hb2].
  destruct l as [|a l]; [discriminate|]. unfold is_label in Hl.
  pose proof (outside_space_newline _ Hl) as Hl'.
  cbn [outside all_chars] in Hl. apply andb_prop in Hl.
  destruct Hl as [Ha Hl]. apply negb_true_iff in Ha.
  assert (Hlab : is_labeled self = true) by (unfold is_labeled; now rewrite Hc).
  pose proof (run_cat _ _ _ _ _ _ _ _
                (head_tag_run self tag others m
                   ltac:(rewrite Hc; discriminate) Hs Hm)
                (labeled_tail_run a l b Ha Hl Hb1)) as H.
  assert (E : re_match (before_regex self)
                       (String m tag ++ " " ++ String a l ++ " " ++ b) =
              Some ((0, String m tag ++ " " ++ String a l ++ " " ++ b)
                    :: labeled_groups (String a l) b [])).
  { apply run_re_match. unfold before_regex. rewrite Hlab. cbn [seq].
    revert H. apply run_weaken. intros s ->. now split. }
  rewrite (section_translate_n_of_match _ _ _ _ E).
  - unfold after_regex. rewrite Hlab.
    cbn [expand group labeled_groups g_label g_body Nat.eqb].
    now rewrite append_nil_r.
  - unfold after_regex. rewrite Hlab.
    cbn [expand group labeled_groups g_label g_body Nat.eqb].
    rewrite append_nil_r, !outside_append, Hi, Hl', Hb2. reflexivity.
Qed.

(** X16: a section kind that is not labeled, with plain tags and an indent
    without a backslash, renders a section made of its first tag, a blank
    and a one-line body as the title line (when the title is included),
    the indent and the body; a colon between the tag and the blank is
    accepted and dropped.  A hidden kind renders the empty text. *)
Theorem plain_section_rendering self tag others m colon b include_title :
  is_labeled self = false ->
  sec_synonyms self = tag :: others ->
  forallb plain_tag (sec_synonyms self) = true ->
  In m ["@"; "\"] ->
  In colon [""; ":"] ->
  is_body b = true ->
  literal_indent (sec_indent self) = true ->
  fst (translate_n self (m ++ tag ++ colon ++ " " ++ b) include_title) =
  (if sec_hidden self then ""
   else (if include_title then nl ++ title_line self else "") ++
        sec_indent self ++ b, 1).
Proof.
  intros Hl Hs _ Hm Hc Hb Hi. destruct (marker_cases m Hm) as [a [-> Ha]].
  rewrite fst_translate_n.
  exact (plain_section_translate_n self tag others a colon b include_title
           Hl Hs Ha Hc Hb (literal_indent_newline _ Hi)).
Qed.

Lemma plain_section_rendering_witness :
  fst (translate_n
         (new_section DoxygenSection "see" ["sa"] (Some "See also")
                      indent4 true false)
         ("\" ++ "see" ++ ":" ++ " " ++ "the manual") true) =
  (nl ++ "See also:" ++ nl ++ "    the manual", 1).
Proof.
  apply (plain_section_rendering
           (new_section DoxygenSection "see" ["sa"] (Some "See also")
                        indent4 true false)
           "see" ["sa"] "\" ":" "the manual" true).
  - reflexivity.
  - reflexivity.
  - reflexivity.
  - right. left. reflexivity.
  - right. left. reflexivity.
  - reflexivity.
  - reflexivity.
Defined.

(** X17: a labeled section kind, with plain tags and an indent without a
    backslash, renders a section made of its first tag, a blank, a label,
    a blank and a one-line body as the title line (when the title is
    included), the indent, the label, a colon, a blank and the body.  A
    hidden kind renders the empty text. *)
Theorem labeled_section_rendering self tag others m l b include_title :
  sec_class self = DoxygenLabeledSection ->
  sec_synonyms self = tag :: others ->
  forallb plain_tag (sec_synonyms self) = true ->
  In m ["@"; "\"] ->
  is_label l = true -> is_body b = true ->
  literal_indent (sec_indent self) = true ->
  fst (translate_n self (m ++ tag ++ " " ++ l ++ " " ++ b) include_title) =
  (if sec_hidden self then ""
   else (if include_title then nl ++ title_line self else "") ++
        sec_indent self ++ l ++ ": " ++ b, 1).
Proof.
  intros Hc Hs _ Hm Hl Hb Hi. destruct (marker_cases m Hm) as [a [-> Ha]].
  rewrite fst_translate_n.
  exact (labeled_section_translate_n self tag others a l b include_title
           Hc Hs Ha Hl Hb (literal_indent_newline _ Hi)).
Qed.

Lemma labeled_section_rendering_witness :
  fst (translate_n
         (new_section DoxygenLabeledSection "exception" ["throw"; "throws"]
                      (Some "Raises") indent4 true false)
         ("@" ++ "exception" ++ " " ++ "E" ++ " " ++ "when empty") true) =
  (nl ++ "Raises:" ++ nl ++ "    E: when empty", 1).
Proof.
  apply (labeled_section_rendering
           (new_section DoxygenLabeledSection "exception" ["throw"; "throws"]
                        (Some "Raises") indent4 true false)
           "exception" ["throw"; "throws"] "@" "E" "when empty" true).
  - reflexivity.
  - reflexivity.
  - reflexivity.
  - left. reflexivity.
  - reflexivity.
  - reflexivity.
  - reflexivity.
Defined.

(** X18: the option [return_includes_type_tag] decides how a "@return"
    section with two or more words is read: with the option the first
    word is a label, followed by a colon; without it the first word is
    part of the body. *)
Theorem return_type_tag_option o prev l b :
  is_label l = true -> is_body b = true ->
  try_section_types (make_section_types o) 0 prev
                    ("@return " ++ l ++ " " ++ b) =
  ((if match prev with Some j => negb (Nat.eqb 1 j) | None => true end
    then nl ++ "Returns:" ++ nl else "") ++
   "    " ++ l ++ (if return_includes_type_tag o then ": " else " ") ++ b,
   Some 1, []).
Proof.
  intros Hl Hb. unfold make_section_types.
  rewrite try_skip by reflexivity.
  pose proof (is_label_newline l Hl) as Hl1.
  pose proof (is_body_newline b Hb) as Hb1.
  destruct (return_includes_type_tag o); cbn [try_section_types];
    unfold translate_n;
    cbn [is_unsupported sec_class new_section].
  - change ("@return " ++ l ++ " " ++ b)
      with (String "@" "return" ++ " " ++ l ++ " " ++ b).
    rewrite (labeled_section_translate_n
               (new_section DoxygenLabeledSection "return" [] (Some "Returns")
                            indent4 false false)
               "return" [] "@" l b _
               eq_refl eq_refl eq_refl Hl Hb eq_refl).
    cbn [sec_hidden new_section sec_indent title_line is_untitled sec_class
         sec_title].
    destruct prev as [[|[|j]]|]; reflexivity.
  - change ("@return " ++ l ++ " " ++ b)
      with (String "@" "return" ++ "" ++ " " ++ (l ++ " " ++ b)).
    rewrite (plain_section_translate_n
               (new_section DoxygenSection "return" [] (Some "Returns")
                            indent4 false false)
               "return" [] "@" "" (l ++ " " ++ b) _
               eq_refl eq_refl eq_refl (or_introl eq_refl)).
    + cbn [sec_hidden new_section sec_indent title_line is_untitled sec_class
           sec_title].
      destruct prev as [[|[|j]]|]; reflexivity.
    + unfold is_body. rewrite !outside_append, Hl1, Hb1.
      destruct l as [|a l]; [discriminate|]. unfold is_label in Hl.
      cbn [outside all_chars] in Hl. apply andb_prop in Hl.
      cbn [append stops]. now rewrite (proj1 Hl).
    + reflexivity.
Qed.

Lemma return_type_tag_option_witness :
  try_section_types (make_section_types default_options) 0 None
                    ("@return " ++ "int" ++ " " ++ "the sum") =
  (nl ++ "Returns:" ++ nl ++ "    int the sum", Some 1, []).
Proof.
  apply (return_type_tag_option default_options None "int" "the sum");
    reflexivity.
Defined.

(** ** The visual enhancement of a word *)

Lemma word_run a w :
  is_space a = false -> outside is_space w = true ->
  run (Cat (Plus space) (Group 1 (Plus nonspace))) (" " ++ String a w)
      (fun s => ends_word s = true) (fun c => (1, String a w) :: c).
Proof.
  intros Ha Hw.
  assert (Ha' : negb (is_space a) = true) by now rewrite Ha.
  pose proof (run_cat _ _ _ _ _ _ _ _
                (run_plus_cls is_space " " "" eq_refl eq_refl)
                (run_group 1 _ _ _ _
                   (run_plus_cls (fun a => negb (is_space a)) a w Ha' Hw)))
    as H.
  revert H. apply run_weaken. intros s Hs. cbn beta. split; [|exact Hs].
  cbn [append stops]. now rewrite Ha.
Qed.

Lemma emphasis_run m tag a w :
  one_of "\@" m = true -> In tag ["a"; "e"; "em"] ->
  is_space a = false -> outside is_space w = true ->
  run (visual_before_regex emphasis) (String m tag ++ " " ++ String a w)
      (fun s => ends_word s = true) (fun c => (1, String a w) :: c).
Proof.
  intros Hm Htag Ha Hw.
  pose proof (word_run a w Ha Hw) as Hword.
  unfold visual_before_regex, emphasis, command_tag_regex.
  cbn [new_visual vis_synonyms seq map alts].
  destruct Htag as [<-|[<-|[<-|[]]]].
  - pose proof (run_cat _ _ _ _ _ _ _ _
                  (run_cat _ _ _ _ _ _ _ _ (run_cls (one_of "\@") m Hm)
                     (run_alt_l _ (Alt (lit "e") (lit "em")) _ _ _
                        (run_lit "a")))
                  Hword) as H.
    revert H. apply run_weaken. intros s Hs. cbn beta. auto.
  - pose proof (run_cat _ _ _ _ _ _ _ _
                  (run_cat _ _ _ _ _ _ _ _ (run_cls (one_of "\@") m Hm)
                     (run_alt_r (lit "a") _ _ _ _ _ (starts_in_lit "a" "")
                        (run_alt_l _ (lit "em") _ _ _ (run_lit "e"))))
                  Hword) as H.
    revert H. apply run_weaken. intros s Hs. cbn beta.
    repeat split; auto.
  - intros s n c k v Hs Hk.
    set (R := Cat (Plus space) (Group 1 (Plus nonspace))) in *.
    set (K := fun (s1 : string) (n1 : nat) (c1 : caps) => rmatch R s1 n1 c1 k).
    change (cls_step (one_of "\@")
              (String m ("em" ++ (" " ++ String a w) ++ s)) n c
              (fun s1 n1 c1 =>
                 orelse (rmatch (lit "a") s1 n1 c1 K)
                        (orelse (rmatch (lit "e") s1 n1 c1 K)
                                (rmatch (lit "em") s1 n1 c1 K))) = Some v).
    cbn [cls_step]. rewrite Hm.
    change (rmatch R ((" " ++ String a w) ++ s) (S (S (S n))) c k = Some v).
    apply (Hword s _ c k v Hs). rewrite <- Hk. f_equal.
    cbn [String.length append]. lia.
Qed.

(** X19: each of the tags a, e and em of the command for emphasis, after
    either marker and followed by a blank and a word, is replaced with the
    word between two stars; the word ends at the first whitespace, and
    the text around it, which has no marker and no "<", is kept. *)
Theorem emphasis_wraps_the_word pre m tag w post :
  In m ["@"; "\"] -> In tag ["a"; "e"; "em"] ->
  plain pre = true -> is_label w = true ->
  ends_word post = true -> plain post = true ->
  visual_translate emphasis (pre ++ m ++ tag ++ " " ++ w ++ post) =
  (pre ++ "*" ++ w ++ "*" ++ post, []).
Proof.
  intros Hm Htag Hpre Hw Hpost1 Hpost2.
  destruct (marker_cases m Hm) as [m0 [-> Hm0]].
  destruct w as [|a w]; [discriminate|]. unfold is_label in Hw.
  cbn [outside all_chars] in Hw. apply andb_prop in Hw.
  destruct Hw as [Ha Hw]. apply negb_true_iff in Ha.
  pose proof (run_match_at_rest _ _ _ _ post
                (emphasis_run m0 tag a w Hm0 Htag Ha Hw) Hpost1) as E.
  unfold visual_translate, visual_translate_n.
  cbn [emphasis new_visual vis_class vis_format]. fold emphasis.
  unfold subn. cbn [fst].
  rewrite (scan_outside _ _ pre (starts_in_visual emphasis) Hpre).
  replace (String m0 "" ++ tag ++ " " ++ String a w ++ post)
    with ((String m0 tag ++ " " ++ String a w) ++ post)
    by (cbn [append]; rewrite !append_assoc; reflexivity).
  assert (Hne : String m0 tag ++ " " ++ String a w <> "") by discriminate.
  rewrite (scan_hit_text _ _ _ _ Hne E).
  rewrite (scan_all_outside _ _ post (starts_in_visual emphasis) Hpost2).
  rewrite replace_chars. cbn [replace expand group Nat.eqb].
  rewrite <- (app_nil_r (map Ch (list_ascii_of_string post))).
  rewrite replace_chars. cbn [replace].
  rewrite !append_nil_r. cbn [append]. now rewrite !append_assoc.
Qed.

Lemma emphasis_wraps_the_word_witness :
  visual_translate emphasis
    ("see " ++ "@" ++ "em" ++ " " ++ "this" ++ " here") =
  ("see " ++ "*" ++ "this" ++ "*" ++ " here", []).
Proof.
  apply (emphasis_wraps_the_word "see " "@" "em" "this" " here").
  - left. reflexivity.
  - right. right. left. reflexivity.
  - reflexivity.
  - reflexivity.
  - reflexivity.
  - reflexivity.
Defined.

(** ** The format of a warning *)

Lemma decimal_one_line n : outside (is_char "010") (decimal n) = true.
Proof.
  unfold decimal. generalize (Nat.to_uint n). intros d.
  induction d; cbn [NilEmpty.string_of_uint outside all_chars]; auto.
Qed.

(** X20: when the message, the name of the category and the file name
    have no newline, the formatted warning is one line, ended by the only
    newline of the text: a blank, the file name, a colon, the line number,
    a colon and a blank, the category, a colon and the message. *)
Theorem warning_is_one_line message category filename lineno :
  outside (is_char "010") message = true ->
  outside (is_char "010") category = true ->
  outside (is_char "010") filename = true ->
  lines (warning_on_one_line message category filename lineno) =
  [" " ++ filename ++ ":" ++ decimal lineno ++ ": " ++ category ++ ":" ++
   message; ""].
Proof.
  intros Hm Hc Hf. unfold lines, warning_on_one_line.
  replace (" " ++ filename ++ ":" ++ decimal lineno ++ ": " ++ category ++
           ":" ++ message ++ nl)
    with ((" " ++ filename ++ ":" ++ decimal lineno ++ ": " ++ category ++
           ":" ++ message) ++ String "010" "")
    by (cbn [append]; repeat (rewrite append_assoc; cbn [append]);
        reflexivity).
  rewrite str_split_line; [reflexivity|].
  rewrite !outside_append, Hf, Hc, Hm, (decimal_one_line lineno).
  reflexivity.
Qed.

Lemma warning_is_one_line_witness :
  lines (warning_on_one_line
           "Unsupported Doxygen command detected: \ingroup or @ingroup"
           "UserWarning" "mkdoc.py" 42) =
  [" mkdoc.py:42: UserWarning:" ++
   "Unsupported Doxygen command detected: \ingroup or @ingroup"; ""].
Proof.
  apply (warning_is_one_line
           "Unsupported Doxygen command detected: \ingroup or @ingroup"
           "UserWarning" "mkdoc.py" 42); reflexivity.
Defined.

Lemma first_tag_word_run cmd tag others m a w :
  vis_synonyms cmd = tag :: others ->
  one_of "\@" m = true ->
  is_space a = false -> outside is_space w = true ->
  run (visual_before_regex cmd) (String m tag ++ " " ++ String a w)
      (fun s => ends_word s = true) (fun c => (1, String a w) :: c).
Proof.
  intros Hs Hm Ha Hw. unfold visual_before_regex, command_tag_regex.
  rewrite Hs. cbn [seq].
  change (map lit (tag :: others)) with (lit tag :: map lit others).
  pose proof (run_cat _ _ _ _ _ _ _ _
                (run_cat _ _ _ _ _ _ _ _ (run_cls (one_of "\@") m Hm)
                   (run_alts_head _ (map lit others) _ _ _ (run_lit tag)))
                (word_run a w Ha Hw)) as H.
  revert H. apply run_weaken. intros s Hs'. cbn beta. auto.
Qed.

(** X21: a visual enhancement whose tags are plain, and whose format
    refers to no group that the pattern does not have, rewrites its first
    tag, after either marker and followed by a blank and a word, by its
    format, with the word as group 1; the word ends at the first whitespace, the text around it,
    which has no marker and no "<", is kept, and the count is 1.  An
    unsupported enhancement warns with the message of its tag. *)
Theorem visual_enhancement_rewrites_the_word cmd tag others pre m w post :
  is_html cmd = false ->
  vis_synonyms cmd = tag :: others ->
  forallb plain_tag (vis_synonyms cmd) = true ->
  word_format (vis_format cmd) = true ->
  In m ["@"; "\"] ->
  plain pre = true -> is_label w = true ->
  ends_word post = true -> plain post = true ->
  visual_translate_n cmd (pre ++ m ++ tag ++ " " ++ w ++ post) =
  (pre ++ expand (vis_format cmd) [(0, m ++ tag ++ " " ++ w); (1, w)] ++ post,
   1,
   match vis_class cmd with
   | DoxygenUnsupportedVisualEnhancement => [unsupported_message (vis_tag cmd)]
   | _ => []
   end).
Proof.
  intros Hh Hs _ _ Hm Hpre Hw Hpost1 Hpost2.
  destruct (marker_cases m Hm) as [m0 [-> Hm0]].
  destruct w as [|a w]; [discriminate|]. unfold is_label in Hw.
  cbn [outside all_chars] in Hw. apply andb_prop in Hw.
  destruct Hw as [Ha Hw]. apply negb_true_iff in Ha.
  pose proof (run_match_at_rest _ _ _ _ post
                (first_tag_word_run cmd tag others m0 a w Hs Hm0 Ha Hw) Hpost1)
    as E.
  assert (Esub : subn (visual_before_regex cmd) (vis_format cmd)
                      (pre ++ String m0 "" ++ tag ++ " " ++ String a w ++ post)
                 = (pre ++ expand (vis_format cmd)
                             [(0, String m0 "" ++ tag ++ " " ++ String a w);
                              (1, String a w)] ++ post, 1)).
  { unfold subn.
    rewrite (scan_outside _ _ pre (starts_in_visual cmd) Hpre).
    replace (String m0 "" ++ tag ++ " " ++ String a w ++ post)
      with ((String m0 tag ++ " " ++ String a w) ++ post)
      by (cbn [append]; rewrite !append_assoc; reflexivity).
    assert (Hne : String m0 tag ++ " " ++ String a w <> "") by discriminate.
    rewrite (scan_hit_text _ _ _ _ Hne E).
    rewrite (scan_all_outside _ _ post (starts_in_visual cmd) Hpost2).
    rewrite replace_chars, hits_chars. cbn [replace hits].
    rewrite <- (app_nil_r (map Ch (list_ascii_of_string post))).
    rewrite replace_chars, hits_chars. cbn [replace hits].
    now rewrite !append_nil_r. }
  unfold visual_translate_n, is_html in *.
  destruct (vis_class cmd); try discriminate Hh; rewrite Esub; reflexivity.
Qed.

Lemma visual_enhancement_rewrites_the_word_witness :
  visual_translate_n
    (new_visual DoxygenUnsupportedVisualEnhancement "ref" []
                [TLit "\ref "; TGrp 1])
    ("see " ++ "@" ++ "ref" ++ " " ++ "other" ++ " too") =
  ("see \ref other too", 1, [unsupported_message "ref"]).
Proof.
  apply (visual_enhancement_rewrites_the_word
           (new_visual DoxygenUnsupportedVisualEnhancement "ref" []
                       [TLit "\ref "; TGrp 1])
           "ref" [] "see " "@" "other" " too").
  - reflexivity.
  - reflexivity.
  - reflexivity.
  - reflexivity.
  - left. reflexivity.
  - reflexivity.
  - reflexivity.
  - reflexivity.
  - reflexivity.
Defined.

(** ** Composition *)





(** X23: in a section of a kind that is neither labeled nor hidden, with
    plain tags and an indent without a backslash, a body that goes on
    after a newline keeps its first line after the indent;
    the newline and all whitespace after it are replaced by a newline and
    the indent of the following lines: twice the indent of the kind when
    [next_lines_extra_indent] is set, and once when it is not (as for
    "@return"). *)
Theorem continuation_line_indent self tag others m c b1 ws b2 include_title :
  is_labeled self = false -> sec_hidden self = false ->
  sec_synonyms self = tag :: others ->
  forallb plain_tag (sec_synonyms self) = true ->
  In m ["@"; "\"] ->
  is_body (String c b1) = true ->
  all_chars is_space ws = true -> is_body b2 = true ->
  literal_indent (sec_indent self) = true ->
  fst (translate_n self (m ++ tag ++ " " ++ String c b1 ++ nl ++ ws ++ b2)
                   include_title) =
  ((if include_title then nl ++ title_line self else "") ++
   sec_indent self ++ String c b1 ++ nl ++
   repeat_str (if sec_next_lines_extra_indent self then 2 else 1)
              (sec_indent self) ++ b2, 1).
Proof.
  intros Hl Hh Hs _ Hm Hb1 Hws Hb2 Hi0.
  pose proof (literal_indent_newline _ Hi0) as Hi.
  destruct (marker_cases m Hm) as [a [-> Ha]].
  unfold is_body in Hb1, Hb2.
  apply andb_prop in Hb1. destruct Hb1 as [Hc Hb1].
  apply andb_prop in Hb2. destruct Hb2 as [Hb2s Hb2n].
  set (b := String c (b1 ++ nl ++ ws ++ b2)).
  pose proof (run_cat _ _ _ _ _ _ _ _
                (head_tag_run self tag others a
                   (not_labeled_not_param self Hl) Hs Ha)
                (plain_tail_run "" b (or_introl eq_refl) Hc)) as H.
  assert (E : re_match (before_regex self) (String a tag ++ "" ++ " " ++ b) =
              Some ((0, String a tag ++ "" ++ " " ++ b)
                    :: [(1, "" ++ " " ++ b); (g_body, b)])).
  { apply (run_re_match _ _
             (fun c0 => (1, "" ++ " " ++ b) :: (g_body, b) :: c0)).
    unfold before_regex. rewrite Hl. cbn [seq].
    revert H. apply run_weaken. intros s ->. now split. }
  rewrite fst_translate_n. unfold section_translate_n.
  change (String a "" ++ tag ++ " " ++ String c b1 ++ nl ++ ws ++ b2)
    with (String a tag ++ "" ++ " " ++ b).
  rewrite E, Hh. unfold after_regex. rewrite Hl.
  cbn [expand group g_body Nat.eqb]. rewrite append_nil_r.
  replace (sec_indent self ++ b)
    with ((sec_indent self ++ String c b1) ++ nl ++ ws ++ b2)
    by (unfold b; rewrite append_assoc; reflexivity).
  rewrite sub_next_line; auto.
  - destruct include_title; cbn [append nl]; rewrite ?append_assoc;
      reflexivity.
  - now rewrite outside_append, Hi, Hb1.
Qed.

Lemma continuation_line_indent_witness :
  fst (translate_n
         (new_section DoxygenSection "return" [] (Some "Returns")
                      indent4 false false)
         ("@" ++ "return" ++ " " ++ String "t" "he sum," ++ nl ++ "  " ++
          "rounded") false) =
  ("    the sum," ++ nl ++ "    rounded", 1).
Proof.
  apply (continuation_line_indent
           (new_section DoxygenSection "return" [] (Some "Returns")
                        indent4 false false)
           "return" [] "@" "t" "he sum," "  " "rounded" false).
  - reflexivity.
  - reflexivity.
  - reflexivity.
  - reflexivity.
  - left. reflexivity.
  - reflexivity.
  - reflexivity.
  - reflexivity.
  - reflexivity.
Defined.
